(** * Feed refresh and multi-source deduplication pipeline

    A shallow embedding of the RSS pipeline of the newsletter application:

    - [src/lib/rss-parser.ts]            (item normalisation, identity key)
    - [src/lib/database/error-handler.ts] (database error wrapping)
    - the article actions of [src/actions/user.ts], which go through
      [wrapDatabaseOperation]             (deduplicating upsert, bulk upsert,
                                          windowed retrieval)
    - [src/actions/rss-feed.ts], [src/actions/rss-fetch.ts] (per-feed refresh)
    - [src/lib/rss/feed-refresh.ts]      (freshness classifier, coordinator)

    The [World] holds the two database collections, the remote feed
    documents, the clock, the console and the oracles that stand for what the
    environment decides (database faults, the order in which pending
    refreshes resume).  An atomic action (one database call, one fetch) is a
    function on the world; an [async] function is a resumption [Proc]: a tree
    of atomic actions with one node per [await], so that several of them can
    be interleaved by [Promise.allSettled].

    Left out: [console.error] diagnostics, the passing of time while a
    function runs (the clock of a world is one instant), date strings that
    [new Date] cannot read, and the columns of the collections that the
    pipeline neither reads nor writes. *)

From Stdlib Require Import ZArith List String Ascii Bool Lia.
From Stdlib Require Import Sorted Permutation DecimalString.
Import ListNotations.

Local Open Scope string_scope.
Local Open Scope list_scope.

(** ** JavaScript values *)

Module Js.

  (** [s] where the source has a [string | undefined].  [undefined] and the
      empty string are the falsy ones. *)
Definition truthy (s : option string) : bool :=
    match s with
    | Some s => negb (s =? "")
    | None => false
    end.

  (** [a || b] on optional strings. *)
Definition or (a b : option string) : option string :=
    if truthy a then a else b.

  (** [a || d] where [d] is a string: the result is a string. *)
Definition orElse (a : option string) (d : string) : string :=
    match a with
    | Some s => if s =? "" then d else s
    | None => d
    end.

  (** [`${a}`]: what a template literal prints for an optional string. *)
Definition template (a : option string) : string :=
    match a with
    | Some s => s
    | None => "undefined"
    end.

  (** [`${n}`] for a non-negative integer. *)
Definition ofNat (n : nat) : string :=
    NilZero.string_of_uint (Nat.to_uint n).

End Js.

(** ** Thrown values *)

(** What a [catch] clause can receive: a Prisma known-request error (an
    [Error] subclass carrying a code), a plain [Error], or a value that is
    not an [Error] instance at all. *)
Inductive JsError : Type :=
| PrismaClientKnownRequestError (code message : string)
| Error (message : string)
| Thrown (value : string).

(** [error instanceof Error ? error.message : fallback] *)
Definition messageOr (fallback : string) (error : JsError) : string :=
  match error with
  | PrismaClientKnownRequestError _ m => m
  | Error m => m
  | Thrown _ => fallback
  end.

Inductive Outcome (A : Type) : Type :=
| Return (a : A)
| Throw (e : JsError).
Arguments Return {A} a.
Arguments Throw {A} e.

(** ** Data model *)

Module RssFeed.
Record t : Type := mk {
    id : string;
    url : string;
    title : option string;
    lastFetched : option Z;      (* milliseconds since the epoch *)
    isActive : bool
  }.
Definition withLastFetched (now : Z) (f : t) : t :=
    mk (id f) (url f) (title f) (Some now) (isActive f).
End RssFeed.

Module RssArticle.
  (** The columns [createRssArticle] writes. *)
Record t : Type := mk {
    feedId : string;
    guid : string;
    sourceFeedIds : list string;
    title : string;
    link : string;
    content : option string;
    summary : option string;
    pubDate : Z;
    author : option string;
    categories : list string;
    imageUrl : option string
  }.
  (** [sourceFeedIds: { push: fid }] *)
Definition push (fid : string) (a : t) : t :=
    mk (feedId a) (guid a) (sourceFeedIds a ++ [fid]) (title a) (link a)
       (content a) (summary a) (pubDate a) (author a) (categories a)
       (imageUrl a).
End RssArticle.

Module ArticleCreateData.
Record t : Type := mk {
    feedId : string;
    guid : string;
    title : string;
    link : string;
    content : option string;
    summary : option string;
    pubDate : Z;
    author : option string;
    categories : option (list string);
    imageUrl : option string
  }.
End ArticleCreateData.

Module BulkOperationResult.
Record t : Type := mk {
    created : nat;
    skipped : nat;
    errors : nat
  }.
Definition total (r : t) : nat := created r + skipped r + errors r.
End BulkOperationResult.

(** ** Parsed feed documents (the output of the [rss-parser] package) *)

Module Enclosure.
Record t : Type := mk {
    url : option string;
    type : option string
  }.
End Enclosure.

Module Item.
  (** [guid] is the guid of an RSS item.  [id] is the identifier of an Atom
      entry, which the parser stores under [item.id] and which
      [extractArticles] never reads.  A date string is represented by the
      instant it denotes: an item whose date string [new Date] cannot read
      (Invalid Date) is not written in this model, and no property below
      is about the publish date that [extractArticles] computes. *)
Record t : Type := mk {
    guid : option string;
    id : option string;
    link : option string;
    title : option string;
    isoDate : option Z;
    pubDate : option Z;
    content : option string;
    contentEncoded : option string;     (* item["content:encoded"] *)
    description : option string;
    summary : option string;
    contentSnippet : option string;
    creator : option string;
    author : option string;
    categories : option (list string);
    enclosure : option Enclosure.t
  }.
Definition withId (i : option string) (item : t) : t :=
    mk (guid item) i (link item) (title item) (isoDate item) (pubDate item)
       (content item) (contentEncoded item) (description item)
       (summary item) (contentSnippet item) (creator item) (author item)
       (categories item) (enclosure item).
End Item.

Module ParserOutput.
Record t : Type := mk {
    title : option string;
    description : option string;
    link : option string;
    imageUrl : option string;           (* feed.image?.url *)
    language : option string;
    items : list Item.t
  }.
End ParserOutput.

(** ** The world *)

(** Database calls, recorded in the order the engine receives them. *)
Inductive DbCall : Type :=
| ArticleUpsert (guid feedId : string)
| ArticleFindMany
| FeedFindUnique (id : string)
| FeedFindMany
| FeedFindFirst (url : string)
| FeedUpdate (id : string).

Record World : Type := mkWorld {
  rssFeed : list RssFeed.t;                  (* prisma.rssFeed *)
  rssArticle : list RssArticle.t;            (* prisma.rssArticle *)
  dbFaults : list (option JsError);          (* fault of each coming call *)
  dbTrace : list DbCall;                     (* calls received so far *)
  network : string -> Outcome ParserOutput.t;  (* parser.parseURL *)
  clock : Z;                                 (* new Date().getTime() *)
  console : list string;                     (* console.log lines *)
  schedule : list nat                        (* which pending task resumes *)
}.

Definition setFeeds (fs : list RssFeed.t) (w : World) : World :=
  mkWorld fs (rssArticle w) (dbFaults w) (dbTrace w) (network w) (clock w)
          (console w) (schedule w).
Definition setArticles (rows : list RssArticle.t) (w : World) : World :=
  mkWorld (rssFeed w) rows (dbFaults w) (dbTrace w) (network w) (clock w)
          (console w) (schedule w).
Definition setFaults (fl : list (option JsError)) (w : World) : World :=
  mkWorld (rssFeed w) (rssArticle w) fl (dbTrace w) (network w) (clock w)
          (console w) (schedule w).
Definition record (c : DbCall) (w : World) : World :=
  mkWorld (rssFeed w) (rssArticle w) (dbFaults w) (dbTrace w ++ [c])
          (network w) (clock w) (console w) (schedule w).
Definition print (line : string) (w : World) : World :=
  mkWorld (rssFeed w) (rssArticle w) (dbFaults w) (dbTrace w) (network w)
          (clock w) (console w ++ [line]) (schedule w).

(** ** Atomic actions *)

Definition M (A : Type) : Type := World -> Outcome A * World.

Definition consoleLog (line : string) : M unit :=
  fun w => (Return tt, print line w).
Definition newDate : M Z := fun w => (Return (clock w), w).
Definition parser_parseURL (url : string) : M ParserOutput.t :=
  fun w => (network w url, w).

(** A call of the Prisma client: the call is recorded, the environment may
    make it fail, otherwise [op] reads or writes the collections. *)
Definition prismaCall {A} (c : DbCall) (op : World -> Outcome A * World)
  : M A :=
  fun w =>
    match dbFaults w with
    | Some e :: rest => (Throw e, record c (setFaults rest w))
    | None :: rest => op (record c (setFaults rest w))
    | [] => op (record c w)
    end.

(** ** Asynchronous functions *)

(** [Await m k]: suspend on the atomic action [m], resume with [k] on its
    outcome.  [Settled o]: the promise is fulfilled or rejected. *)
Inductive Proc (A : Type) : Type :=
| Settled (o : Outcome A)
| Await {X : Type} (m : M X) (k : Outcome X -> Proc A).
Arguments Settled {A} o.
Arguments Await {A X} m k.

Definition ret {A} (a : A) : Proc A := Settled (Return a).
Definition throw {A} (e : JsError) : Proc A := Settled (Throw e).
Definition await {A} (m : M A) : Proc A := Await m Settled.
(** A synchronous effect, placed in the tree as a node of its own. *)
Definition perform {A} (m : M A) : Proc A := Await m Settled.

Fixpoint bind {A B} (p : Proc A) (f : A -> Proc B) : Proc B :=
  match p with
  | Settled (Return a) => f a
  | Settled (Throw e) => Settled (Throw e)
  | Await m k => Await m (fun o => bind (k o) f)
  end.

Fixpoint tryCatch {A} (p : Proc A) (handler : JsError -> Proc A) : Proc A :=
  match p with
  | Settled (Return a) => Settled (Return a)
  | Settled (Throw e) => handler e
  | Await m k => Await m (fun o => tryCatch (k o) handler)
  end.

Declare Scope js_scope.
Delimit Scope js_scope with js.
Notation "x <- m ;; k" := (bind m (fun x => k))
  (at level 61, m at next level, right associativity) : js_scope.
Local Open Scope js_scope.

(** One atomic action of a pending function. *)
Definition resume {A} (p : Proc A) (w : World) : Proc A * World :=
  match p with
  | Settled o => (Settled o, w)
  | Await m k => let (o, w') := m w in (k o, w')
  end.

(** The function run alone, to settlement. *)
Fixpoint run {A} (p : Proc A) (w : World) : Outcome A * World :=
  match p with
  | Settled o => (o, w)
  | Await m k => let (o, w') := m w in run (k o) w'
  end.

(** *** [Promise.allSettled] *)

Inductive PromiseSettledResult (A : Type) : Type :=
| fulfilled (value : A)
| rejected (reason : JsError).
Arguments fulfilled {A} value.
Arguments rejected {A} reason.

Definition settle {A} (o : Outcome A) : PromiseSettledResult A :=
  match o with
  | Return a => fulfilled a
  | Throw e => rejected e
  end.

Definition isFulfilled {A} (r : PromiseSettledResult A) : bool :=
  match r with fulfilled _ => true | rejected _ => false end.
Definition isRejected {A} (r : PromiseSettledResult A) : bool :=
  match r with fulfilled _ => false | rejected _ => true end.

(** The [i]-th pending function performs its next atomic action. *)
Fixpoint resumeAt {A} (i : nat) (tasks : list (Proc A)) (w : World)
  {struct tasks} : list (Proc A) * World :=
  match tasks with
  | [] => ([], w)
  | p :: rest =>
      match i with
      | O => let (p', w') := resume p w in (p' :: rest, w')
      | S i' => let (rest', w') := resumeAt i' rest w in (p :: rest', w')
      end
  end.

Fixpoint interleave {A} (sched : list nat) (tasks : list (Proc A))
  (w : World) : list (Proc A) * World :=
  match sched with
  | [] => (tasks, w)
  | i :: sched' =>
      let (tasks', w') := resumeAt i tasks w in interleave sched' tasks' w'
  end.

(** What is still pending after the schedule runs to settlement in turn. *)
Fixpoint drain {A} (tasks : list (Proc A)) (w : World)
  : list (Outcome A) * World :=
  match tasks with
  | [] => ([], w)
  | p :: rest =>
      let (o, w') := run p w in
      let (os, w'') := drain rest w' in
      (o :: os, w'')
  end.

(** All the functions are started; their atomic actions are interleaved as
    the world's schedule says; the results come in the order of the input. *)
Definition allSettled {A} (tasks : list (Proc A))
  : M (list (PromiseSettledResult A)) :=
  fun w =>
    let (tasks', w1) := interleave (schedule w) tasks w in
    let (os, w2) := drain tasks' w1 in
    (Return (map settle os), w2).

Definition Promise_allSettled {A} (tasks : list (Proc A))
  : Proc (list (PromiseSettledResult A)) :=
  await (allSettled tasks).

(** ** [src/lib/database/error-handler.ts] *)

(** [error instanceof Prisma.PrismaClientKnownRequestError] *)
Definition isPrismaError (error : JsError) : bool :=
  match error with
  | PrismaClientKnownRequestError _ _ => true
  | _ => false
  end.

(** [error.code], which the source reads under the type guard only. *)
Definition errorCode (error : JsError) : string :=
  match error with
  | PrismaClientKnownRequestError code _ => code
  | _ => ""
  end.

Definition handlePrismaError (error : JsError) (context : string)
  : JsError :=
  let code := errorCode error in
  if code =? "P2002" then Error (context ++ ": Duplicate entry found")
  else if code =? "P2025" then Error (context ++ ": Record not found")
  else if code =? "P2003" then
    Error (context ++ ": Foreign key constraint failed")
  else Error (context ++ ": Database error (" ++ code ++ ")").

Definition handleDatabaseError {A} (error : JsError) (operation : string)
  : Proc A :=
  if isPrismaError error then
    throw (handlePrismaError error ("Failed to " ++ operation))
  else
    let message := messageOr "Unknown database error" error in
    throw (Error ("Failed to " ++ operation ++ ": " ++ message)).

Definition wrapDatabaseOperation {A} (operation : Proc A)
  (operationName : string) : Proc A :=
  tryCatch operation (fun error => handleDatabaseError error operationName).

(** ** The article actions of [src/actions/user.ts]: the deduplication
       merger *)

Definition hasGuid (g : string) (a : RssArticle.t) : bool :=
  RssArticle.guid a =? g.

(** Update of the row a unique [where] selects. *)
Fixpoint updateUnique {A} (p : A -> bool) (f : A -> A) (rows : list A)
  : list A :=
  match rows with
  | [] => []
  | r :: rest => if p r then f r :: rest else r :: updateUnique p f rest
  end.

(** The [create] branch of the upsert. *)
Definition articleOfData (data : ArticleCreateData.t) : RssArticle.t :=
  RssArticle.mk
    (ArticleCreateData.feedId data)
    (ArticleCreateData.guid data)
    [ArticleCreateData.feedId data]
    (ArticleCreateData.title data)
    (ArticleCreateData.link data)
    (ArticleCreateData.content data)
    (ArticleCreateData.summary data)
    (ArticleCreateData.pubDate data)
    (ArticleCreateData.author data)
    (match ArticleCreateData.categories data with
     | Some cs => cs
     | None => []
     end)
    (ArticleCreateData.imageUrl data).

(** [prisma.rssArticle.upsert({ where: { guid }, update: { sourceFeedIds:
    { push: feedId } }, create: { ... } })] *)
Definition rssArticle_upsert (data : ArticleCreateData.t) : M RssArticle.t :=
  let g := ArticleCreateData.guid data in
  let fid := ArticleCreateData.feedId data in
  prismaCall (ArticleUpsert g fid) (fun w =>
    match find (hasGuid g) (rssArticle w) with
    | Some old =>
        (Return (RssArticle.push fid old),
         setArticles
           (updateUnique (hasGuid g) (RssArticle.push fid) (rssArticle w)) w)
    | None =>
        let row := articleOfData data in
        (Return row, setArticles (rssArticle w ++ [row]) w)
    end).

Definition createRssArticle (data : ArticleCreateData.t)
  : Proc RssArticle.t :=
  wrapDatabaseOperation (await (rssArticle_upsert data)) "create RSS article".

(** One turn of the [for ... of] loop of [bulkCreateRssArticles]. *)
Definition bulkTurn (article : ArticleCreateData.t)
  (results : BulkOperationResult.t) : Proc BulkOperationResult.t :=
  let '(BulkOperationResult.mk c s e) := results in
  tryCatch
    (_ <- createRssArticle article ;;
     ret (BulkOperationResult.mk (S c) s e))
    (fun error =>
       if isPrismaError error && (errorCode error =? "P2002")
       then ret (BulkOperationResult.mk c (S s) e)
       else ret (BulkOperationResult.mk c s (S e))).

Fixpoint bulkLoop (articles : list ArticleCreateData.t)
  (results : BulkOperationResult.t) : Proc BulkOperationResult.t :=
  match articles with
  | [] => ret results
  | article :: rest =>
      results' <- bulkTurn article results ;;
      bulkLoop rest results'
  end.

Definition bulkCreateRssArticles (articles : list ArticleCreateData.t)
  : Proc BulkOperationResult.t :=
  bulkLoop articles (BulkOperationResult.mk 0 0 0).

(** *** Windowed retrieval *)

Definition inList (s : string) (l : list string) : bool :=
  existsb (String.eqb s) l.

(** [OR: [{ feedId: { in: feedIds } }, { sourceFeedIds: { hasSome: feedIds
    } }]] *)
Definition matchesFeeds (feedIds : list string) (a : RssArticle.t) : bool :=
  inList (RssArticle.feedId a) feedIds
  || existsb (fun s => inList s feedIds) (RssArticle.sourceFeedIds a).

(** [pubDate: { gte: startDate, lte: endDate }] *)
Definition inWindow (startDate endDate : Z) (a : RssArticle.t) : bool :=
  ((startDate <=? RssArticle.pubDate a)
   && (RssArticle.pubDate a <=? endDate))%Z.

(** Modelled from the spec: ARTICLE_ORDER_BY_DATE_DESC is declared in
    [lib/database/prisma-helpers], which is not among the sources; the spec
    has the results ordered by publish date, descending.  Rows of equal date
    come out in the reverse of the order of the collection; no statement
    below depends on the order of rows of equal date. *)
Fixpoint insertByDateDesc (a : RssArticle.t) (sorted : list RssArticle.t)
  : list RssArticle.t :=
  match sorted with
  | [] => [a]
  | b :: rest =>
      if (RssArticle.pubDate b <? RssArticle.pubDate a)%Z
      then a :: b :: rest
      else b :: insertByDateDesc a rest
  end.

Definition ARTICLE_ORDER_BY_DATE_DESC (rows : list RssArticle.t)
  : list RssArticle.t :=
  fold_right insertByDateDesc [] rows.

Module FeedRef.
Record t : Type := mk {
  id : string;
  title : option string;
  url : string
}.
End FeedRef.

Definition hasId (fid : string) (f : RssFeed.t) : bool := RssFeed.id f =? fid.

(** Modelled from the spec: ARTICLE_WITH_FEED_INCLUDE is declared in
    [lib/database/prisma-helpers], which is not among the sources; the spec
    has every article handed on with the name of its source, and the sibling
    queries of [rss-article.ts] join the primary feed's id, title and url:
    so does this one. *)
Definition ARTICLE_WITH_FEED_INCLUDE (feeds : list RssFeed.t)
  (a : RssArticle.t) : option FeedRef.t :=
  match find (hasId (RssArticle.feedId a)) feeds with
  | Some f => Some (FeedRef.mk (RssFeed.id f) (RssFeed.title f) (RssFeed.url f))
  | None => None
  end.

Module ArticleWithFeed.
Record t : Type := mk {
  article : RssArticle.t;
  feed : option FeedRef.t
}.
End ArticleWithFeed.

Module ScoredArticle.
(** [{ ...article, sourceCount }] *)
Record t : Type := mk {
  article : RssArticle.t;
  feed : option FeedRef.t;
  sourceCount : nat
}.
End ScoredArticle.

(** [prisma.rssArticle.findMany({ where, include, orderBy, take })] *)
Definition rssArticle_findMany (feedIds : list string)
  (startDate endDate : Z) (take : nat) : M (list ArticleWithFeed.t) :=
  prismaCall ArticleFindMany (fun w =>
    let selected :=
      filter (fun a => matchesFeeds feedIds a && inWindow startDate endDate a)
             (rssArticle w) in
    let rows := firstn take (ARTICLE_ORDER_BY_DATE_DESC selected) in
    (Return
       (map (fun a =>
               ArticleWithFeed.mk a (ARTICLE_WITH_FEED_INCLUDE (rssFeed w) a))
            rows),
     w)).

Definition withSourceCount (a : ArticleWithFeed.t) : ScoredArticle.t :=
  ScoredArticle.mk (ArticleWithFeed.article a) (ArticleWithFeed.feed a)
    (List.length (RssArticle.sourceFeedIds (ArticleWithFeed.article a))).

(** [limit] is an optional parameter: [limit = 100]. *)
Definition getArticlesByFeedsAndDateRange (feedIds : list string)
  (startDate endDate : Z) (limit : option nat) : Proc (list ScoredArticle.t) :=
  let limit := match limit with Some n => n | None => 100%nat end in
  wrapDatabaseOperation
    (articles <- await (rssArticle_findMany feedIds startDate endDate limit) ;;
     ret (map withSourceCount articles))
    "fetch articles by feeds and date range".

(** ** [src/lib/rss-parser.ts]: the syndication parser *)

Module FeedMetadata.
Record t : Type := mk {
  title : string;
  description : option string;
  link : option string;
  imageUrl : option string;
  language : option string
}.
End FeedMetadata.

Module ArticleData.
Record t : Type := mk {
  guid : string;
  title : string;
  link : string;
  content : option string;
  summary : option string;
  pubDate : Z;
  author : option string;
  categories : list string;
  imageUrl : option string
}.
End ArticleData.

Definition parseFeedUrl (url : string) : Proc ParserOutput.t :=
  tryCatch (await (parser_parseURL url))
    (fun error =>
       throw (Error ("Failed to fetch or parse RSS feed: "
                     ++ messageOr "Unknown error" error))).

Definition extractFeedMetadata (feed : ParserOutput.t) : FeedMetadata.t :=
  FeedMetadata.mk
    (Js.orElse (ParserOutput.title feed) "Untitled Feed")
    (ParserOutput.description feed)
    (ParserOutput.link feed)
    (ParserOutput.imageUrl feed)
    (ParserOutput.language feed).

(** [item.guid || item.link || `${feedId}-${item.title}`] *)
Definition extractGuid (feedId : string) (item : Item.t) : string :=
  Js.orElse (Js.or (Item.guid item) (Item.link item))
            (feedId ++ "-" ++ Js.template (Item.title item)).

(** The body of the [map] callback of [extractArticles]; [now] is what
    [new Date()] reads. *)
Definition extractArticle (now : Z) (feedId : string) (item : Item.t)
  : ArticleData.t :=
  let guid := extractGuid feedId item in
  let pubDate :=
    match Item.isoDate item with
    | Some d => d
    | None => match Item.pubDate item with
              | Some d => d
              | None => now
              end
    end in
  let content :=
    Js.or (Js.or (Js.or (Item.content item) (Item.contentEncoded item))
                 (Item.description item))
          (Item.summary item) in
  let summary :=
    Js.or (Js.or (Item.contentSnippet item) (Item.description item))
          (Item.summary item) in
  let author := Js.or (Item.creator item) (Item.author item) in
  let categories :=
    match Item.categories item with
    | Some cs => cs
    | None => []
    end in
  let imageUrl :=
    match Item.enclosure item with
    | Some enc =>
        if Js.truthy (Enclosure.url enc)
           && match Enclosure.type enc with
              | Some t => String.prefix "image/" t
              | None => false
              end
        then Enclosure.url enc
        else None
    | None => None
    end in
  ArticleData.mk guid
    (Js.orElse (Item.title item) "Untitled")
    (Js.orElse (Item.link item) "")
    content summary pubDate author categories imageUrl.

Definition extractArticles (now : Z) (feed : ParserOutput.t)
  (feedId : string) : list ArticleData.t :=
  map (extractArticle now feedId) (ParserOutput.items feed).

Module ParsedFeed.
Record t : Type := mk {
  metadata : FeedMetadata.t;
  articles : list ArticleData.t;
  itemCount : nat
}.
End ParsedFeed.

Definition fetchAndParseFeed (url feedId : string) : Proc ParsedFeed.t :=
  tryCatch
    (feed <- parseFeedUrl url ;;
     now <- perform newDate ;;
     let metadata := extractFeedMetadata feed in
     let articles := extractArticles now feed feedId in
     ret (ParsedFeed.mk metadata articles
            (List.length (ParserOutput.items feed))))
    (fun error => throw error).

(** ** [src/actions/rss-feed.ts] *)

(** [prisma.rssFeed.update({ where: { id }, data: { lastFetched } })]; the
    engine rejects the update of a record that does not exist (P2025). *)
Definition rssFeed_update (feedId : string) (lastFetched : Z)
  : M RssFeed.t :=
  prismaCall (FeedUpdate feedId) (fun w =>
    match find (hasId feedId) (rssFeed w) with
    | Some f =>
        (Return (RssFeed.withLastFetched lastFetched f),
         setFeeds
           (updateUnique (hasId feedId) (RssFeed.withLastFetched lastFetched)
                         (rssFeed w)) w)
    | None =>
        (Throw (PrismaClientKnownRequestError "P2025"
                  "Record to update not found."), w)
    end).

Definition updateFeedLastFetched (feedId : string) : Proc RssFeed.t :=
  tryCatch
    (now <- perform newDate ;;
     await (rssFeed_update feedId now))
    (fun _ => throw (Error "Failed to update feed timestamp in database")).

(** ** [src/actions/rss-fetch.ts]: the refresh of one feed *)

(** [prisma.rssFeed.findUnique({ where: { id } })] *)
Definition rssFeed_findUnique (feedId : string) : M (option RssFeed.t) :=
  prismaCall (FeedFindUnique feedId) (fun w =>
    (Return (find (hasId feedId) (rssFeed w)), w)).

Module FetchResult.
Record t : Type := mk {
  metadata : FeedMetadata.t;
  created : nat;
  skipped : nat;
  errors : nat
}.
End FetchResult.

Definition toCreateData (feedId : string) (article : ArticleData.t)
  : ArticleCreateData.t :=
  ArticleCreateData.mk feedId
    (ArticleData.guid article)
    (ArticleData.title article)
    (ArticleData.link article)
    (ArticleData.content article)
    (ArticleData.summary article)
    (ArticleData.pubDate article)
    (ArticleData.author article)
    (Some (ArticleData.categories article))
    (ArticleData.imageUrl article).

Definition fetchAndStoreFeed (feedId : string) : Proc FetchResult.t :=
  tryCatch
    (found <- await (rssFeed_findUnique feedId) ;;
     match found with
     | None => throw (Error ("Feed with ID " ++ feedId ++ " not found"))
     | Some feed =>
         if negb (RssFeed.isActive feed)
         then throw (Error ("Feed " ++ feedId ++ " is not active"))
         else
           parsed <- fetchAndParseFeed (RssFeed.url feed) feedId ;;
           let articlesToCreate :=
             map (toCreateData (RssFeed.id feed))
                 (ParsedFeed.articles parsed) in
           result <- bulkCreateRssArticles articlesToCreate ;;
           _ <- updateFeedLastFetched feedId ;;
           ret (FetchResult.mk (ParsedFeed.metadata parsed)
                  (BulkOperationResult.created result)
                  (BulkOperationResult.skipped result)
                  (BulkOperationResult.errors result))
     end)
    (fun error =>
       throw (Error ("Failed to fetch feed: "
                     ++ messageOr "Unknown error" error))).

(** ** [src/lib/rss/feed-refresh.ts]: classifier and coordinator *)

Definition CACHE_WINDOW : Z := 3 * 60 * 60 * 1000.
Definition ARTICLE_LIMIT : nat := 100.

(** [prisma.rssFeed.findMany({ where: { id: { in: feedIds } } })] *)
Definition rssFeed_findMany (feedIds : list string) : M (list RssFeed.t) :=
  prismaCall FeedFindMany (fun w =>
    (Return (filter (fun f => inList (RssFeed.id f) feedIds) (rssFeed w)), w)).

(** [lastFetched] descending: a record that was never fetched comes after
    every record that was (a missing value is the least one of the store's
    order); of two records of equal rank the earlier one stays first. *)
Definition fetchedAfter (a b : option Z) : bool :=
  match a, b with
  | Some x, Some y => (y <? x)%Z
  | Some _, None => true
  | None, _ => false
  end.

Fixpoint firstByLastFetchedDesc (feeds : list RssFeed.t)
  : option RssFeed.t :=
  match feeds with
  | [] => None
  | f :: rest =>
      match firstByLastFetchedDesc rest with
      | Some g =>
          if fetchedAfter (RssFeed.lastFetched g) (RssFeed.lastFetched f)
          then Some g else Some f
      | None => Some f
      end
  end.

(** [prisma.rssFeed.findFirst({ where: { url }, select: { lastFetched:
    true }, orderBy: { lastFetched: "desc" } })] *)
Definition rssFeed_findFirst (url : string) : M (option (option Z)) :=
  prismaCall (FeedFindFirst url) (fun w =>
    (Return
       (option_map RssFeed.lastFetched
          (firstByLastFetchedDesc
             (filter (fun f => RssFeed.url f =? url) (rssFeed w)))),
     w)).

(** The [for ... of] loop of [getFeedsToRefresh]; [cacheWindow] is the
    constant [CACHE_WINDOW] of the source. *)
Fixpoint refreshLoop (cacheWindow now : Z) (feeds : list RssFeed.t)
  (feedsToRefresh : list string) : Proc (list string) :=
  match feeds with
  | [] => ret feedsToRefresh
  | feed :: rest =>
      mostRecentFetch <- await (rssFeed_findFirst (RssFeed.url feed)) ;;
      match mostRecentFetch with
      | Some (Some lastFetched) =>
          let timeSinceLastFetch := (now - lastFetched)%Z in
          if (timeSinceLastFetch >? cacheWindow)%Z
          then refreshLoop cacheWindow now rest
                 (feedsToRefresh ++ [RssFeed.id feed])
          else refreshLoop cacheWindow now rest feedsToRefresh
      | _ =>
          refreshLoop cacheWindow now rest
            (feedsToRefresh ++ [RssFeed.id feed])
      end
  end.

Definition getFeedsToRefreshWithin (cacheWindow : Z) (feedIds : list string)
  : Proc (list string) :=
  now <- perform newDate ;;
  feeds <- await (rssFeed_findMany feedIds) ;;
  refreshLoop cacheWindow now feeds [].

Definition getFeedsToRefresh (feedIds : list string) : Proc (list string) :=
  getFeedsToRefreshWithin CACHE_WINDOW feedIds.

Module PrepareFeedsParams.
Record t : Type := mk {
  feedIds : list string;
  startDate : Z;
  endDate : Z
}.
End PrepareFeedsParams.

Definition noArticlesError : JsError :=
  Error "No articles found for the selected feeds and date range".

(** The first half of [prepareFeedsAndArticles]: the refresh of the stale
    feeds and its summary on the console. *)
Definition refreshStale (total : nat) (feedsToRefresh : list string)
  : Proc unit :=
  if (0 <? List.length feedsToRefresh)%nat then
    _ <- perform (consoleLog
           ("Refreshing " ++ Js.ofNat (List.length feedsToRefresh)
            ++ " stale feeds (out of " ++ Js.ofNat total ++ " total)...")) ;;
    refreshResults <-
      Promise_allSettled (map fetchAndStoreFeed feedsToRefresh) ;;
    let successful := List.length (filter isFulfilled refreshResults) in
    let failed := List.length (filter isRejected refreshResults) in
    perform (consoleLog
      ("Feed refresh complete: " ++ Js.ofNat successful ++ " successful, "
       ++ Js.ofNat failed ++ " failed"))
  else
    perform (consoleLog
      ("All " ++ Js.ofNat total
       ++ " feeds are fresh (< 3 hours old), skipping refresh")).

(** The second half: the retrieval and the check of its result. *)
Definition retrieveOrFail (params : PrepareFeedsParams.t)
  : Proc (list ScoredArticle.t) :=
  articles <- getArticlesByFeedsAndDateRange
                (PrepareFeedsParams.feedIds params)
                (PrepareFeedsParams.startDate params)
                (PrepareFeedsParams.endDate params)
                (Some ARTICLE_LIMIT) ;;
  if (List.length articles =? 0)%nat
  then throw noArticlesError
  else ret articles.

Definition prepareFeedsAndArticles (params : PrepareFeedsParams.t)
  : Proc (list ScoredArticle.t) :=
  feedsToRefresh <- getFeedsToRefresh (PrepareFeedsParams.feedIds params) ;;
  _ <- refreshStale (List.length (PrepareFeedsParams.feedIds params))
         feedsToRefresh ;;
  retrieveOrFail params.

(** ** More of [src/lib/rss-parser.ts] *)

Definition validateFeedUrl (url : string) : Proc bool :=
  tryCatch
    (_ <- await (parser_parseURL url) ;;
     ret true)
    (fun _ => ret false).

(** ** More of [src/actions/rss-feed.ts] *)

Definition withIsActive (isActive : bool) (f : RssFeed.t) : RssFeed.t :=
  RssFeed.mk (RssFeed.id f) (RssFeed.url f) (RssFeed.title f)
    (RssFeed.lastFetched f) isActive.

(** [prisma.rssFeed.update({ where: { id }, data: { isActive } })] *)
Definition rssFeed_updateActive (feedId : string) (isActive : bool)
  : M RssFeed.t :=
  prismaCall (FeedUpdate feedId) (fun w =>
    match find (hasId feedId) (rssFeed w) with
    | Some f =>
        (Return (withIsActive isActive f),
         setFeeds
           (updateUnique (hasId feedId) (withIsActive isActive) (rssFeed w))
           w)
    | None =>
        (Throw (PrismaClientKnownRequestError "P2025"
                  "Record to update not found."), w)
    end).

Definition toggleFeedActive (feedId : string) : Proc RssFeed.t :=
  tryCatch
    (found <- await (rssFeed_findUnique feedId) ;;
     match found with
     | None =>
         throw (Error ("RSS feed with ID " ++ feedId ++ " not found"))
     | Some feed =>
         await (rssFeed_updateActive feedId (negb (RssFeed.isActive feed)))
     end)
    (fun _ => throw (Error "Failed to toggle feed status in database")).

(** * Auxiliary notions of the statements *)

(** The collection after an upsert of [data] that the engine carried out,
    and the row the upsert returns. *)
Definition upserted (data : ArticleCreateData.t)
  (rows : list RssArticle.t) : list RssArticle.t :=
  match find (hasGuid (ArticleCreateData.guid data)) rows with
  | Some _ =>
      updateUnique (hasGuid (ArticleCreateData.guid data))
        (RssArticle.push (ArticleCreateData.feedId data)) rows
  | None => rows ++ [articleOfData data]
  end.

Definition upsertedRow (data : ArticleCreateData.t)
  (rows : list RssArticle.t) : RssArticle.t :=
  match find (hasGuid (ArticleCreateData.guid data)) rows with
  | Some old => RssArticle.push (ArticleCreateData.feedId data) old
  | None => articleOfData data
  end.

(** Two rows that differ at most in their source-feed set. *)
Definition sameContent (a b : RssArticle.t) : Prop :=
  RssArticle.guid b = RssArticle.guid a
  /\ RssArticle.feedId b = RssArticle.feedId a
  /\ RssArticle.title b = RssArticle.title a
  /\ RssArticle.link b = RssArticle.link a
  /\ RssArticle.content b = RssArticle.content a
  /\ RssArticle.summary b = RssArticle.summary a
  /\ RssArticle.pubDate b = RssArticle.pubDate a
  /\ RssArticle.author b = RssArticle.author a
  /\ RssArticle.categories b = RssArticle.categories a
  /\ RssArticle.imageUrl b = RssArticle.imageUrl a.

(** The importance score the retrieval attaches to a row. *)
Definition sourceCountOf (a : RssArticle.t) : nat :=
  ScoredArticle.sourceCount
    (withSourceCount (ArticleWithFeed.mk a None)).

(** The database call an article of a batch gives rise to. *)
Definition upsertCall (a : ArticleCreateData.t) : DbCall :=
  ArticleUpsert (ArticleCreateData.guid a) (ArticleCreateData.feedId a).

(** The collection after the upserts of a batch, carried out one after the
    other in the order of the batch. *)
Definition upsertedAll (articles : list ArticleCreateData.t)
  (rows : list RssArticle.t) : list RssArticle.t :=
  fold_left (fun rows a => upserted a rows) articles rows.

(** [a] comes before [b] in an order by publish date, descending. *)
Definition notOlder (a b : RssArticle.t) : Prop :=
  (RssArticle.pubDate b <= RssArticle.pubDate a)%Z.

(** The cap of a retrieval. *)
Definition capOf (limit : option nat) : nat :=
  match limit with Some n => n | None => 100%nat end.

(** The rows a retrieval is about: primary feed requested, or source set
    meeting the request. *)
Definition requested (feedIds : list string) (a : RssArticle.t) : Prop :=
  In (RssArticle.feedId a) feedIds
  \/ exists s, In s (RssArticle.sourceFeedIds a) /\ In s feedIds.

(** Two worlds that differ at most in the recorded database calls. *)
Definition sameData (w w' : World) : Prop :=
  rssFeed w' = rssFeed w /\ rssArticle w' = rssArticle w
  /\ dbFaults w' = dbFaults w /\ network w' = network w
  /\ clock w' = clock w /\ console w' = console w
  /\ schedule w' = schedule w.

(** What [findFirst] answers for a URL on a given collection. *)
Definition mostRecentFetchOf (feeds : list RssFeed.t) (url : string)
  : option (option Z) :=
  option_map RssFeed.lastFetched
    (firstByLastFetchedDesc (filter (fun f => RssFeed.url f =? url) feeds)).

(** The test of the loop of [getFeedsToRefresh] on one feed record. *)
Definition isStale (cacheWindow now : Z) (feeds : list RssFeed.t)
  (feed : RssFeed.t) : bool :=
  match mostRecentFetchOf feeds (RssFeed.url feed) with
  | Some (Some lastFetched) => (now - lastFetched >? cacheWindow)%Z
  | _ => true
  end.

(** No feed record of that URL has a [lastFetched]. *)
Definition neverFetched (feeds : list RssFeed.t) (url : string) : Prop :=
  forall g, In g feeds -> RssFeed.url g = url -> RssFeed.lastFetched g = None.

(** [t] is the most recent [lastFetched] among the feed records of that
    URL. *)
Definition mostRecentIs (feeds : list RssFeed.t) (url : string) (t : Z)
  : Prop :=
  (exists g, In g feeds /\ RssFeed.url g = url
             /\ RssFeed.lastFetched g = Some t)
  /\ forall g t', In g feeds -> RssFeed.url g = url ->
                  RssFeed.lastFetched g = Some t' -> (t' <= t)%Z.

(** Staleness of a URL as the specification words it. *)
Definition staleUrl (cacheWindow now : Z) (feeds : list RssFeed.t)
  (url : string) : Prop :=
  neverFetched feeds url
  \/ exists t, mostRecentIs feeds url t /\ (now - t > cacheWindow)%Z.

(** The answer of the classifier on a given collection. *)
Definition staleIds (cacheWindow now : Z) (feeds : list RssFeed.t)
  (feedIds : list string) : list string :=
  map RssFeed.id
    (filter (isStale cacheWindow now feeds)
       (filter (fun f => inList (RssFeed.id f) feedIds) feeds)).

Definition hours (n : Z) : Z := (n * 60 * 60 * 1000)%Z.
Definition minutes (n : Z) : Z := (n * 60 * 1000)%Z.

Definition isReturn {A} (o : Outcome A) : bool :=
  match o with Return _ => true | Throw _ => false end.

(** [Safe Inv Q p]: whatever else happens between the atomic actions of
    [p], as long as every action starts in a world of [Inv], every action
    of [p] ends in a world of [Inv] and [p] settles with an outcome of
    [Q]. *)
Fixpoint Safe {A} (Inv : World -> Prop) (Q : Outcome A -> Prop)
  (p : Proc A) : Prop :=
  match p with
  | Settled o => Q o
  | Await m k =>
      forall w, Inv w -> Inv (snd (m w)) /\ Safe Inv Q (k (fst (m w)))
  end.

(** What a refresh never changes in a feed record. *)
Definition staticPart (f : RssFeed.t) : string * string * bool :=
  (RssFeed.id f, RssFeed.url f, RssFeed.isActive f).

(** The worlds a batch of refreshes started in [w0] can reach when the
    database does not fail. *)
Definition Stable (w0 w : World) : Prop :=
  map staticPart (rssFeed w) = map staticPart (rssFeed w0)
  /\ network w = network w0
  /\ dbFaults w = [].

(** The feed record exists, is active, and its document can be fetched. *)
Definition refreshes (w : World) (feedId : string) : bool :=
  match find (hasId feedId) (rssFeed w) with
  | Some f => RssFeed.isActive f && isReturn (network w (RssFeed.url f))
  | None => false
  end.

(** ** Concrete inputs *)

Module Sample.

(** A feed that answers, with two items: one with a native id and a link,
    one with neither. *)
Definition itemWithGuid : Item.t :=
  Item.mk (Some "urn:post:1") None (Some "https://a.example/1")
    (Some "First")
    (Some 7000%Z) None (Some "<p>body</p>") None None None (Some "body")
    (Some "ann") None (Some ["news"]) None.

Definition itemBare : Item.t :=
  Item.mk None None None (Some "Second") None None None None None None
    None None None None None.

Definition document : ParserOutput.t :=
  ParserOutput.mk (Some "Feed A") None None None None
    [itemWithGuid; itemBare].

Definition net (url : string) : Outcome ParserOutput.t :=
  if url =? "https://a.example/rss" then Return document
  else Throw (Error "getaddrinfo ENOTFOUND").

(** Feed [A] is active and answers; feed [B] is inactive. *)
Definition feedA : RssFeed.t :=
  RssFeed.mk "A" "https://a.example/rss" (Some "Feed A") None true.
Definition feedB : RssFeed.t :=
  RssFeed.mk "B" "https://b.example/rss" None None false.

Definition world : World :=
  mkWorld [feedA; feedB] [] [] [] net 10000000%Z [] [1; 0; 0; 1; 0]%nat.

Definition article (feedId guid : string) (pubDate : Z)
  : ArticleCreateData.t :=
  ArticleCreateData.mk feedId guid "Title" "https://x.example/p" None None
    pubDate None None None.

(** The collection after a first sighting of guid [g] by feed [A]. *)
Definition sighted : World :=
  setArticles [articleOfData (article "A" "g" 5000%Z)] world.

(** A collection of three articles, the second one sighted twice. *)
Definition stocked : World :=
  setArticles
    [articleOfData (article "A" "g1" 5000%Z);
     RssArticle.push "A" (articleOfData (article "B" "g2" 9000%Z));
     articleOfData (article "A" "g3" 20000%Z)]
    world.

(** Two feed records of one URL, the first fetched one hour before the
    clock of the world, the second never. *)
Definition F1 : RssFeed.t :=
  RssFeed.mk "F1" "https://u.example/rss" None (Some 6400000%Z) true.
Definition F2 : RssFeed.t :=
  RssFeed.mk "F2" "https://u.example/rss" None None true.
Definition shared : World := setFeeds [F1; F2] world.

(** The duplicate-key error of the engine. *)
Definition duplicateKey : JsError :=
  PrismaClientKnownRequestError "P2002"
    "Unique constraint failed on the fields: (guid)".

End Sample.

(** The first truthy candidate of a priority list, else the fallback. *)
Definition firstTruthyOr (candidates : list (option string))
  (fallback : option string) : option string :=
  match find Js.truthy candidates with
  | Some c => c
  | None => fallback
  end.

(** Two worlds with the same network, clock, console and schedule. *)
Definition sameEnv (w w' : World) : Prop :=
  network w' = network w /\ clock w' = clock w
  /\ console w' = console w /\ schedule w' = schedule w.

(** The batch [fetchAndStoreFeed] hands to the bulk upsert for a document. *)
Definition batchOf (now : Z) (feed : RssFeed.t) (feedId : string)
  (doc : ParserOutput.t) : list ArticleCreateData.t :=
  map (toCreateData (RssFeed.id feed)) (extractArticles now doc feedId).

(** ** More concrete inputs *)

Module Inputs.

(** Two subscribers [G1] and [G2] of one URL that answers, never fetched. *)
Definition G1 : RssFeed.t :=
  RssFeed.mk "G1" "https://u.example/rss" None None true.
Definition G2 : RssFeed.t :=
  RssFeed.mk "G2" "https://u.example/rss" None None true.

Definition online : World :=
  mkWorld [G1; G2] [] [] [] (fun _ => Return Sample.document) 10000000%Z
          [] [].

(** Two entries of an Atom feed, as the parser hands them on: the
    identifier of an entry is its [id], and it has no [guid].  The second
    entry has no link. *)
Definition atomEntry : Item.t :=
  Item.mk None (Some "urn:entry:1") (Some "https://a.example/e1")
    (Some "Entry one") (Some 7000%Z) None None None None (Some "text")
    None None None None None.

Definition atomEntryNoLink : Item.t :=
  Item.mk None (Some "urn:entry:2") None (Some "Entry two") (Some 7000%Z)
    None None None None (Some "text") None None None None None.

End Inputs.

(** The number of source entries of a collection, of the row of a guid,
    and the number of records of a batch that carry a guid. *)
Definition totalSources (rows : list RssArticle.t) : nat :=
  list_sum (map (fun a => List.length (RssArticle.sourceFeedIds a)) rows).

Definition sightings (g : string) (rows : list RssArticle.t) : nat :=
  match find (hasGuid g) rows with
  | Some a => List.length (RssArticle.sourceFeedIds a)
  | None => 0%nat
  end.

Definition sightedIn (g : string) (batch : list ArticleCreateData.t)
  : nat :=
  List.length (filter (fun d => ArticleCreateData.guid d =? g) batch).

(** Two worlds with the same collections, network, clock, console and
    schedule: at most database calls and pending faults tell them apart. *)
Definition sameStore (w w' : World) : Prop :=
  rssFeed w' = rssFeed w /\ rssArticle w' = rssArticle w /\ sameEnv w w'.

(** The queries of a classification: one for the requested records, one
    per record found. *)
Definition classifierCalls (feeds : list RssFeed.t) (feedIds : list string)
  : list DbCall :=
  FeedFindMany
  :: map (fun f => FeedFindFirst (RssFeed.url f))
         (filter (fun f => inList (RssFeed.id f) feedIds) feeds).

(** The primary feed of a row is the first entry of its source set. *)
Definition primaryFirst (a : RssArticle.t) : Prop :=
  hd_error (RssArticle.sourceFeedIds a) = Some (RssArticle.feedId a).

(** [new] is [old] with, at most, entries appended to its source set. *)
Definition extends (old new : RssArticle.t) : Prop :=
  sameContent old new
  /\ exists extra,
       RssArticle.sourceFeedIds new = RssArticle.sourceFeedIds old ++ extra.

(** Every row of [rows0] is still in [rows], extended at most. *)
Definition keeps (rows0 rows : list RssArticle.t) : Prop :=
  forall old, In old rows0 -> exists new, In new rows /\ extends old new.

(** What the classifier reads of a feed record. *)
Definition timingPart (f : RssFeed.t) : string * string * option Z :=
  (RssFeed.id f, RssFeed.url f, RssFeed.lastFetched f).


(** The calls that write: the upsert of an article, the update of a feed. *)
Definition isWrite (c : DbCall) : bool :=
  match c with
  | ArticleUpsert _ _ | FeedUpdate _ => true
  | _ => false
  end.


(** ** What a refresh among others achieves *)








(** The class of a thrown value, which is what [instanceof] can tell.  The
    code tests for [Prisma.PrismaClientKnownRequestError] and for [Error];
    it declares no error class of its own. *)
Inductive ErrorClass : Type :=
| KnownRequestErrorClass
| PlainErrorClass
| NoErrorClass.

Definition classOf (e : JsError) : ErrorClass :=
  match e with
  | PrismaClientKnownRequestError _ _ => KnownRequestErrorClass
  | Error _ => PlainErrorClass
  | Thrown _ => NoErrorClass
  end.

(** The identifier that the document gives an item: the guid of an RSS
    item, the id of an Atom entry. *)
Definition nativeId (item : Item.t) : option string :=
  Js.or (Item.guid item) (Item.id item).


(** * Properties *)

(** ** Running resumptions *)

Lemma run_bind {A B} (p : Proc A) (f : A -> Proc B) (w : World) :
  run (bind p f) w =
  match run p w with
  | (Return a, w') => run (f a) w'
  | (Throw e, w') => (Throw e, w')
  end.
Proof.
  revert w; induction p as [[a | e] | X m k IH]; intro w; simpl; trivial.
  destruct (m w) as [o w']; apply IH.
Qed.

Lemma run_tryCatch {A} (p : Proc A) (h : JsError -> Proc A) (w : World) :
  run (tryCatch p h) w =
  match run p w with
  | (Return a, w') => (Return a, w')
  | (Throw e, w') => run (h e) w'
  end.
Proof.
  revert w; induction p as [[a | e] | X m k IH]; intro w; simpl; trivial.
  destruct (m w) as [o w']; apply IH.
Qed.

Lemma run_await {A} (m : M A) (w : World) : run (await m) w = m w.
Proof. unfold await; simpl; destruct (m w); reflexivity. Qed.

(** A database operation wrapped by [wrapDatabaseOperation] never lets a
    Prisma error through: what it throws is a plain [Error]. *)
Lemma handleDatabaseError_plain {A} (e : JsError) (op : string) (w : World) :
  exists msg, run (@handleDatabaseError A e op) w = (Throw (Error msg), w).
Proof.
  unfold handleDatabaseError, handlePrismaError.
  destruct e as [code m | m | v]; simpl;
    repeat match goal with |- context [if ?c then _ else _] => destruct c end;
    eexists; reflexivity.
Qed.

(** ** The upsert on the collection *)

Section Upsert.

Variable data : ArticleCreateData.t.
Let g := ArticleCreateData.guid data.
Let fid := ArticleCreateData.feedId data.

Lemma hasGuid_true (a : RssArticle.t) (k : string) :
  hasGuid k a = true <-> RssArticle.guid a = k.
Proof. unfold hasGuid; apply String.eqb_eq. Qed.

Lemma find_hasGuid_None (k : string) (rows : list RssArticle.t) :
  find (hasGuid k) rows = None <-> ~ In k (map RssArticle.guid rows).
Proof.
  induction rows as [| r rows IH]; simpl.
  - tauto.
  - destruct (hasGuid k r) eqn:E.
    + apply hasGuid_true in E. split; [discriminate | intro H; tauto].
    + assert (RssArticle.guid r <> k)
        by (intro H; apply hasGuid_true in H; congruence).
      rewrite IH; tauto.
Qed.

Lemma find_hasGuid_Some (k : string) (rows : list RssArticle.t)
  (a : RssArticle.t) :
  find (hasGuid k) rows = Some a -> In a rows /\ RssArticle.guid a = k.
Proof.
  intro H; apply find_some in H; destruct H as [H1 H2].
  split; [assumption | now apply hasGuid_true].
Qed.

Lemma map_guid_updateUnique (k f : string) (rows : list RssArticle.t) :
  map RssArticle.guid (updateUnique (hasGuid k) (RssArticle.push f) rows)
  = map RssArticle.guid rows.
Proof.
  induction rows as [| r rows IH]; simpl; trivial.
  destruct (hasGuid k r); simpl; [reflexivity | now rewrite IH].
Qed.

Lemma find_updateUnique_same (k f : string) (rows : list RssArticle.t)
  (old : RssArticle.t) :
  find (hasGuid k) rows = Some old ->
  find (hasGuid k) (updateUnique (hasGuid k) (RssArticle.push f) rows)
  = Some (RssArticle.push f old).
Proof.
  induction rows as [| r rows IH]; simpl; [discriminate |].
  destruct (hasGuid k r) eqn:E; simpl.
  - intro H; injection H as <-.
    assert (hasGuid k (RssArticle.push f r) = true) as -> by exact E.
    reflexivity.
  - rewrite E; exact IH.
Qed.

Lemma find_updateUnique_other (k k' f : string) (rows : list RssArticle.t) :
  k' <> k ->
  find (hasGuid k') (updateUnique (hasGuid k) (RssArticle.push f) rows)
  = find (hasGuid k') rows.
Proof.
  intro N; induction rows as [| r rows IH]; simpl; trivial.
  destruct (hasGuid k r) eqn:E; simpl.
  - assert (hasGuid k' (RssArticle.push f r) = hasGuid k' r) as ->
      by reflexivity.
    apply hasGuid_true in E.
    destruct (hasGuid k' r) eqn:E'; trivial.
    apply hasGuid_true in E'; congruence.
  - destruct (hasGuid k' r); [reflexivity | exact IH].
Qed.

Lemma find_app_new (k : string) (rows : list RssArticle.t)
  (row : RssArticle.t) :
  find (hasGuid k) (rows ++ [row]) =
  match find (hasGuid k) rows with
  | Some a => Some a
  | None => if hasGuid k row then Some row else None
  end.
Proof.
  induction rows as [| r rows IH]; simpl; trivial.
  destruct (hasGuid k r); [reflexivity | exact IH].
Qed.

Lemma filter_hasGuid_unique (k : string) (rows : list RssArticle.t) :
  NoDup (map RssArticle.guid rows) ->
  In k (map RssArticle.guid rows) ->
  List.length (filter (hasGuid k) rows) = 1%nat.
Proof.
  induction rows as [| r rows IH]; simpl; [tauto |].
  intros ND HI; inversion ND as [| x l NI ND' E]; subst.
  destruct (hasGuid k r) eqn:E.
  - apply hasGuid_true in E; subst k; simpl.
    apply find_hasGuid_None in NI.
    assert (filter (hasGuid (RssArticle.guid r)) rows = []) as ->; trivial.
    clear -NI. induction rows as [| r' rows IH]; simpl in *; trivial.
    destruct (hasGuid (RssArticle.guid r) r'); [discriminate | auto].
  - destruct HI as [HI | HI]; [| auto].
    apply hasGuid_true in HI; congruence.
Qed.

Lemma createRssArticle_Return (w w' : World) (row : RssArticle.t) :
  run (createRssArticle data) w = (Return row, w') ->
  row = upsertedRow data (rssArticle w)
  /\ rssArticle w' = upserted data (rssArticle w)
  /\ rssFeed w' = rssFeed w
  /\ dbFaults w' = tl (dbFaults w)
  /\ dbTrace w' = dbTrace w ++ [ArticleUpsert g fid].
Proof.
  unfold createRssArticle, wrapDatabaseOperation.
  rewrite run_tryCatch, run_await.
  unfold rssArticle_upsert, prismaCall, upsertedRow, upserted.
  fold g; fold fid.
  destruct (dbFaults w) as [| [e |] rest] eqn:EF; simpl.
  - destruct (find (hasGuid g) (rssArticle w)); intro H; injection H as <- <-;
      simpl; auto.
  - intro H. destruct (handleDatabaseError_plain (A:=RssArticle.t) e
      "create RSS article" (record (ArticleUpsert g fid) (setFaults rest w)))
      as [msg Hm].
    rewrite Hm in H; discriminate.
  - destruct (find (hasGuid g) (rssArticle w)); intro H; injection H as <- <-;
      simpl; auto.
Qed.

Lemma createRssArticle_noFault (w : World) :
  hd None (dbFaults w) = None ->
  exists w',
    run (createRssArticle data) w
    = (Return (upsertedRow data (rssArticle w)), w')
    /\ rssArticle w' = upserted data (rssArticle w)
    /\ dbFaults w' = tl (dbFaults w).
Proof.
  intro NF.
  unfold createRssArticle, wrapDatabaseOperation.
  rewrite run_tryCatch, run_await.
  unfold rssArticle_upsert, prismaCall, upsertedRow, upserted.
  fold g; fold fid.
  destruct (dbFaults w) as [| [e |] rest] eqn:EF; simpl in *;
    try discriminate;
    destruct (find (hasGuid g) (rssArticle w)); eexists; simpl; eauto.
Qed.

Lemma upserted_NoDup (rows : list RssArticle.t) :
  NoDup (map RssArticle.guid rows) ->
  NoDup (map RssArticle.guid (upserted data rows)).
Proof.
  unfold upserted; fold g; fold fid; intro ND.
  destruct (find (hasGuid g) rows) eqn:E.
  - now rewrite map_guid_updateUnique.
  - rewrite map_app; simpl.
    apply find_hasGuid_None in E.
    apply NoDup_app; repeat split; trivial.
    + constructor; [simpl; tauto | constructor].
    + intros x Hx [<- | []]. exact (E Hx).
Qed.

Lemma upserted_find_same (rows : list RssArticle.t) :
  find (hasGuid g) (upserted data rows) = Some (upsertedRow data rows).
Proof.
  unfold upserted, upsertedRow; fold g; fold fid.
  destruct (find (hasGuid g) rows) eqn:E.
  - now apply find_updateUnique_same.
  - rewrite find_app_new, E.
    assert (hasGuid g (articleOfData data) = true) as ->; trivial.
    apply hasGuid_true; reflexivity.
Qed.

Lemma upserted_find_other (k : string) (rows : list RssArticle.t) :
  k <> g -> find (hasGuid k) (upserted data rows) = find (hasGuid k) rows.
Proof.
  intro N; unfold upserted; fold g; fold fid.
  destruct (find (hasGuid g) rows) eqn:E.
  - now apply find_updateUnique_other.
  - rewrite find_app_new.
    destruct (find (hasGuid k) rows); trivial.
    destruct (hasGuid k (articleOfData data)) eqn:E'; trivial.
    apply hasGuid_true in E'; simpl in E'. fold g in E'; congruence.
Qed.

Lemma createRssArticle_Throw (w w' : World) (e : JsError) :
  run (createRssArticle data) w = (Throw e, w') ->
  rssArticle w' = rssArticle w
  /\ rssFeed w' = rssFeed w
  /\ dbFaults w' = tl (dbFaults w)
  /\ dbTrace w' = dbTrace w ++ [ArticleUpsert g fid]
  /\ exists msg, e = Error msg.
Proof.
  unfold createRssArticle, wrapDatabaseOperation.
  rewrite run_tryCatch, run_await.
  unfold rssArticle_upsert, prismaCall.
  fold g; fold fid.
  destruct (dbFaults w) as [| [e0 |] rest] eqn:EF; simpl.
  - destruct (find (hasGuid g) (rssArticle w)); discriminate.
  - destruct (handleDatabaseError_plain (A:=RssArticle.t) e0
      "create RSS article" (record (ArticleUpsert g fid) (setFaults rest w)))
      as [msg Hm].
    rewrite Hm; intro H; injection H as <- <-; simpl; eauto 6.
  - destruct (find (hasGuid g) (rssArticle w)); discriminate.
Qed.

End Upsert.

Lemma length_updateUnique {A} (p : A -> bool) (f : A -> A) (rows : list A) :
  List.length (updateUnique p f rows) = List.length rows.
Proof.
  induction rows as [| r rows IH]; simpl; trivial.
  destruct (p r); simpl; congruence.
Qed.

Lemma find_updateUnique_In {A} (p : A -> bool) (g : A -> A) (l : list A)
  (a : A) :
  find p l = Some a -> In (g a) (updateUnique p g l).
Proof.
  induction l as [| x l IH]; simpl; [discriminate |].
  destruct (p x); [intro H; injection H as ->; now left |].
  intro H; right; auto.
Qed.

Lemma In_updateUnique {A} (p : A -> bool) (g : A -> A) (l : list A) (a : A) :
  In a l -> In a (updateUnique p g l) \/ In (g a) (updateUnique p g l).
Proof.
  induction l as [| x l IH]; simpl; [tauto |].
  intros [-> | H]; destruct (p a) eqn:E; simpl.
  - right; now left.
  - left; now left.
  - destruct (p x); simpl; [left; now right |].
    destruct (IH H); [left | right]; now right.
  - destruct (p x); simpl; [left; now right |].
    destruct (IH H); [left | right]; now right.
Qed.

Lemma find_updateUnique_hit {A} (p : A -> bool) (g : A -> A) (l : list A)
  (a : A) :
  find p l = Some a -> p (g a) = true ->
  find p (updateUnique p g l) = Some (g a).
Proof.
  induction l as [| x l IH]; simpl; [discriminate |].
  destruct (p x) eqn:E; intros H H1.
  - injection H as ->. simpl. now rewrite H1.
  - simpl. rewrite E. auto.
Qed.

Lemma find_updateUnique_miss {A} (p q : A -> bool) (g : A -> A)
  (l : list A) :
  (forall a, p a = true -> q a = false) ->
  (forall a, q (g a) = q a) ->
  find q (updateUnique p g l) = find q l.
Proof.
  intros Hpq Hg. induction l as [| x l IH]; simpl; trivial.
  destruct (p x) eqn:E; simpl.
  - rewrite Hg, (Hpq x E). reflexivity.
  - now rewrite IH.
Qed.

Lemma createRssArticle_spec (data : ArticleCreateData.t) (w w' : World)
  (row : RssArticle.t) :
  NoDup (map RssArticle.guid (rssArticle w)) ->
  run (createRssArticle data) w = (Return row, w') ->
  NoDup (map RssArticle.guid (rssArticle w'))
  /\ List.length
       (filter (hasGuid (ArticleCreateData.guid data)) (rssArticle w'))
     = 1%nat
  /\ find (hasGuid (ArticleCreateData.guid data)) (rssArticle w') = Some row
  /\ match find (hasGuid (ArticleCreateData.guid data)) (rssArticle w) with
     | None =>
         RssArticle.sourceFeedIds row = [ArticleCreateData.feedId data]
         /\ List.length (rssArticle w') = S (List.length (rssArticle w))
     | Some old =>
         RssArticle.sourceFeedIds row
         = RssArticle.sourceFeedIds old ++ [ArticleCreateData.feedId data]
         /\ List.length (rssArticle w') = List.length (rssArticle w)
     end.
Proof.
  intros ND Hrun.
  apply createRssArticle_Return in Hrun as (-> & Hrows & _).
  rewrite Hrows.
  assert (Hfind := upserted_find_same data (rssArticle w)).
  assert (ND' := upserted_NoDup data _ ND).
  split; [exact ND' |].
  split.
  { apply filter_hasGuid_unique; [exact ND' |].
    destruct (find_hasGuid_Some _ _ _ Hfind) as [Hin <-].
    now apply in_map. }
  split; [exact Hfind |].
  unfold upsertedRow, upserted.
  destruct (find (hasGuid (ArticleCreateData.guid data)) (rssArticle w));
    simpl; split; trivial.
  - apply length_updateUnique.
  - rewrite length_app; simpl; lia.
Qed.

(** ** The deduplication merger: one row per guid *)

(** C1.  The upsert keyed by guid keeps exactly one row per guid: on a
    collection with one row per guid, an upsert that the engine carries out
    leaves one row per guid and exactly one row of the record's guid, the row
    it returns; when the guid was absent that row's source set is [feedId],
    when it was present the feed id is appended to the set the row had, with
    no deduplication.  In particular three upserts of one guid, from a first
    feed, from a second one and from the first one again, give the source
    sets [f1], [f1; f2] and [f1; f2; f1]: the source count is 2 after the
    second and 3 after the third. *)
Theorem createRssArticle_one_row_per_guid :
  (forall (data : ArticleCreateData.t) (w w' : World) (row : RssArticle.t),
      NoDup (map RssArticle.guid (rssArticle w)) ->
      run (createRssArticle data) w = (Return row, w') ->
      NoDup (map RssArticle.guid (rssArticle w'))
      /\ List.length
           (filter (hasGuid (ArticleCreateData.guid data)) (rssArticle w'))
         = 1%nat
      /\ find (hasGuid (ArticleCreateData.guid data)) (rssArticle w')
         = Some row
      /\ match find (hasGuid (ArticleCreateData.guid data)) (rssArticle w)
         with
         | None =>
             RssArticle.sourceFeedIds row = [ArticleCreateData.feedId data]
             /\ List.length (rssArticle w') = S (List.length (rssArticle w))
         | Some old =>
             RssArticle.sourceFeedIds row
             = RssArticle.sourceFeedIds old ++ [ArticleCreateData.feedId data]
             /\ List.length (rssArticle w') = List.length (rssArticle w)
         end)
  /\
  (forall (d1 d2 d3 : ArticleCreateData.t) (w : World),
      NoDup (map RssArticle.guid (rssArticle w)) ->
      ~ In (ArticleCreateData.guid d1) (map RssArticle.guid (rssArticle w)) ->
      dbFaults w = [] ->
      ArticleCreateData.guid d2 = ArticleCreateData.guid d1 ->
      ArticleCreateData.guid d3 = ArticleCreateData.guid d1 ->
      ArticleCreateData.feedId d3 = ArticleCreateData.feedId d1 ->
      exists r1 w1 r2 w2 r3 w3,
        run (createRssArticle d1) w = (Return r1, w1)
        /\ run (createRssArticle d2) w1 = (Return r2, w2)
        /\ run (createRssArticle d3) w2 = (Return r3, w3)
        /\ RssArticle.sourceFeedIds r1 = [ArticleCreateData.feedId d1]
        /\ RssArticle.sourceFeedIds r2
           = [ArticleCreateData.feedId d1; ArticleCreateData.feedId d2]
        /\ sourceCountOf r2 = 2%nat
        /\ RssArticle.sourceFeedIds r3
           = [ArticleCreateData.feedId d1; ArticleCreateData.feedId d2;
              ArticleCreateData.feedId d1]
        /\ sourceCountOf r3 = 3%nat
        /\ find (hasGuid (ArticleCreateData.guid d1)) (rssArticle w3)
           = Some r3
        /\ List.length
             (filter (hasGuid (ArticleCreateData.guid d1)) (rssArticle w3))
           = 1%nat
        /\ List.length (rssArticle w3) = S (List.length (rssArticle w))).
Proof.
  split; [exact createRssArticle_spec |].
  intros d1 d2 d3 w ND NI NF E2 E3 F3.
  destruct (createRssArticle_noFault d1 w) as (w1 & R1 & A1 & F1);
    [rewrite NF; reflexivity |].
  destruct (createRssArticle_noFault d2 w1) as (w2 & R2 & A2 & F2);
    [rewrite F1, NF; reflexivity |].
  destruct (createRssArticle_noFault d3 w2) as (w3 & R3 & A3 & _);
    [rewrite F2, F1, NF; reflexivity |].
  apply find_hasGuid_None in NI.
  assert (H1 : upsertedRow d1 (rssArticle w) = articleOfData d1)
    by (unfold upsertedRow; now rewrite NI).
  assert (H2 : upsertedRow d2 (rssArticle w1)
               = RssArticle.push (ArticleCreateData.feedId d2)
                   (articleOfData d1)).
  { unfold upsertedRow. rewrite E2, A1, upserted_find_same, H1.
    reflexivity. }
  assert (H3 : upsertedRow d3 (rssArticle w2)
               = RssArticle.push (ArticleCreateData.feedId d1)
                   (RssArticle.push (ArticleCreateData.feedId d2)
                      (articleOfData d1))).
  { unfold upsertedRow.
    replace (ArticleCreateData.guid d3) with (ArticleCreateData.guid d2)
      by congruence.
    rewrite A2, upserted_find_same, H2, F3. reflexivity. }
  destruct (createRssArticle_spec d1 w w1 _ ND R1) as (ND1 & _ & _ & L1).
  rewrite NI in L1; destruct L1 as [_ L1].
  destruct (createRssArticle_spec d2 w1 w2 _ ND1 R2) as (ND2 & _ & _ & L2).
  rewrite E2, A1, upserted_find_same in L2; destruct L2 as [_ L2].
  destruct (createRssArticle_spec d3 w2 w3 _ ND2 R3) as (_ & U3 & G3 & L3).
  rewrite E3 in U3, G3.
  replace (ArticleCreateData.guid d3) with (ArticleCreateData.guid d2) in L3
    by congruence.
  rewrite A2, upserted_find_same in L3; destruct L3 as [_ L3].
  exists (upsertedRow d1 (rssArticle w)), w1,
         (upsertedRow d2 (rssArticle w1)), w2,
         (upsertedRow d3 (rssArticle w2)), w3.
  rewrite H3 in G3 |- *. rewrite H2, H1.
  repeat split; trivial; congruence.
Qed.

(** C7.  An upsert of a record whose guid is already in the collection
    leaves the row of that guid with the guid, primary feed id, title, link,
    content, summary, publish date, author, categories and image URL it had,
    whatever the incoming record carries; the rows of the other guids are
    the ones they were and no row is added.  When the engine carries the
    upsert out, the row's source set is the old one with the incoming feed
    id appended; when it fails, the row is untouched. *)
Theorem createRssArticle_keeps_existing_content :
  forall (data : ArticleCreateData.t) (w : World) (old : RssArticle.t),
    find (hasGuid (ArticleCreateData.guid data)) (rssArticle w) = Some old ->
    exists row',
      find (hasGuid (ArticleCreateData.guid data))
           (rssArticle (snd (run (createRssArticle data) w))) = Some row'
      /\ sameContent old row'
      /\ List.length (rssArticle (snd (run (createRssArticle data) w)))
         = List.length (rssArticle w)
      /\ (forall k, k <> ArticleCreateData.guid data ->
            find (hasGuid k)
                 (rssArticle (snd (run (createRssArticle data) w)))
            = find (hasGuid k) (rssArticle w))
      /\ match fst (run (createRssArticle data) w) with
         | Return row =>
             row = row'
             /\ RssArticle.sourceFeedIds row'
                = RssArticle.sourceFeedIds old
                    ++ [ArticleCreateData.feedId data]
         | Throw _ => row' = old
         end.
Proof.
  intros data w old Hold.
  destruct (run (createRssArticle data) w) as [[row | e] w'] eqn:R; simpl.
  - apply createRssArticle_Return in R as (-> & Hrows & _).
    exists (RssArticle.push (ArticleCreateData.feedId data) old).
    rewrite Hrows.
    assert (Hrow : upsertedRow data (rssArticle w)
                   = RssArticle.push (ArticleCreateData.feedId data) old)
      by (unfold upsertedRow; now rewrite Hold).
    split; [rewrite upserted_find_same; now f_equal |].
    split; [unfold sameContent; simpl; tauto |].
    split; [unfold upserted; rewrite Hold; apply length_updateUnique |].
    split; [intros k Hk; now apply upserted_find_other |].
    split; trivial.
  - apply createRssArticle_Throw in R as (Hrows & _).
    exists old; rewrite Hrows.
    unfold sameContent; tauto.
Qed.

(** ** The bulk upsert *)

Lemma bulkTurn_run (article : ArticleCreateData.t) (c s e : nat)
  (w : World) :
  run (bulkTurn article (BulkOperationResult.mk c s e)) w =
  match run (createRssArticle article) w with
  | (Return _, w') => (Return (BulkOperationResult.mk (S c) s e), w')
  | (Throw _, w') => (Return (BulkOperationResult.mk c s (S e)), w')
  end.
Proof.
  unfold bulkTurn; rewrite run_tryCatch, run_bind.
  destruct (run (createRssArticle article) w) as [[r | err] w'] eqn:R;
    simpl; trivial.
  apply createRssArticle_Throw in R as (_ & _ & _ & _ & msg & ->).
  reflexivity.
Qed.

Lemma bulkLoop_run (articles : list ArticleCreateData.t) :
  forall (acc : BulkOperationResult.t) (w : World),
  exists r w',
    run (bulkLoop articles acc) w = (Return r, w')
    /\ (BulkOperationResult.created r + BulkOperationResult.errors r
        = BulkOperationResult.created acc + BulkOperationResult.errors acc
          + List.length articles)%nat
    /\ BulkOperationResult.skipped r = BulkOperationResult.skipped acc
    /\ dbTrace w' = dbTrace w ++ map upsertCall articles
    /\ rssFeed w' = rssFeed w
    /\ (dbFaults w = [] ->
          dbFaults w' = []
          /\ rssArticle w' = upsertedAll articles (rssArticle w)
          /\ BulkOperationResult.created r
             = (BulkOperationResult.created acc + List.length articles)%nat
          /\ BulkOperationResult.errors r = BulkOperationResult.errors acc).
Proof.
  induction articles as [| a rest IH]; intros [c s e] w.
  - exists (BulkOperationResult.mk c s e), w; simpl.
    rewrite app_nil_r; repeat split; trivial; lia.
  - cbn [bulkLoop List.length map]. rewrite run_bind, bulkTurn_run.
    destruct (run (createRssArticle a) w) as [[row | err] w1] eqn:R.
    + apply createRssArticle_Return in R as (_ & HA & HF & HD & HT).
      destruct (IH (BulkOperationResult.mk (S c) s e) w1)
        as (r & w' & Hr & Hsum & Hsk & Htr & Hfd & Hnf).
      exists r, w';
        cbn [BulkOperationResult.created BulkOperationResult.skipped
             BulkOperationResult.errors] in *.
      split; [exact Hr |]. split; [lia |]. split; [exact Hsk |].
      split; [rewrite Htr, HT, <- app_assoc; reflexivity |].
      split; [congruence |].
      intro NF; rewrite NF in HD; destruct (Hnf HD) as (? & ? & ? & ?).
      unfold upsertedAll in *; simpl; rewrite <- HA.
      repeat split; trivial; lia.
    + assert (R' := R).
      apply createRssArticle_Throw in R as (HA & HF & HD & HT & _).
      destruct (IH (BulkOperationResult.mk c s (S e)) w1)
        as (r & w' & Hr & Hsum & Hsk & Htr & Hfd & Hnf).
      exists r, w';
        cbn [BulkOperationResult.created BulkOperationResult.skipped
             BulkOperationResult.errors] in *.
      split; [exact Hr |]. split; [lia |]. split; [exact Hsk |].
      split; [rewrite Htr, HT, <- app_assoc; reflexivity |].
      split; [congruence |].
      intro NF.
      destruct (createRssArticle_noFault a w) as (w2 & R2 & _);
        [rewrite NF; reflexivity |].
      congruence.
Qed.

(** C10.  The bulk upsert of a batch always returns its counts, whatever
    the engine does with the single upserts; the counts add up to the length
    of the batch; the engine receives one upsert per record, in the order of
    the batch; when no upsert fails the collection is the one the upserts
    give one after the other in that order and every record is counted as
    created.  A record whose guid is already in the collection and whose
    upsert the engine carries out is counted as created. *)
Theorem bulkCreateRssArticles_counts_and_order :
  (forall (articles : list ArticleCreateData.t) (w : World),
      exists r w',
        run (bulkCreateRssArticles articles) w = (Return r, w')
        /\ (BulkOperationResult.created r + BulkOperationResult.skipped r
            + BulkOperationResult.errors r = List.length articles)%nat
        /\ dbTrace w' = dbTrace w ++ map upsertCall articles
        /\ (dbFaults w = [] ->
              rssArticle w' = upsertedAll articles (rssArticle w)
              /\ BulkOperationResult.created r = List.length articles))
  /\
  (forall (article : ArticleCreateData.t) (old : RssArticle.t) (w : World),
      find (hasGuid (ArticleCreateData.guid article)) (rssArticle w)
      = Some old ->
      hd None (dbFaults w) = None ->
      fst (run (bulkCreateRssArticles [article]) w)
      = Return (BulkOperationResult.mk 1 0 0)).
Proof.
  split.
  - intros articles w.
    destruct (bulkLoop_run articles (BulkOperationResult.mk 0 0 0) w)
      as (r & w' & Hr & Hsum & Hsk & Htr & _ & Hnf).
    exists r, w'; simpl in *.
    split; [exact Hr |]. split; [lia |]. split; [exact Htr |].
    intro NF; destruct (Hnf NF) as (_ & ? & ? & _); auto.
  - intros article old w _ NF.
    unfold bulkCreateRssArticles; cbn [bulkLoop].
    rewrite run_bind, bulkTurn_run.
    destruct (createRssArticle_noFault article w NF) as (w1 & -> & _).
    reflexivity.
Qed.

(** C6 (fails on the code).  [createRssArticle] hands every failure of the
    upsert to [handleDatabaseError], which throws a plain [Error]: what
    [createRssArticle] throws is never a Prisma error, and the test for a
    Prisma error of code P2002 in the [catch] of the bulk upsert is never
    met.  A batch of one record whose upsert meets the duplicate-key error
    of the engine is reported with one error and nothing skipped, and the
    count of skipped records of every batch is 0. *)
Theorem bulkCreateRssArticles_duplicate_key_counted_as_error :
  fst (run (bulkCreateRssArticles [Sample.article "A" "g" 5000%Z])
           (setFaults [Some Sample.duplicateKey] Sample.world))
  = Return (BulkOperationResult.mk 0 0 1)
  /\
  (forall (data : ArticleCreateData.t) (w : World),
      match fst (run (createRssArticle data) w) with
      | Return _ => True
      | Throw e => isPrismaError e = false
      end)
  /\
  (forall (articles : list ArticleCreateData.t) (w : World),
      exists r,
        fst (run (bulkCreateRssArticles articles) w) = Return r
        /\ BulkOperationResult.skipped r = 0%nat).
Proof.
  split; [reflexivity |]. split.
  - intros data w.
    destruct (run (createRssArticle data) w) as [[row | e] w'] eqn:R;
      simpl; trivial.
    apply createRssArticle_Throw in R as (_ & _ & _ & _ & msg & ->).
    reflexivity.
  - intros articles w.
    destruct (bulkLoop_run articles (BulkOperationResult.mk 0 0 0) w)
      as (r & w' & Hr & _ & Hsk & _).
    exists r; unfold bulkCreateRssArticles; rewrite Hr; auto.
Qed.

(** ** The identity key *)

Lemma composite_key_nonempty (feedId title : string) :
  (feedId ++ "-" ++ title)%string <> "".
Proof. destruct feedId; simpl; discriminate. Qed.

Lemma orElse_nonempty (a : option string) (d : string) :
  d <> "" -> Js.orElse a d <> "".
Proof.
  intro Hd; destruct a as [s |]; simpl; trivial.
  destruct (s =? "") eqn:E; trivial.
  now apply String.eqb_neq in E.
Qed.

(** C8 (amended).  The identity key of an extracted article is never empty
    and follows the order guid, link, [feedId-title]: an item with a guid
    has that guid as its key whatever its link is; an item without a guid
    and with a link has the link; an item with neither has the feed id, a
    dash and the title (the text a template literal prints for the title,
    which is [undefined] when the item has none).  A guid or a link that is
    the empty string counts as missing, as [||] has it.  The identifier of
    an Atom entry is not read: the key of an item is the same whatever its
    [id] is, so that an entry is keyed by its link, or by the feed id and
    the title when it has no link. *)
Theorem extractArticles_identity_key :
  forall (now : Z) (feedId : string) (item : Item.t),
    let key := ArticleData.guid (extractArticle now feedId item) in
    key <> ""
    /\ (forall g, Item.guid item = Some g -> g <> "" -> key = g)
    /\ (Js.truthy (Item.guid item) = false ->
        forall l, Item.link item = Some l -> l <> "" -> key = l)
    /\ (Js.truthy (Item.guid item) = false ->
        Js.truthy (Item.link item) = false ->
        key = (feedId ++ "-" ++ Js.template (Item.title item))%string
        /\ forall t, Item.title item = Some t ->
                     key = (feedId ++ "-" ++ t)%string)
    /\ (forall i,
          ArticleData.guid (extractArticle now feedId (Item.withId i item))
          = key).
Proof.
  intros now feedId item; cbn [extractArticle ArticleData.guid].
  unfold extractGuid.
  split; [apply orElse_nonempty, composite_key_nonempty |].
  split.
  { intros g Hg Hne. apply String.eqb_neq in Hne.
    unfold Js.or, Js.truthy; rewrite Hg, Hne; simpl. now rewrite Hne. }
  split.
  { intros Hg l Hl Hne. apply String.eqb_neq in Hne.
    unfold Js.or; rewrite Hg, Hl; simpl. now rewrite Hne. }
  split; [| reflexivity].
  intros Hg Hl. unfold Js.or; rewrite Hg.
  assert (Js.orElse (Item.link item)
            (feedId ++ "-" ++ Js.template (Item.title item))
          = (feedId ++ "-" ++ Js.template (Item.title item))%string) as ->.
  { unfold Js.truthy in Hl. destruct (Item.link item) as [l |]; simpl; trivial.
    destruct (l =? ""); [reflexivity | discriminate]. }
  split; trivial. intros t ->; reflexivity.
Qed.

(** ** Windowed retrieval *)

Lemma inList_In (s : string) (l : list string) :
  inList s l = true <-> In s l.
Proof.
  unfold inList; rewrite existsb_exists; split.
  - intros (x & Hx & E); apply String.eqb_eq in E; now subst.
  - intro H; exists s; split; [assumption | apply String.eqb_refl].
Qed.

Lemma matchesFeeds_requested (feedIds : list string) (a : RssArticle.t) :
  matchesFeeds feedIds a = true <-> requested feedIds a.
Proof.
  unfold matchesFeeds, requested.
  rewrite orb_true_iff, inList_In, existsb_exists.
  split; (intros [H | (s & H1 & H2)]; [now left | right; exists s]);
    (split; [assumption | now apply inList_In]).
Qed.

Lemma inWindow_bounds (startDate endDate : Z) (a : RssArticle.t) :
  inWindow startDate endDate a = true
  <-> (startDate <= RssArticle.pubDate a <= endDate)%Z.
Proof. unfold inWindow; rewrite andb_true_iff; lia. Qed.

Lemma insertByDateDesc_In (a x : RssArticle.t) (l : list RssArticle.t) :
  In x (insertByDateDesc a l) <-> x = a \/ In x l.
Proof.
  induction l as [| b l IH]; simpl.
  - intuition congruence.
  - destruct (RssArticle.pubDate b <? RssArticle.pubDate a)%Z; simpl.
    + intuition congruence.
    + rewrite IH; intuition congruence.
Qed.

Lemma insertByDateDesc_sorted (a : RssArticle.t) (l : list RssArticle.t) :
  StronglySorted notOlder l -> StronglySorted notOlder (insertByDateDesc a l).
Proof.
  induction 1 as [| b l Hs IH Hb]; simpl.
  - repeat constructor.
  - destruct (RssArticle.pubDate b <? RssArticle.pubDate a)%Z eqn:E.
    + apply Z.ltb_lt in E.
      constructor; [now constructor |].
      constructor; [unfold notOlder; lia |].
      rewrite Forall_forall in Hb |- *; intros x Hx.
      specialize (Hb x Hx); unfold notOlder in *; lia.
    + apply Z.ltb_ge in E.
      constructor; [exact IH |].
      rewrite Forall_forall in Hb |- *; intros x Hx.
      apply insertByDateDesc_In in Hx as [-> | Hx]; [exact E | now apply Hb].
Qed.

Lemma orderBy_In (x : RssArticle.t) (l : list RssArticle.t) :
  In x (ARTICLE_ORDER_BY_DATE_DESC l) <-> In x l.
Proof.
  unfold ARTICLE_ORDER_BY_DATE_DESC.
  induction l as [| a l IH]; simpl; [tauto |].
  rewrite insertByDateDesc_In, IH; intuition congruence.
Qed.

Lemma insertByDateDesc_perm (a : RssArticle.t) (l : list RssArticle.t) :
  Permutation (insertByDateDesc a l) (a :: l).
Proof.
  induction l as [| b l IH]; simpl; [reflexivity |].
  destruct (RssArticle.pubDate b <? RssArticle.pubDate a)%Z; [reflexivity |].
  rewrite IH; apply perm_swap.
Qed.

Lemma orderBy_perm (l : list RssArticle.t) :
  Permutation (ARTICLE_ORDER_BY_DATE_DESC l) l.
Proof.
  unfold ARTICLE_ORDER_BY_DATE_DESC.
  induction l as [| a l IH]; simpl; [reflexivity |].
  rewrite insertByDateDesc_perm; now constructor.
Qed.

Lemma orderBy_sorted (l : list RssArticle.t) :
  StronglySorted notOlder (ARTICLE_ORDER_BY_DATE_DESC l).
Proof.
  unfold ARTICLE_ORDER_BY_DATE_DESC.
  induction l; simpl; [constructor | now apply insertByDateDesc_sorted].
Qed.

Lemma firstn_In {A} (x : A) (n : nat) (l : list A) :
  In x (firstn n l) -> In x l.
Proof.
  intro H; rewrite <- (firstn_skipn n l); apply in_or_app; now left.
Qed.

Lemma firstn_sorted {A} (R : A -> A -> Prop) (n : nat) (l : list A) :
  StronglySorted R l -> StronglySorted R (firstn n l).
Proof.
  intro H; revert n; induction H as [| a l Hs IH Ha]; intros [| n]; simpl;
    try constructor; auto.
  rewrite Forall_forall in Ha |- *; intros x Hx.
  apply Ha; now apply firstn_In in Hx.
Qed.

Lemma sorted_app_inv {A} (R : A -> A -> Prop) (l1 l2 : list A) :
  StronglySorted R (l1 ++ l2) ->
  forall x y, In x l1 -> In y l2 -> R x y.
Proof.
  induction l1 as [| a l1 IH]; simpl; [tauto |].
  intros H x y [<- | Hx] Hy; inversion H as [| ? ? Hs Ha]; subst.
  - rewrite Forall_forall in Ha; apply Ha, in_or_app; now right.
  - now apply IH.
Qed.

(** The first [n] rows of a sorted list: a row that is left out is not
    newer than any row that is kept, and then [n] rows are kept. *)
Lemma firstn_top {A} (R : A -> A -> Prop) (n : nat) (l : list A) (y : A) :
  StronglySorted R l -> In y l ->
  In y (firstn n l)
  \/ (List.length (firstn n l) = n /\ forall x, In x (firstn n l) -> R x y).
Proof.
  intros Hs Hy.
  rewrite <- (firstn_skipn n l) in Hy, Hs.
  apply in_app_or in Hy as [Hy | Hy]; [now left | right].
  split.
  - rewrite length_firstn. apply Nat.min_l.
    destruct (Nat.le_gt_cases n (List.length l)) as [Hle | Hgt]; trivial.
    rewrite skipn_all2 in Hy by lia. destruct Hy.
  - intros x Hx. now apply (sorted_app_inv R _ _ Hs).
Qed.

Lemma getArticles_run (feedIds : list string) (startDate endDate : Z)
  (limit : option nat) (w w' : World) (result : list ScoredArticle.t) :
  run (getArticlesByFeedsAndDateRange feedIds startDate endDate limit) w
  = (Return result, w') ->
  result =
  map (fun a =>
         ScoredArticle.mk a (ARTICLE_WITH_FEED_INCLUDE (rssFeed w) a)
           (List.length (RssArticle.sourceFeedIds a)))
      (firstn (capOf limit)
         (ARTICLE_ORDER_BY_DATE_DESC
            (filter (fun a => matchesFeeds feedIds a
                              && inWindow startDate endDate a)
                    (rssArticle w))))
  /\ rssArticle w' = rssArticle w /\ rssFeed w' = rssFeed w.
Proof.
  unfold getArticlesByFeedsAndDateRange, wrapDatabaseOperation.
  rewrite run_tryCatch, run_bind, run_await.
  unfold rssArticle_findMany, prismaCall, capOf.
  destruct (dbFaults w) as [| [e |] rest]; simpl.
  - intro H; injection H as <- <-; simpl.
    rewrite map_map; auto.
  - destruct (handleDatabaseError_plain (A:=list ScoredArticle.t) e
      "fetch articles by feeds and date range"
      (record ArticleFindMany (setFaults rest w))) as [msg ->].
    discriminate.
  - intro H; injection H as <- <-; simpl.
    rewrite map_map; auto.
Qed.

Lemma getArticles_noFault (feedIds : list string) (startDate endDate : Z)
  (limit : option nat) (w : World) :
  hd None (dbFaults w) = None ->
  exists result w',
    run (getArticlesByFeedsAndDateRange feedIds startDate endDate limit) w
    = (Return result, w').
Proof.
  intro NF.
  unfold getArticlesByFeedsAndDateRange, wrapDatabaseOperation.
  rewrite run_tryCatch, run_bind, run_await.
  unfold rssArticle_findMany, prismaCall.
  destruct (dbFaults w) as [| [e |] rest]; simpl in *; try discriminate;
    eauto.
Qed.

(** C4.  A retrieval that the engine carries out returns rows of the
    collection whose primary feed is requested or whose source set meets the
    request, with a publish date between the bounds, both included; it
    returns them newest first, at most [limit] of them (100 when no limit is
    given), each with the length of its source set (repeated entries
    counted) as its source count; and it leaves out a row that qualifies
    only when the cap is reached by rows that are not older: the rows
    returned are the first [limit] ones of the qualifying rows of the
    collection put in descending order of publish date. *)
Theorem getArticlesByFeedsAndDateRange_window :
  forall (feedIds : list string) (startDate endDate : Z)
         (limit : option nat) (w w' : World) (result : list ScoredArticle.t),
    run (getArticlesByFeedsAndDateRange feedIds startDate endDate limit) w
    = (Return result, w') ->
    (forall r, In r result ->
       In (ScoredArticle.article r) (rssArticle w)
       /\ requested feedIds (ScoredArticle.article r)
       /\ (startDate <= RssArticle.pubDate (ScoredArticle.article r)
           <= endDate)%Z
       /\ ScoredArticle.sourceCount r
          = List.length (RssArticle.sourceFeedIds (ScoredArticle.article r)))
    /\ StronglySorted notOlder (map ScoredArticle.article result)
    /\ (List.length result <= capOf limit)%nat
    /\ (forall a, In a (rssArticle w) ->
         requested feedIds a ->
         (startDate <= RssArticle.pubDate a <= endDate)%Z ->
         In a (map ScoredArticle.article result)
         \/ (List.length result = capOf limit
             /\ forall r, In r result ->
                  notOlder (ScoredArticle.article r) a))
    /\ (exists sorted,
          Permutation sorted
            (filter (fun a => matchesFeeds feedIds a
                              && inWindow startDate endDate a)
                    (rssArticle w))
          /\ StronglySorted notOlder sorted
          /\ map ScoredArticle.article result
             = firstn (capOf limit) sorted).
Proof.
  intros feedIds startDate endDate limit w w' result Hrun.
  apply getArticles_run in Hrun as (-> & _).
  set (sel := filter _ (rssArticle w)).
  set (rows := firstn (capOf limit) (ARTICLE_ORDER_BY_DATE_DESC sel)).
  assert (Hmap : map ScoredArticle.article
                   (map (fun a => ScoredArticle.mk a
                           (ARTICLE_WITH_FEED_INCLUDE (rssFeed w) a)
                           (List.length (RssArticle.sourceFeedIds a))) rows)
                 = rows).
  { rewrite map_map; simpl; apply map_id. }
  assert (Hsel : forall a, In a sel <->
            In a (rssArticle w) /\ requested feedIds a
            /\ (startDate <= RssArticle.pubDate a <= endDate)%Z).
  { intro a; unfold sel; rewrite filter_In, andb_true_iff,
      matchesFeeds_requested, inWindow_bounds; tauto. }
  split.
  { intros r Hr; apply in_map_iff in Hr as (a & <- & Ha); simpl.
    apply firstn_In, orderBy_In, Hsel in Ha; tauto. }
  rewrite Hmap, length_map.
  split; [apply firstn_sorted, orderBy_sorted |].
  split; [apply firstn_le_length |].
  split;
    [| exists (ARTICLE_ORDER_BY_DATE_DESC sel);
       split; [apply orderBy_perm | split; [apply orderBy_sorted | trivial]]].
  intros a Ha Hreq Hwin.
  assert (Hin : In a (ARTICLE_ORDER_BY_DATE_DESC sel))
    by (apply orderBy_In, Hsel; tauto).
  destruct (firstn_top notOlder (capOf limit) _ a (orderBy_sorted sel) Hin)
    as [H | [Hlen Htop]]; [now left | right].
  split; [exact Hlen |].
  intros r Hr; apply in_map_iff in Hr as (b & <- & Hb); simpl.
  now apply Htop.
Qed.

(** ** The freshness classifier *)

Lemma sameData_refl (w : World) : sameData w w.
Proof. unfold sameData; tauto. Qed.

Lemma sameData_record (c : DbCall) (w : World) : sameData w (record c w).
Proof. unfold sameData; simpl; tauto. Qed.

Lemma sameData_trans (w1 w2 w3 : World) :
  sameData w1 w2 -> sameData w2 w3 -> sameData w1 w3.
Proof. unfold sameData; intuition congruence. Qed.

Lemma fetchedAfter_irrefl (a : option Z) : fetchedAfter a a = false.
Proof. destruct a; simpl; [apply Z.ltb_irrefl | reflexivity]. Qed.

Lemma fetchedAfter_trans_neg (a b c : option Z) :
  fetchedAfter a b = false -> fetchedAfter b c = false ->
  fetchedAfter a c = false.
Proof.
  destruct a, b, c; simpl; trivial; try discriminate.
  rewrite !Z.ltb_ge; lia.
Qed.

Lemma fetchedAfter_asym (a b : option Z) :
  fetchedAfter a b = true -> fetchedAfter b a = false.
Proof.
  destruct a, b; simpl; trivial; try discriminate.
  rewrite Z.ltb_lt, Z.ltb_ge; lia.
Qed.

Lemma firstByLastFetchedDesc_max (l : list RssFeed.t) :
  l <> [] ->
  exists g, firstByLastFetchedDesc l = Some g /\ In g l
    /\ forall f, In f l ->
         fetchedAfter (RssFeed.lastFetched f) (RssFeed.lastFetched g) = false.
Proof.
  induction l as [| f l IH]; [congruence | intros _; simpl].
  destruct l as [| f' l].
  - exists f; simpl; repeat split; auto.
    intros x [Hx | []]; subst x. apply fetchedAfter_irrefl.
  - destruct IH as (g & -> & Hg & Hmax); [discriminate |].
    destruct (fetchedAfter (RssFeed.lastFetched g) (RssFeed.lastFetched f))
      eqn:E.
    + exists g; repeat split; auto.
      intros x [Hx | Hx]; [subst x | now apply Hmax].
      now apply fetchedAfter_asym.
    + exists f; repeat split; auto.
      intros x [Hx | Hx]; [subst x; apply fetchedAfter_irrefl |].
      eapply fetchedAfter_trans_neg; [apply (Hmax x Hx) | exact E].
Qed.

Lemma isStale_staleUrl (cacheWindow now : Z) (feeds : list RssFeed.t)
  (feed : RssFeed.t) :
  In feed feeds ->
  isStale cacheWindow now feeds feed = true
  <-> staleUrl cacheWindow now feeds (RssFeed.url feed).
Proof.
  intro Hin. unfold isStale, mostRecentFetchOf.
  set (u := RssFeed.url feed).
  set (l := filter (fun f => RssFeed.url f =? u) feeds).
  assert (Hl : forall f, In f l <-> In f feeds /\ RssFeed.url f = u).
  { intro f; unfold l; rewrite filter_In, String.eqb_eq; tauto. }
  destruct (firstByLastFetchedDesc_max l) as (g & -> & Hg & Hmax).
  { intro E; assert (In feed l) by (apply Hl; auto).
    rewrite E in *; contradiction. }
  apply Hl in Hg as [Hg Hu]. simpl.
  destruct (RssFeed.lastFetched g) as [t |] eqn:Et.
  - assert (Hmost : mostRecentIs feeds u t).
    { split; [exists g; auto |].
      intros f t' Hf Hfu Hft.
      assert (Hx := Hmax f (proj2 (Hl f) (conj Hf Hfu))).
      rewrite Hft in Hx; simpl in Hx. apply Z.ltb_ge in Hx; exact Hx. }
    rewrite Z.gtb_ltb, Z.ltb_lt. split.
    + intro H; right; exists t; split; [exact Hmost | lia].
    + intros [Hn | (t' & [(g' & Hg' & Hu' & Ht') Hle'] & Hgt)].
      * rewrite (Hn g Hg Hu) in Et; discriminate.
      * destruct Hmost as [_ Hle].
        specialize (Hle g' t' Hg' Hu' Ht').
        specialize (Hle' g t Hg Hu Et). lia.
  - split; [intros _; left | trivial].
    intros f Hf Hfu.
    assert (Hx := Hmax f (proj2 (Hl f) (conj Hf Hfu))).
    destruct (RssFeed.lastFetched f); [discriminate Hx | reflexivity].
Qed.

Lemma rssFeed_findFirst_noFault (url : string) (w : World) :
  dbFaults w = [] ->
  rssFeed_findFirst url w
  = (Return (mostRecentFetchOf (rssFeed w) url), record (FeedFindFirst url) w).
Proof.
  intro NF; unfold rssFeed_findFirst, prismaCall; rewrite NF; reflexivity.
Qed.

Lemma refreshLoop_noFault (cacheWindow now : Z) (feeds : list RssFeed.t) :
  forall (acc : list string) (w : World),
    dbFaults w = [] ->
    exists w',
      run (refreshLoop cacheWindow now feeds acc) w
      = (Return
           (acc ++ map RssFeed.id
                     (filter (isStale cacheWindow now (rssFeed w)) feeds)),
         w')
      /\ sameData w w'.
Proof.
  induction feeds as [| f feeds IH]; intros acc w NF.
  - exists w; simpl; rewrite app_nil_r; split; [trivial | apply sameData_refl].
  - cbn [refreshLoop]. rewrite run_bind, run_await.
    rewrite (rssFeed_findFirst_noFault _ _ NF).
    set (w1 := record (FeedFindFirst (RssFeed.url f)) w).
    assert (NF1 : dbFaults w1 = []) by exact NF.
    match goal with |- context [run ?body w1] =>
      assert (Hstep : body
                = refreshLoop cacheWindow now feeds
                    (if isStale cacheWindow now (rssFeed w) f
                     then acc ++ [RssFeed.id f] else acc))
    end.
    { unfold isStale.
      destruct (mostRecentFetchOf (rssFeed w) (RssFeed.url f)) as [[t |] |];
        trivial.
      destruct (now - t >? cacheWindow)%Z; trivial. }
    rewrite Hstep; clear Hstep.
    destruct (IH (if isStale cacheWindow now (rssFeed w) f
                  then acc ++ [RssFeed.id f] else acc) w1 NF1)
      as (w' & -> & HS).
    exists w'; split.
    + cbn [filter]. change (rssFeed w1) with (rssFeed w).
      destruct (isStale cacheWindow now (rssFeed w) f); trivial.
      cbn [map]; rewrite <- app_assoc; reflexivity.
    + eapply sameData_trans; [apply sameData_record | exact HS].
Qed.

Lemma rssFeed_findMany_noFault (feedIds : list string) (w : World) :
  dbFaults w = [] ->
  rssFeed_findMany feedIds w
  = (Return (filter (fun f => inList (RssFeed.id f) feedIds) (rssFeed w)),
     record FeedFindMany w).
Proof.
  intro NF; unfold rssFeed_findMany, prismaCall; rewrite NF; reflexivity.
Qed.

Lemma getFeedsToRefreshWithin_noFault (cacheWindow : Z)
  (feedIds : list string) (w : World) :
  dbFaults w = [] ->
  exists w',
    run (getFeedsToRefreshWithin cacheWindow feedIds) w
    = (Return (staleIds cacheWindow (clock w) (rssFeed w) feedIds), w')
    /\ sameData w w'.
Proof.
  intro NF. unfold getFeedsToRefreshWithin.
  rewrite run_bind. unfold perform at 1; cbn [run newDate].
  rewrite run_bind, run_await, (rssFeed_findMany_noFault _ _ NF).
  destruct (refreshLoop_noFault cacheWindow (clock w)
              (filter (fun f => inList (RssFeed.id f) feedIds) (rssFeed w))
              [] (record FeedFindMany w) NF) as (w' & -> & HS).
  exists w'; split; [reflexivity |].
  eapply sameData_trans; [apply sameData_record | exact HS].
Qed.

Lemma staleIds_In (cacheWindow now : Z) (feeds : list RssFeed.t)
  (feedIds : list string) (fid : string) :
  In fid (staleIds cacheWindow now feeds feedIds)
  <-> In fid feedIds
      /\ exists f, In f feeds /\ RssFeed.id f = fid
                   /\ staleUrl cacheWindow now feeds (RssFeed.url f).
Proof.
  unfold staleIds; rewrite in_map_iff; split.
  - intros (f & <- & Hf).
    apply filter_In in Hf as [Hf Hs]. apply filter_In in Hf as [Hf Hi].
    split; [now apply inList_In |].
    exists f; repeat split; trivial. now apply isStale_staleUrl.
  - intros (Hi & f & Hf & <- & Hs).
    exists f; split; trivial.
    apply filter_In; split; [| now apply isStale_staleUrl].
    apply filter_In; split; [assumption | now apply inList_In].
Qed.

(** C2.  When the database answers, the classifier returns the requested
    identifiers of feed records that are stale, and no other: a feed is
    stale when no feed record of its URL has a [lastFetched], or when the
    time since the most recent [lastFetched] among all the feed records of
    its URL exceeds the cache window, which is 3 hours.  With two feeds [F1]
    and [F2] of one URL and [F1] fetched one hour ago, [F2] alone is
    classified fresh under the 3-hour window, and stale under a window of 30
    minutes when its own last fetch, if any, is not more recent. *)
Theorem getFeedsToRefresh_classifies_by_url :
  CACHE_WINDOW = hours 3
  /\
  (forall (cacheWindow : Z) (feedIds : list string) (w : World),
      dbFaults w = [] ->
      exists stale w',
        run (getFeedsToRefreshWithin cacheWindow feedIds) w
        = (Return stale, w')
        /\ forall fid,
             In fid stale
             <-> In fid feedIds
                 /\ exists f, In f (rssFeed w) /\ RssFeed.id f = fid
                      /\ staleUrl cacheWindow (clock w) (rssFeed w)
                           (RssFeed.url f))
  /\
  (forall (F1 F2 : RssFeed.t) (w : World),
      rssFeed w = [F1; F2] ->
      RssFeed.id F1 <> RssFeed.id F2 ->
      RssFeed.url F1 = RssFeed.url F2 ->
      RssFeed.lastFetched F1 = Some (clock w - hours 1)%Z ->
      dbFaults w = [] ->
      fst (run (getFeedsToRefresh [RssFeed.id F2]) w) = Return []
      /\ ((forall t, RssFeed.lastFetched F2 = Some t ->
            (t <= clock w - hours 1)%Z) ->
          fst (run (getFeedsToRefreshWithin (minutes 30) [RssFeed.id F2]) w)
          = Return [RssFeed.id F2])).
Proof.
  split; [reflexivity |]. split.
  - intros cacheWindow feedIds w NF.
    destruct (getFeedsToRefreshWithin_noFault cacheWindow feedIds w NF)
      as (w' & Hr & _).
    eexists; exists w'; split; [exact Hr |].
    intro fid; apply staleIds_In.
  - intros F1 F2 w Hfeeds Hid Hurl H1 NF.
    assert (Hsel : filter (fun f => inList (RssFeed.id f) [RssFeed.id F2])
                     (rssFeed w) = [F2]).
    { rewrite Hfeeds; simpl.
      apply String.eqb_neq in Hid; rewrite Hid, String.eqb_refl.
      reflexivity. }
    assert (Hin2 : In F2 (rssFeed w)) by (rewrite Hfeeds; simpl; auto).
    assert (Hin1 : In F1 (rssFeed w)) by (rewrite Hfeeds; simpl; auto).
    split.
    + unfold getFeedsToRefresh.
      destruct (getFeedsToRefreshWithin_noFault CACHE_WINDOW
                  [RssFeed.id F2] w NF) as (w' & -> & _).
      unfold staleIds; rewrite Hsel; cbn [fst filter].
      destruct (isStale CACHE_WINDOW (clock w) (rssFeed w) F2) eqn:E;
        trivial.
      apply isStale_staleUrl in E; trivial.
      destruct E as [Hn | (t & [_ Hle] & Hgt)].
      * rewrite (Hn F1 Hin1 Hurl) in H1; discriminate.
      * specialize (Hle F1 _ Hin1 Hurl H1).
        unfold CACHE_WINDOW, hours in *; lia.
    + intro H2.
      destruct (getFeedsToRefreshWithin_noFault (minutes 30)
                  [RssFeed.id F2] w NF) as (w' & -> & _).
      unfold staleIds; rewrite Hsel; cbn [fst filter].
      assert (isStale (minutes 30) (clock w) (rssFeed w) F2 = true) as ->;
        trivial.
      apply isStale_staleUrl; trivial.
      right; exists (clock w - hours 1)%Z; split.
      * split; [exists F1; auto |].
        intros g t' Hg Hu Ht. rewrite Hfeeds in Hg.
        destruct Hg as [<- | [<- | []]]; [| now apply H2].
        rewrite H1 in Ht; injection Ht as <-; lia.
      * unfold minutes, hours; lia.
Qed.

(** C9.  For a fixed collection and a fixed current time, a feed that the
    classifier finds stale under a cache window is found stale under every
    window that is not larger: what the classifier returns under the larger
    window is included in what it returns under the smaller one. *)
Theorem getFeedsToRefresh_monotone_in_window :
  forall (W W' : Z) (feedIds : list string) (w : World),
    (W' <= W)%Z ->
    dbFaults w = [] ->
    exists stale stale' w1 w2,
      run (getFeedsToRefreshWithin W feedIds) w = (Return stale, w1)
      /\ run (getFeedsToRefreshWithin W' feedIds) w = (Return stale', w2)
      /\ (forall fid, In fid stale -> In fid stale')
      /\ (forall feed,
            isStale W (clock w) (rssFeed w) feed = true ->
            isStale W' (clock w) (rssFeed w) feed = true).
Proof.
  intros W W' feedIds w Hle NF.
  destruct (getFeedsToRefreshWithin_noFault W feedIds w NF) as (w1 & R1 & _).
  destruct (getFeedsToRefreshWithin_noFault W' feedIds w NF) as (w2 & R2 & _).
  assert (Hmono : forall feed,
            isStale W (clock w) (rssFeed w) feed = true ->
            isStale W' (clock w) (rssFeed w) feed = true).
  { intro feed; unfold isStale.
    destruct (mostRecentFetchOf (rssFeed w) (RssFeed.url feed)) as [[t |] |];
      trivial.
    rewrite !Z.gtb_ltb, !Z.ltb_lt; lia. }
  do 2 eexists; exists w1, w2.
  split; [exact R1 |]. split; [exact R2 |]. split; [| exact Hmono].
  intros fid; unfold staleIds; rewrite !in_map_iff.
  intros (f & <- & Hf); exists f; split; trivial.
  apply filter_In in Hf as [Hf Hs]; apply filter_In; auto.
Qed.

(** ** Interleaved execution *)

Section Safety.

Variable Inv : World -> Prop.

Lemma Safe_mono {A} (Q Q' : Outcome A -> Prop) (p : Proc A) :
  (forall o, Q o -> Q' o) -> Safe Inv Q p -> Safe Inv Q' p.
Proof.
  intro HQ; induction p as [o | X m k IH]; simpl; [apply HQ |].
  intros H w Hw; destruct (H w Hw); split; auto.
Qed.

Lemma Safe_bind {A B} (Q : Outcome B -> Prop) (p : Proc A)
  (f : A -> Proc B) :
  Safe Inv (fun o => match o with
                     | Return a => Safe Inv Q (f a)
                     | Throw e => Q (Throw e)
                     end) p ->
  Safe Inv Q (bind p f).
Proof.
  induction p as [[a | e] | X m k IH]; simpl; trivial.
  intros H w Hw; destruct (H w Hw); split; auto.
Qed.

Lemma Safe_tryCatch {A} (Q : Outcome A -> Prop) (p : Proc A)
  (h : JsError -> Proc A) :
  Safe Inv (fun o => match o with
                     | Return a => Q (Return a)
                     | Throw e => Safe Inv Q (h e)
                     end) p ->
  Safe Inv Q (tryCatch p h).
Proof.
  induction p as [[a | e] | X m k IH]; simpl; trivial.
  intros H w Hw; destruct (H w Hw); split; auto.
Qed.

Lemma Safe_await {A} (Q : Outcome A -> Prop) (m : M A) :
  (forall w, Inv w -> Inv (snd (m w)) /\ Q (fst (m w))) ->
  Safe Inv Q (await m).
Proof. intro H; exact H. Qed.

Lemma Safe_resume {A} (Q : Outcome A -> Prop) (p : Proc A) (w : World) :
  Safe Inv Q p -> Inv w ->
  Safe Inv Q (fst (resume p w)) /\ Inv (snd (resume p w)).
Proof.
  destruct p as [o | X m k]; simpl; [auto |].
  intros H Hw; destruct (H w Hw); destruct (m w); simpl in *; auto.
Qed.

Lemma Safe_run {A} (Q : Outcome A -> Prop) (p : Proc A) :
  forall w, Safe Inv Q p -> Inv w ->
            Q (fst (run p w)) /\ Inv (snd (run p w)).
Proof.
  induction p as [o | X m k IH]; simpl; [auto |].
  intros w H Hw; destruct (H w Hw) as [H1 H2].
  destruct (m w) as [o w']; simpl in *; auto.
Qed.

(** The tasks of a batch, each with the postcondition of its own. *)
Lemma Safe_resumeAt {A} (Qs : list (Outcome A -> Prop))
  (tasks : list (Proc A)) :
  Forall2 (Safe Inv) Qs tasks ->
  forall (i : nat) (w : World),
    Inv w ->
    Forall2 (Safe Inv) Qs (fst (resumeAt i tasks w))
    /\ Inv (snd (resumeAt i tasks w)).
Proof.
  induction 1 as [| Q p Qs rest HQ HR IH]; intros i w Hw; simpl; [auto |].
  destruct i as [| i].
  - destruct (Safe_resume Q p w HQ Hw) as [H1 H2].
    destruct (resume p w); simpl in *; auto.
  - destruct (IH i w Hw) as [H1 H2].
    destruct (resumeAt i rest w); simpl in *; auto.
Qed.

Lemma Safe_interleave {A} (Qs : list (Outcome A -> Prop))
  (sched : list nat) :
  forall (tasks : list (Proc A)) (w : World),
    Forall2 (Safe Inv) Qs tasks -> Inv w ->
    Forall2 (Safe Inv) Qs (fst (interleave sched tasks w))
    /\ Inv (snd (interleave sched tasks w)).
Proof.
  induction sched as [| i sched IH]; intros tasks w HF Hw; simpl; [auto |].
  destruct (Safe_resumeAt Qs tasks HF i w Hw) as [H1 H2].
  destruct (resumeAt i tasks w); simpl in *; auto.
Qed.

Lemma Safe_drain {A} (Qs : list (Outcome A -> Prop))
  (tasks : list (Proc A)) :
  Forall2 (Safe Inv) Qs tasks ->
  forall w : World,
    Inv w ->
    Forall2 (fun Q o => Q o) Qs (fst (drain tasks w))
    /\ Inv (snd (drain tasks w)).
Proof.
  induction 1 as [| Q p Qs rest HQ HR IH]; intros w Hw; simpl; [auto |].
  destruct (Safe_run Q p w HQ Hw) as [H1 H2].
  destruct (run p w) as [o w1]; simpl in *.
  destruct (IH w1 H2) as [H3 H4].
  destruct (drain rest w1); simpl in *; auto.
Qed.

Lemma Safe_allSettled {A} (Qs : list (Outcome A -> Prop))
  (tasks : list (Proc A)) (w : World) :
  Forall2 (Safe Inv) Qs tasks -> Inv w ->
  exists os w',
    allSettled tasks w = (Return (map settle os), w')
    /\ Forall2 (fun Q o => Q o) Qs os /\ Inv w'.
Proof.
  intros HF Hw; unfold allSettled.
  destruct (Safe_interleave Qs (schedule w) tasks w HF Hw) as [H1 H2].
  destruct (interleave (schedule w) tasks w) as [tasks' w1]; simpl in *.
  destruct (Safe_drain Qs tasks' H1 w1 H2) as [H3 H4].
  destruct (drain tasks' w1) as [os w2]; simpl in *.
  exists os, w2; auto.
Qed.

End Safety.

(** ** The refresh of one feed among others *)

Lemma find_static (fid : string) (l : list RssFeed.t) :
  forall l0,
    map staticPart l = map staticPart l0 ->
    option_map staticPart (find (hasId fid) l)
    = option_map staticPart (find (hasId fid) l0).
Proof.
  induction l as [| f l IH]; intros [| f0 l0] E; simpl in *;
    try discriminate; trivial.
  injection E as Eid Eurl Eact Erest.
  assert (hasId fid f = hasId fid f0) as -> by (unfold hasId; congruence).
  destruct (hasId fid f0); simpl; [unfold staticPart; congruence | auto].
Qed.

Lemma map_static_update (fid : string) (now : Z) (l : list RssFeed.t) :
  map staticPart (updateUnique (hasId fid) (RssFeed.withLastFetched now) l)
  = map staticPart l.
Proof.
  induction l as [| f l IH]; simpl; trivial.
  destruct (hasId fid f); simpl; [reflexivity | now rewrite IH].
Qed.

Section Batch.

Variable w0 : World.

Lemma Stable_record (c : DbCall) (w : World) :
  Stable w0 w -> Stable w0 (record c w).
Proof. unfold Stable; simpl; tauto. Qed.

Lemma Stable_setArticles (rows : list RssArticle.t) (w : World) :
  Stable w0 w -> Stable w0 (setArticles rows w).
Proof. unfold Stable; simpl; tauto. Qed.

Lemma Stable_createRssArticle (data : ArticleCreateData.t) :
  Safe (Stable w0) (fun o => isReturn o = true) (createRssArticle data).
Proof.
  unfold createRssArticle, wrapDatabaseOperation.
  apply Safe_tryCatch, Safe_await.
  intros w Hw. assert (NF : dbFaults w = []) by apply Hw.
  unfold rssArticle_upsert, prismaCall; rewrite NF.
  destruct (find _ (rssArticle (record _ w))); simpl;
    (split; [apply Stable_setArticles, Stable_record, Hw | reflexivity]).
Qed.

Lemma Stable_bulkTurn (a : ArticleCreateData.t)
  (r : BulkOperationResult.t) :
  Safe (Stable w0) (fun o => isReturn o = true) (bulkTurn a r).
Proof.
  destruct r as [c s e]; unfold bulkTurn.
  apply Safe_tryCatch, Safe_bind.
  eapply Safe_mono; [| apply Stable_createRssArticle].
  intros [row | err]; simpl; [trivial | discriminate].
Qed.

Lemma Stable_bulkLoop (articles : list ArticleCreateData.t) :
  forall r, Safe (Stable w0) (fun o => isReturn o = true)
                 (bulkLoop articles r).
Proof.
  induction articles as [| a rest IH]; intro r; cbn [bulkLoop].
  - reflexivity.
  - apply Safe_bind.
    eapply Safe_mono; [| apply Stable_bulkTurn].
    intros [r' | err]; simpl; [intros _; apply IH | discriminate].
Qed.

Lemma Stable_updateFeedLastFetched (fid : string) :
  find (hasId fid) (rssFeed w0) <> None ->
  Safe (Stable w0) (fun o => isReturn o = true) (updateFeedLastFetched fid).
Proof.
  intro Hex; unfold updateFeedLastFetched.
  apply Safe_tryCatch, Safe_bind.
  unfold perform; simpl. intros w Hw; split; [exact Hw |].
  intros w1 Hw1. assert (NF : dbFaults w1 = []) by apply Hw1.
  unfold rssFeed_update, prismaCall; rewrite NF.
  cbn [record rssFeed].
  assert (Hst := find_static fid (rssFeed w1) (rssFeed w0) (proj1 Hw1)).
  destruct (find (hasId fid) (rssFeed w1)) as [f |] eqn:E; simpl.
  - split; [| reflexivity].
    destruct Hw1 as (H1 & H2 & H3); unfold Stable; simpl.
    rewrite map_static_update; auto.
  - destruct (find (hasId fid) (rssFeed w0)); [discriminate | congruence].
Qed.

Lemma Stable_fetchAndParseFeed (url fid : string) :
  Safe (Stable w0) (fun o => isReturn o = isReturn (network w0 url))
       (fetchAndParseFeed url fid).
Proof.
  unfold fetchAndParseFeed, parseFeedUrl.
  apply Safe_tryCatch, Safe_bind, Safe_tryCatch, Safe_await.
  intros w Hw; unfold parser_parseURL; simpl; split; [exact Hw |].
  assert (network w url = network w0 url) as ->
    by (destruct Hw as (_ & -> & _); reflexivity).
  destruct (network w0 url) as [feed | err]; simpl; trivial.
  intros w1 Hw1; split; [exact Hw1 | reflexivity].
Qed.

Lemma Stable_fetchAndStoreFeed (fid : string) :
  Safe (Stable w0) (fun o => isReturn o = refreshes w0 fid)
       (fetchAndStoreFeed fid).
Proof.
  unfold fetchAndStoreFeed.
  apply Safe_tryCatch, Safe_bind, Safe_await.
  intros w Hw. assert (NF : dbFaults w = []) by apply Hw.
  unfold rssFeed_findUnique, prismaCall; rewrite NF.
  cbn [fst snd record rssFeed].
  split; [apply Stable_record, Hw |].
  assert (Hst := find_static fid (rssFeed w) (rssFeed w0) (proj1 Hw)).
  unfold refreshes.
  destruct (find (hasId fid) (rssFeed w)) as [f |] eqn:E;
    destruct (find (hasId fid) (rssFeed w0)) as [f0 |] eqn:E0;
    cbn [option_map] in Hst; try discriminate; [| reflexivity].
  injection Hst as Hid Hurl Hact. rewrite <- Hact, <- Hurl.
  destruct (RssFeed.isActive f); cbn [negb andb]; [| reflexivity].
  apply Safe_bind.
  eapply Safe_mono; [| apply Stable_fetchAndParseFeed].
  intros [parsed | err]; cbn [isReturn]; [| intros <-; reflexivity].
  intros <-.
  apply Safe_bind.
  eapply Safe_mono; [| apply Stable_bulkLoop].
  intros [res | err]; cbn [isReturn]; [intros _ | discriminate].
  apply Safe_bind.
  eapply Safe_mono; [| apply Stable_updateFeedLastFetched; congruence].
  intros [fd | err]; cbn [isReturn]; [reflexivity | discriminate].
Qed.

End Batch.

(** ** The refresh orchestration *)

Lemma Safe_trivial {A} (p : Proc A) :
  Safe (fun _ => True) (fun _ => True) p.
Proof. induction p as [o | X m k IH]; simpl; auto. Qed.

(** Whatever the body does, a function whose [catch] rethrows settles with
    a value or with what the handler throws. *)
Lemma Safe_tryCatch_any {A} (Q : Outcome A -> Prop) (p : Proc A)
  (h : JsError -> Proc A) :
  (forall a, Q (Return a)) ->
  (forall e, Safe (fun _ => True) Q (h e)) ->
  Safe (fun _ => True) Q (tryCatch p h).
Proof.
  intros HR HT; induction p as [[a | e] | X m k IH]; simpl; auto.
Qed.


Lemma allSettled_total {A} (tasks : list (Proc A)) (w : World) :
  exists results w',
    allSettled tasks w = (Return results, w')
    /\ List.length results = List.length tasks.
Proof.
  destruct (Safe_allSettled (fun _ => True)
              (map (fun _ _ => True) tasks) tasks w) as (os & w' & E & HF & _);
    trivial.
  - induction tasks; simpl; constructor; [apply Safe_trivial | assumption].
  - exists (map settle os), w'; split; [exact E |].
    apply Forall2_length in HF. rewrite length_map in *. congruence.
Qed.


Lemma isFulfilled_settle {A} (o : Outcome A) :
  isFulfilled (settle o) = isReturn o.
Proof. destruct o; reflexivity. Qed.

Lemma allSettled_refreshes (feedIds : list string) (w : World) :
  dbFaults w = [] ->
  exists results w',
    allSettled (map fetchAndStoreFeed feedIds) w = (Return results, w')
    /\ map isFulfilled results = map (refreshes w) feedIds
    /\ Stable w w'.
Proof.
  intro NF.
  destruct (Safe_allSettled (Stable w)
              (map (fun fid o => isReturn o = refreshes w fid) feedIds)
              (map fetchAndStoreFeed feedIds) w)
    as (os & w' & E & HF & HS).
  - induction feedIds; simpl; constructor;
      [apply Stable_fetchAndStoreFeed | assumption].
  - unfold Stable; auto.
  - exists (map settle os), w'; split; [exact E |]. split; [| exact HS].
    clear E. revert os HF.
    induction feedIds as [| fid ids IH]; intros os HF;
      inversion HF as [| ? o ? os' H1 H2]; subst; simpl; trivial.
    rewrite isFulfilled_settle, H1; f_equal; auto.
Qed.

Lemma fetch_errors_shape (feedIds : list string) (w w' : World)
  (results : list (PromiseSettledResult FetchResult.t)) (e : JsError) :
  allSettled (map fetchAndStoreFeed feedIds) w = (Return results, w') ->
  In (rejected e) results ->
  exists m, e = Error ("Failed to fetch feed: " ++ m).
Proof.
  intros E Hin.
  set (Q := fun o : Outcome FetchResult.t =>
              forall e, o = Throw e ->
                        exists m, e = Error ("Failed to fetch feed: " ++ m)).
  destruct (Safe_allSettled (fun _ => True) (map (fun _ => Q) feedIds)
              (map fetchAndStoreFeed feedIds) w) as (os & w1 & E1 & HF & _);
    trivial.
  - clear E Hin. induction feedIds as [| fid ids IH]; simpl; constructor;
      trivial.
    unfold fetchAndStoreFeed; apply Safe_tryCatch_any.
    + intros v e' H; discriminate.
    + intros e0 e' H; injection H as <-; eexists; reflexivity.
  - rewrite E in E1; injection E1 as -> _.
    apply in_map_iff in Hin as (o & Ho & Hin).
    assert (HQ : Q o).
    { clear -HF Hin. revert os HF Hin.
      induction feedIds as [| fid ids IH]; intros os HF Hin;
        inversion HF as [| ? o' ? os' H1 H2]; subst; simpl in Hin;
        [contradiction |].
      destruct Hin as [<- | Hin]; [exact H1 | eauto]. }
    destruct o as [v | e0]; [discriminate |].
    injection Ho as <-. now apply HQ.
Qed.

Lemma refreshStale_run (n : nat) (stale : list string) (w : World) :
  stale <> [] ->
  exists results w3,
    allSettled (map fetchAndStoreFeed stale)
      (print ("Refreshing " ++ Js.ofNat (List.length stale)
              ++ " stale feeds (out of " ++ Js.ofNat n ++ " total)...") w)
    = (Return results, w3)
    /\ run (refreshStale n stale) w
       = (Return tt,
          print ("Feed refresh complete: "
                 ++ Js.ofNat (List.length (filter isFulfilled results))
                 ++ " successful, "
                 ++ Js.ofNat (List.length (filter isRejected results))
                 ++ " failed") w3).
Proof.
  intro Hne.
  destruct (allSettled_total (map fetchAndStoreFeed stale)
              (print ("Refreshing " ++ Js.ofNat (List.length stale)
                      ++ " stale feeds (out of " ++ Js.ofNat n
                      ++ " total)...") w)) as (results & w3 & E & _).
  exists results, w3; split; [exact E |].
  unfold refreshStale.
  destruct stale as [| a stale]; [congruence |].
  cbn [List.length Nat.ltb Nat.leb].
  rewrite run_bind. unfold perform at 1, consoleLog at 1. cbn [run].
  rewrite run_bind. unfold Promise_allSettled; rewrite run_await.
  cbn [List.length] in E. rewrite E.
  unfold perform, consoleLog; cbn [run]. reflexivity.
Qed.

Lemma refreshStale_returns (n : nat) (stale : list string) (w : World) :
  exists w', run (refreshStale n stale) w = (Return tt, w').
Proof.
  destruct stale as [| a stale].
  - eexists; reflexivity.
  - destruct (refreshStale_run n (a :: stale) w) as (rs & w3 & _ & ->);
      [discriminate | eauto].
Qed.

Lemma refreshStale_noFault (n : nat) (stale : list string) (w : World) :
  dbFaults w = [] ->
  exists w',
    run (refreshStale n stale) w = (Return tt, w')
    /\ dbFaults w' = []
    /\ (stale <> [] ->
        last (console w') ""
        = ("Feed refresh complete: "
           ++ Js.ofNat (List.length (filter (refreshes w) stale))
           ++ " successful, "
           ++ Js.ofNat (List.length
                          (filter (fun fid => negb (refreshes w fid)) stale))
           ++ " failed")%string).
Proof.
  intro NF. destruct stale as [| a stale].
  - eexists; split; [reflexivity |]. split; [exact NF | congruence].
  - destruct (refreshStale_run n (a :: stale) w) as (rs & w3 & E & ->);
      [discriminate |].
    match type of E with allSettled _ ?w1 = _ =>
      destruct (allSettled_refreshes (a :: stale) w1 NF)
        as (rs' & w3' & E' & Hst & HS)
    end.
    rewrite E in E'; injection E' as <- <-.
    eexists; split; [reflexivity |].
    split; [apply HS |]. intros _.
    cbn [console print]. rewrite last_last.
    change (refreshes (print _ w)) with (refreshes w) in Hst.
    assert (H1 : List.length (filter isFulfilled rs)
                 = List.length (filter (refreshes w) (a :: stale))).
    { clear -Hst. revert rs Hst.
      induction (a :: stale) as [| fid ids IH]; intros [| r rs] Hst;
        simpl in Hst; try discriminate; trivial.
      injection Hst as H1 H2. simpl. rewrite H1.
      destruct (refreshes w fid); simpl; auto. }
    assert (H2 : List.length (filter isRejected rs)
                 = List.length
                     (filter (fun fid => negb (refreshes w fid))
                             (a :: stale))).
    { clear -Hst. revert rs Hst.
      induction (a :: stale) as [| fid ids IH]; intros [| r rs] Hst;
        simpl in Hst; try discriminate; trivial.
      injection Hst as H1 H2. simpl. rewrite <- H1.
      destruct r; simpl; auto. }
    rewrite H1, H2; reflexivity.
Qed.

(** ** What a refresh achieves, whatever runs beside it *)

Section RelyGuarantee.

Variable G : World -> World -> Prop.
Hypothesis G_refl : forall w, G w w.
Hypothesis G_trans : forall w1 w2 w3, G w1 w2 -> G w2 w3 -> G w1 w3.














End RelyGuarantee.








Section RefreshEffects.

Variable w0 : World.
Hypothesis NF0 : dbFaults w0 = [].














End RefreshEffects.





(** ** The pipeline coordinator *)

Lemma prepareFeedsAndArticles_run (params : PrepareFeedsParams.t)
  (w : World) :
  run (prepareFeedsAndArticles params) w =
  match run (getFeedsToRefresh (PrepareFeedsParams.feedIds params)) w with
  | (Return stale, w1) =>
      match run (refreshStale
                   (List.length (PrepareFeedsParams.feedIds params)) stale)
                w1 with
      | (Return _, w2) => run (retrieveOrFail params) w2
      | (Throw e, w2) => (Throw e, w2)
      end
  | (Throw e, w1) => (Throw e, w1)
  end.
Proof.
  unfold prepareFeedsAndArticles. rewrite run_bind.
  destruct (run (getFeedsToRefresh _) w) as [[stale | e] w1]; trivial.
  apply run_bind.
Qed.

Lemma retrieveOrFail_run (params : PrepareFeedsParams.t) (w : World) :
  run (retrieveOrFail params) w =
  match run (getArticlesByFeedsAndDateRange
               (PrepareFeedsParams.feedIds params)
               (PrepareFeedsParams.startDate params)
               (PrepareFeedsParams.endDate params)
               (Some ARTICLE_LIMIT)) w with
  | (Return [], w') => (Throw noArticlesError, w')
  | (Return (a :: rest), w') => (Return (a :: rest), w')
  | (Throw e, w') => (Throw e, w')
  end.
Proof.
  unfold retrieveOrFail. rewrite run_bind.
  destruct (run (getArticlesByFeedsAndDateRange _ _ _ _) w)
    as [[[| a rest] | e] w']; reflexivity.
Qed.

(** C5 (amended).  Once the classifier has answered, the refresh step
    returns and the coordinator's result is decided by the retrieval alone:
    when the retrieval yields no article the coordinator throws the error
    "No articles found for the selected feeds and date range", otherwise it
    returns the articles.  That error has no class of its own: it is a plain
    [Error], and so is a per-feed fetch error, "Failed to fetch feed: ...",
    from which it differs by its message only.  A per-feed fetch error stays
    in the settled result of its feed: when the database does not fail, the
    only error the coordinator throws is the no-articles one. *)
Theorem prepareFeedsAndArticles_empty_result :
  (forall (params : PrepareFeedsParams.t) (w w1 : World)
          (stale : list string),
      run (getFeedsToRefresh (PrepareFeedsParams.feedIds params)) w
      = (Return stale, w1) ->
      exists w2,
        run (refreshStale (List.length (PrepareFeedsParams.feedIds params))
                          stale) w1
        = (Return tt, w2)
        /\ forall articles w3,
            run (getArticlesByFeedsAndDateRange
                   (PrepareFeedsParams.feedIds params)
                   (PrepareFeedsParams.startDate params)
                   (PrepareFeedsParams.endDate params)
                   (Some ARTICLE_LIMIT)) w2
            = (Return articles, w3) ->
            run (prepareFeedsAndArticles params) w
            = (match articles with
               | [] => Throw noArticlesError
               | _ :: _ => Return articles
               end, w3))
  /\
  (forall (feedIds : list string) (w w' : World)
          (results : list (PromiseSettledResult FetchResult.t))
          (e : JsError),
      allSettled (map fetchAndStoreFeed feedIds) w = (Return results, w') ->
      In (rejected e) results ->
      (exists m, e = Error ("Failed to fetch feed: " ++ m))
      /\ e <> noArticlesError
      /\ classOf e = classOf noArticlesError)
  /\
  (forall (params : PrepareFeedsParams.t) (w : World),
      dbFaults w = [] ->
      fst (run (prepareFeedsAndArticles params) w) = Throw noArticlesError
      \/ exists a rest,
           fst (run (prepareFeedsAndArticles params) w)
           = Return (a :: rest))
  /\
  (noArticlesError
   = Error "No articles found for the selected feeds and date range"
   /\ classOf noArticlesError = PlainErrorClass).
Proof.
  split; [| split; [| split; [| split; reflexivity]]].
  - intros params w w1 stale Hc.
    destruct (refreshStale_returns
                (List.length (PrepareFeedsParams.feedIds params)) stale w1)
      as (w2 & Hr).
    exists w2; split; [exact Hr |].
    intros articles w3 Ha.
    rewrite prepareFeedsAndArticles_run, Hc, Hr, retrieveOrFail_run, Ha.
    destruct articles; reflexivity.
  - intros feedIds w w' results e E Hin.
    destruct (fetch_errors_shape feedIds w w' results e E Hin) as (m & ->).
    split; [eauto | split; [discriminate | reflexivity]].
  - intros params w NF.
    rewrite prepareFeedsAndArticles_run. unfold getFeedsToRefresh.
    destruct (getFeedsToRefreshWithin_noFault CACHE_WINDOW
                (PrepareFeedsParams.feedIds params) w NF)
      as (w1 & -> & HS).
    assert (NF1 : dbFaults w1 = [])
      by (destruct HS as (_ & _ & -> & _); exact NF).
    destruct (refreshStale_noFault
                (List.length (PrepareFeedsParams.feedIds params))
                (staleIds CACHE_WINDOW (clock w) (rssFeed w)
                   (PrepareFeedsParams.feedIds params)) w1 NF1)
      as (w2 & -> & NF2 & _).
    rewrite retrieveOrFail_run.
    destruct (getArticles_noFault (PrepareFeedsParams.feedIds params)
                (PrepareFeedsParams.startDate params)
                (PrepareFeedsParams.endDate params) (Some ARTICLE_LIMIT) w2)
      as (result & w3 & ->); [rewrite NF2; reflexivity |].
    destruct result as [| a rest]; [left | right; exists a, rest];
      reflexivity.
Qed.

(** * Instances on concrete inputs *)

(** Three sightings of guid [g], by feeds [A], [B] and [A] again, on the
    empty collection. *)
Lemma createRssArticle_one_row_per_guid_witness :
  (NoDup (map RssArticle.guid (rssArticle Sample.world))
   /\ ~ In "g" (map RssArticle.guid (rssArticle Sample.world))
   /\ dbFaults Sample.world = [])
  /\ exists r1 w1 r2 w2 r3 w3,
       run (createRssArticle (Sample.article "A" "g" 5000%Z)) Sample.world
       = (Return r1, w1)
       /\ run (createRssArticle (Sample.article "B" "g" 5000%Z)) w1
          = (Return r2, w2)
       /\ run (createRssArticle (Sample.article "A" "g" 6000%Z)) w2
          = (Return r3, w3)
       /\ RssArticle.sourceFeedIds r1 = ["A"]
       /\ RssArticle.sourceFeedIds r2 = ["A"; "B"]
       /\ sourceCountOf r2 = 2%nat
       /\ RssArticle.sourceFeedIds r3 = ["A"; "B"; "A"]
       /\ sourceCountOf r3 = 3%nat
       /\ find (hasGuid "g") (rssArticle w3) = Some r3
       /\ List.length (filter (hasGuid "g") (rssArticle w3)) = 1%nat
       /\ List.length (rssArticle w3)
          = S (List.length (rssArticle Sample.world)).
Proof.
  assert (H1 : NoDup (map RssArticle.guid (rssArticle Sample.world)))
    by constructor.
  assert (H2 : ~ In "g" (map RssArticle.guid (rssArticle Sample.world)))
    by (intros []).
  split; [split; [exact H1 | split; [exact H2 | reflexivity]] |].
  exact (proj2 createRssArticle_one_row_per_guid
           (Sample.article "A" "g" 5000%Z) (Sample.article "B" "g" 5000%Z)
           (Sample.article "A" "g" 6000%Z) Sample.world
           H1 H2 eq_refl eq_refl eq_refl eq_refl).
Defined.

(** A second sighting, by feed [B] and with another publish date, of the
    guid feed [A] sighted first. *)
Lemma createRssArticle_keeps_existing_content_witness :
  find (hasGuid "g") (rssArticle Sample.sighted)
  = Some (articleOfData (Sample.article "A" "g" 5000%Z))
  /\ exists row',
       find (hasGuid "g")
         (rssArticle
            (snd (run (createRssArticle (Sample.article "B" "g" 6000%Z))
                      Sample.sighted)))
       = Some row'
       /\ RssArticle.pubDate row' = 5000%Z
       /\ RssArticle.feedId row' = "A"
       /\ RssArticle.sourceFeedIds row' = ["A"; "B"].
Proof.
  split; [reflexivity |].
  destruct (createRssArticle_keeps_existing_content
              (Sample.article "B" "g" 6000%Z) Sample.sighted
              (articleOfData (Sample.article "A" "g" 5000%Z)) eq_refl)
    as (row' & Hfind & Hsame & _ & _ & Hrow).
  exists row'; split; [exact Hfind |].
  destruct Hsame as (_ & Hfeed & _ & _ & _ & _ & Hdate & _).
  split; [exact Hdate |]. split; [exact Hfeed |].
  exact (proj2 Hrow).
Defined.

(** A batch of one re-sighting. *)
Lemma bulkCreateRssArticles_counts_and_order_witness :
  (find (hasGuid "g") (rssArticle Sample.sighted)
   = Some (articleOfData (Sample.article "A" "g" 5000%Z))
   /\ hd None (dbFaults Sample.sighted) = None)
  /\ fst (run (bulkCreateRssArticles [Sample.article "B" "g" 6000%Z])
              Sample.sighted)
     = Return (BulkOperationResult.mk 1 0 0).
Proof.
  split; [split; reflexivity |].
  exact (proj2 bulkCreateRssArticles_counts_and_order
           (Sample.article "B" "g" 6000%Z)
           (articleOfData (Sample.article "A" "g" 5000%Z))
           Sample.sighted eq_refl eq_refl).
Defined.

(** The two items of the sample document, and an Atom entry, which is
    keyed by its link. *)
Lemma extractArticles_identity_key_witness :
  ArticleData.guid (extractArticle 0%Z "A" Sample.itemWithGuid)
  = "urn:post:1"
  /\ ArticleData.guid (extractArticle 0%Z "A" Sample.itemBare) = "A-Second"
  /\ ArticleData.guid (extractArticle 0%Z "A" Inputs.atomEntry)
     = "https://a.example/e1".
Proof.
  split; [| split].
  - apply (proj1 (proj2 (extractArticles_identity_key 0%Z "A"
                           Sample.itemWithGuid)));
      [reflexivity | discriminate].
  - apply (proj1 (proj2 (proj2 (proj2 (extractArticles_identity_key 0%Z "A"
                                         Sample.itemBare)))));
      reflexivity.
  - apply (proj1 (proj2 (proj2 (extractArticles_identity_key 0%Z "A"
                                  Inputs.atomEntry))));
      [reflexivity | reflexivity | discriminate].
Defined.

(** C8, as the claim states it, fails on the entries of an Atom feed: an
    entry has a native id, and its key is its link, or the feed id and the
    title when it has no link. *)
Lemma extractArticles_identity_key_counterexample :
  nativeId Inputs.atomEntry = Some "urn:entry:1"
  /\ ArticleData.guid (extractArticle 0%Z "A" Inputs.atomEntry)
     = "https://a.example/e1"
  /\ nativeId Inputs.atomEntryNoLink = Some "urn:entry:2"
  /\ ArticleData.guid (extractArticle 0%Z "A" Inputs.atomEntryNoLink)
     = "A-Entry two"
  /\ ~ (forall (feedId : string) (item : Item.t) (g : string),
          nativeId item = Some g -> g <> "" ->
          ArticleData.guid (extractArticle 0%Z feedId item) = g).
Proof.
  repeat split; try reflexivity.
  intro H.
  specialize (H "A" Inputs.atomEntry "urn:entry:1" eq_refl).
  discriminate H. discriminate.
Qed.

(** The retrieval of the articles of feed [A] published between 0 and
    10000, at most three of them, on the collection of three: the article of
    feed [B] that feed [A] sighted too comes first, with a source count of
    2, then the older article of feed [A]; the third one is out of the
    window. *)
Lemma getArticlesByFeedsAndDateRange_window_witness :
  run (getArticlesByFeedsAndDateRange ["A"] 0%Z 10000%Z (Some 3%nat))
      Sample.stocked
  = (Return
       [ScoredArticle.mk
          (RssArticle.push "A" (articleOfData (Sample.article "B" "g2" 9000%Z)))
          (Some (FeedRef.mk "B" None "https://b.example/rss")) 2%nat;
        ScoredArticle.mk
          (articleOfData (Sample.article "A" "g1" 5000%Z))
          (Some (FeedRef.mk "A" (Some "Feed A") "https://a.example/rss"))
          1%nat],
     record ArticleFindMany Sample.stocked)
  /\ forall a,
       In a (rssArticle Sample.stocked) ->
       requested ["A"] a ->
       (0 <= RssArticle.pubDate a <= 10000)%Z ->
       a = RssArticle.push "A" (articleOfData (Sample.article "B" "g2" 9000%Z))
       \/ a = articleOfData (Sample.article "A" "g1" 5000%Z).
Proof.
  assert (Hrun :
    run (getArticlesByFeedsAndDateRange ["A"] 0%Z 10000%Z (Some 3%nat))
        Sample.stocked
    = (Return
         [ScoredArticle.mk
            (RssArticle.push "A"
               (articleOfData (Sample.article "B" "g2" 9000%Z)))
            (Some (FeedRef.mk "B" None "https://b.example/rss")) 2%nat;
          ScoredArticle.mk
            (articleOfData (Sample.article "A" "g1" 5000%Z))
            (Some (FeedRef.mk "A" (Some "Feed A") "https://a.example/rss"))
            1%nat],
       record ArticleFindMany Sample.stocked)) by reflexivity.
  split; [exact Hrun |].
  intros a Ha Hreq Hwin.
  destruct (getArticlesByFeedsAndDateRange_window _ _ _ _ _ _ _ Hrun)
    as (_ & _ & _ & Hall & _).
  destruct (Hall a Ha Hreq Hwin) as [[H | [H | []]] | [Hlen _]].
  - left; symmetry; exact H.
  - right; symmetry; exact H.
  - discriminate Hlen.
Defined.

(** Feed [F2] alone, under the window of 3 hours and under one of 30
    minutes, with feed [F1] of the same URL fetched one hour ago. *)
Lemma getFeedsToRefresh_classifies_by_url_witness :
  (rssFeed Sample.shared = [Sample.F1; Sample.F2]
   /\ RssFeed.id Sample.F1 <> RssFeed.id Sample.F2
   /\ RssFeed.url Sample.F1 = RssFeed.url Sample.F2
   /\ RssFeed.lastFetched Sample.F1
      = Some (clock Sample.shared - hours 1)%Z
   /\ dbFaults Sample.shared = [])
  /\ fst (run (getFeedsToRefresh ["F2"]) Sample.shared) = Return []
  /\ fst (run (getFeedsToRefreshWithin (minutes 30) ["F2"]) Sample.shared)
     = Return ["F2"].
Proof.
  assert (Hid : RssFeed.id Sample.F1 <> RssFeed.id Sample.F2)
    by discriminate.
  split; [repeat split; trivial |].
  destruct (proj2 (proj2 getFeedsToRefresh_classifies_by_url)
              Sample.F1 Sample.F2 Sample.shared
              eq_refl Hid eq_refl eq_refl eq_refl) as [H3 H30].
  split; [exact H3 |].
  apply H30. intros t Ht; discriminate Ht.
Defined.

(** The windows of 3 hours and of 30 minutes on the same collection. *)
Lemma getFeedsToRefresh_monotone_in_window_witness :
  ((minutes 30 <= hours 3)%Z /\ dbFaults Sample.shared = [])
  /\ exists stale stale' w1 w2,
       run (getFeedsToRefreshWithin (hours 3) ["F1"; "F2"]) Sample.shared
       = (Return stale, w1)
       /\ run (getFeedsToRefreshWithin (minutes 30) ["F1"; "F2"])
              Sample.shared
          = (Return stale', w2)
       /\ forall fid, In fid stale -> In fid stale'.
Proof.
  assert (Hle : (minutes 30 <= hours 3)%Z) by discriminate.
  split; [split; [exact Hle | reflexivity] |].
  destruct (getFeedsToRefresh_monotone_in_window (hours 3) (minutes 30)
              ["F1"; "F2"] Sample.shared Hle eq_refl)
    as (stale & stale' & w1 & w2 & R1 & R2 & Hincl & _).
  exists stale, stale', w1, w2; auto.
Defined.


(** Feed [B] alone, which is inactive, on the empty collection: the
    classifier finds it stale, its refresh fails, the retrieval finds
    nothing and the coordinator throws the no-articles error. *)
Lemma prepareFeedsAndArticles_empty_result_witness :
  fst (run (getFeedsToRefresh ["B"]) Sample.world) = Return ["B"]
  /\ fst (run (prepareFeedsAndArticles
                 (PrepareFeedsParams.mk ["B"] 0%Z 10000%Z)) Sample.world)
     = Throw noArticlesError.
Proof.
  split; [reflexivity |].
  destruct (proj1 prepareFeedsAndArticles_empty_result
              (PrepareFeedsParams.mk ["B"] 0%Z 10000%Z) Sample.world
              (snd (run (getFeedsToRefresh ["B"]) Sample.world)) ["B"]
              eq_refl) as (w2 & Hr & Hall).
  assert (E : w2 = snd (run (refreshStale 1 ["B"])
                          (snd (run (getFeedsToRefresh ["B"])
                                    Sample.world)))).
  { change (refreshStale (List.length
              (PrepareFeedsParams.feedIds
                 (PrepareFeedsParams.mk ["B"] 0%Z 10000%Z))) ["B"])
      with (refreshStale 1 ["B"]) in Hr.
    rewrite Hr; reflexivity. }
  rewrite (Hall [] (snd (run (getArticlesByFeedsAndDateRange ["B"] 0%Z
                                10000%Z (Some ARTICLE_LIMIT)) w2))).
  - reflexivity.
  - rewrite E; reflexivity.
Defined.

(** C5, as the claim states it, fails: the error of the empty retrieval and
    the error of the refresh of the inactive feed [B] are of one class; no
    test of the class of an error tells them apart. *)
Lemma prepareFeedsAndArticles_empty_result_counterexample :
  fst (run (prepareFeedsAndArticles
              (PrepareFeedsParams.mk ["B"] 0%Z 10000%Z)) Sample.world)
  = Throw noArticlesError
  /\ fst (run (fetchAndStoreFeed "B") Sample.world)
     = Throw (Error "Failed to fetch feed: Feed B is not active")
  /\ classOf (Error "Failed to fetch feed: Feed B is not active")
     = classOf noArticlesError
  /\ ~ (forall (feedId : string) (w : World) (e : JsError),
          fst (run (fetchAndStoreFeed feedId) w) = Throw e ->
          classOf e <> classOf noArticlesError).
Proof.
  split; [vm_compute; reflexivity |].
  split; [vm_compute; reflexivity |].
  split; [reflexivity |].
  intro H.
  apply (H "B" Sample.world
           (Error "Failed to fetch feed: Feed B is not active"));
    [vm_compute; reflexivity | reflexivity].
Qed.

(** * Further properties *)

(** ** Database error wrapping *)

(** X1.  [wrapDatabaseOperation] hands on the value and the effects of an
    operation that returns.  When the operation throws, the wrapper throws,
    from the same world, a plain [Error] whose message is "Failed to", the
    name of the operation, a colon and a detail: the text of the Prisma code
    for a Prisma error (P2002, P2025, P2003, or the code itself), the message
    of the cause for any other [Error], "Unknown database error" for a
    thrown value that is not an [Error]. *)
Theorem wrapDatabaseOperation_contract :
  forall (A : Type) (operation : Proc A) (name : string) (w : World),
    match run operation w with
    | (Return a, w') =>
        run (wrapDatabaseOperation operation name) w = (Return a, w')
    | (Throw e, w') =>
        exists detail,
          run (wrapDatabaseOperation operation name) w
          = (Throw (Error ("Failed to " ++ name ++ ": " ++ detail)), w')
          /\ detail
             = match e with
               | PrismaClientKnownRequestError code _ =>
                   if code =? "P2002" then "Duplicate entry found"
                   else if code =? "P2025" then "Record not found"
                   else if code =? "P2003"
                        then "Foreign key constraint failed"
                        else ("Database error (" ++ code ++ ")")%string
               | Error m => m
               | Thrown _ => "Unknown database error"
               end
    end.
Proof.
  intros A operation name w.
  unfold wrapDatabaseOperation; rewrite run_tryCatch.
  destruct (run operation w) as [[a | e] w']; trivial.
  unfold handleDatabaseError, handlePrismaError.
  destruct e as [code m | m | v]; cbn [isPrismaError errorCode messageOr].
  - destruct (code =? "P2002"); [eexists; split; reflexivity |].
    destruct (code =? "P2025"); [eexists; split; reflexivity |].
    destruct (code =? "P2003"); eexists; split; reflexivity.
  - eexists; split; reflexivity.
  - eexists; split; reflexivity.
Qed.

(** ** The syndication parser *)

Lemma fetchAndParseFeed_run (url feedId : string) (w : World) :
  run (fetchAndParseFeed url feedId) w =
  match network w url with
  | Return feed =>
      (Return (ParsedFeed.mk (extractFeedMetadata feed)
                 (extractArticles (clock w) feed feedId)
                 (List.length (ParserOutput.items feed))), w)
  | Throw e =>
      (Throw (Error ("Failed to fetch or parse RSS feed: "
                     ++ messageOr "Unknown error" e)), w)
  end.
Proof.
  unfold fetchAndParseFeed, parseFeedUrl.
  rewrite run_tryCatch, run_bind, run_tryCatch, run_await.
  unfold parser_parseURL.
  destruct (network w url) as [feed | e]; reflexivity.
Qed.

(** X2.  [validateFeedUrl] never throws and touches nothing: it answers
    [true] exactly when fetching and parsing the feed of that URL, for
    whatever feed id, succeeds in the same world. *)
Theorem validateFeedUrl_agrees_with_fetch :
  forall (url feedId : string) (w : World),
    run (validateFeedUrl url) w
    = (Return (isReturn (fst (run (fetchAndParseFeed url feedId) w))), w).
Proof.
  intros url feedId w. rewrite fetchAndParseFeed_run.
  unfold validateFeedUrl.
  rewrite run_tryCatch, run_bind, run_await. unfold parser_parseURL.
  destruct (network w url); reflexivity.
Qed.

(** X3.  A fetch that succeeds leaves the world as it was and returns one
    article per item of the document, in the order of the document, each
    under the identity key of its item and with a guid and a title that are
    not empty; the item count is the number of articles and the title of
    the metadata is not empty.  A fetch that fails leaves the world as it
    was and throws an [Error] "Failed to fetch or parse RSS feed: ..."
    carrying the message of the cause. *)
Theorem fetchAndParseFeed_shape :
  forall (url feedId : string) (w : World),
    snd (run (fetchAndParseFeed url feedId) w) = w
    /\ match fst (run (fetchAndParseFeed url feedId) w),
             network w url with
       | Return parsed, Return feed =>
           map ArticleData.guid (ParsedFeed.articles parsed)
           = map (extractGuid feedId) (ParserOutput.items feed)
           /\ ParsedFeed.itemCount parsed
              = List.length (ParsedFeed.articles parsed)
           /\ Forall (fun a => ArticleData.guid a <> ""
                               /\ ArticleData.title a <> "")
                     (ParsedFeed.articles parsed)
           /\ FeedMetadata.title (ParsedFeed.metadata parsed) <> ""
       | Throw e, Throw cause =>
           e = Error ("Failed to fetch or parse RSS feed: "
                      ++ messageOr "Unknown error" cause)
       | _, _ => False
       end.
Proof.
  intros url feedId w. rewrite fetchAndParseFeed_run.
  destruct (network w url) as [feed | cause]; simpl; split; trivial.
  unfold extractArticles.
  split; [rewrite map_map; reflexivity |].
  split; [now rewrite length_map |].
  split.
  - apply Forall_forall; intros a Ha.
    apply in_map_iff in Ha as (item & <- & _); simpl; split.
    + apply orElse_nonempty, composite_key_nonempty.
    + apply orElse_nonempty; discriminate.
  - apply orElse_nonempty; discriminate.
Qed.

Lemma or_left (a b : option string) :
  Js.truthy a = true -> Js.or a b = a.
Proof. unfold Js.or; now intros ->. Qed.

Lemma or_right (a b : option string) :
  Js.truthy a = false -> Js.or a b = b.
Proof. unfold Js.or; now intros ->. Qed.

Lemma truthy_or (a b : option string) :
  Js.truthy (Js.or a b) = Js.truthy a || Js.truthy b.
Proof.
  unfold Js.or; destruct (Js.truthy a) eqn:E; [now rewrite E | reflexivity].
Qed.

(** X4.  The normalised fields follow fixed priority lists.  The content
    is the first truthy one of the item's content, [content:encoded] and
    description, else its summary; the summary is the first truthy one of
    the content snippet and the description, else the item's summary; the
    author is the creator when truthy, else the item's author; so the
    content (the summary) is truthy exactly when one of its four (three)
    candidates is. *)
Theorem extractArticles_field_priority :
  forall (now : Z) (feedId : string) (item : Item.t),
    ArticleData.content (extractArticle now feedId item)
    = firstTruthyOr [Item.content item; Item.contentEncoded item;
                     Item.description item] (Item.summary item)
    /\ ArticleData.summary (extractArticle now feedId item)
       = firstTruthyOr [Item.contentSnippet item; Item.description item]
                       (Item.summary item)
    /\ ArticleData.author (extractArticle now feedId item)
       = firstTruthyOr [Item.creator item] (Item.author item)
    /\ Js.truthy (ArticleData.content (extractArticle now feedId item))
       = existsb Js.truthy [Item.content item; Item.contentEncoded item;
                            Item.description item; Item.summary item]
    /\ Js.truthy (ArticleData.summary (extractArticle now feedId item))
       = existsb Js.truthy [Item.contentSnippet item; Item.description item;
                            Item.summary item].
Proof.
  intros now feedId item.
  cbn [extractArticle ArticleData.content ArticleData.summary
       ArticleData.author].
  unfold firstTruthyOr; cbn [find existsb].
  rewrite !truthy_or, !orb_false_r, <- !orb_assoc.
  repeat split.
  - destruct (Js.truthy (Item.content item)) eqn:E1;
      [now rewrite !(or_left _ _ E1) |].
    rewrite (or_right _ _ E1).
    destruct (Js.truthy (Item.contentEncoded item)) eqn:E2;
      [now rewrite !(or_left _ _ E2) |].
    rewrite (or_right _ _ E2).
    destruct (Js.truthy (Item.description item)) eqn:E3;
      [now rewrite (or_left _ _ E3) | now rewrite (or_right _ _ E3)].
  - destruct (Js.truthy (Item.contentSnippet item)) eqn:E1;
      [now rewrite !(or_left _ _ E1) |].
    rewrite (or_right _ _ E1).
    destruct (Js.truthy (Item.description item)) eqn:E2;
      [now rewrite (or_left _ _ E2) | now rewrite (or_right _ _ E2)].
  - destruct (Js.truthy (Item.creator item)) eqn:E1;
      [now rewrite (or_left _ _ E1) | now rewrite (or_right _ _ E1)].
Qed.

(** X5.  An extracted article has an image URL exactly when its item has an
    enclosure with a URL that is not empty and a declared type that starts
    with [image/]; the image URL is then the URL of the enclosure. *)
Theorem extractArticles_image_only_from_image_enclosure :
  forall (now : Z) (feedId : string) (item : Item.t) (u : string),
    ArticleData.imageUrl (extractArticle now feedId item) = Some u
    <-> exists enc t,
          Item.enclosure item = Some enc
          /\ Enclosure.url enc = Some u
          /\ u <> ""
          /\ Enclosure.type enc = Some t
          /\ String.prefix "image/" t = true.
Proof.
  intros now feedId item u.
  cbn [extractArticle ArticleData.imageUrl].
  destruct (Item.enclosure item) as [[eu et] |]; cbn [Enclosure.url
    Enclosure.type]; [| split; [discriminate | intros (? & ? & H & _);
    discriminate]].
  unfold Js.truthy. split.
  - destruct eu as [s |]; [| discriminate].
    destruct (s =? "") eqn:Es; [discriminate |].
    destruct et as [t |]; [| discriminate].
    destruct (String.prefix "image/" t) eqn:Ep; [| discriminate].
    cbn [negb andb]. intro H; injection H as <-.
    exists (Enclosure.mk (Some s) (Some t)), t.
    apply String.eqb_neq in Es. repeat split; trivial.
  - intros (enc & t & He & Hu & Hne & Ht & Hp).
    injection He as <-. cbn [Enclosure.url Enclosure.type] in Hu, Ht.
    subst eu et. apply String.eqb_neq in Hne. rewrite Hne, Hp. reflexivity.
Qed.

(** ** The refresh of one feed, step by step *)

Lemma sameEnv_refl (w : World) : sameEnv w w.
Proof. unfold sameEnv; tauto. Qed.

Lemma sameEnv_trans (w1 w2 w3 : World) :
  sameEnv w1 w2 -> sameEnv w2 w3 -> sameEnv w1 w3.
Proof. unfold sameEnv; intuition congruence. Qed.

Lemma prismaCall_sameEnv {A} (c : DbCall) (op : World -> Outcome A * World)
  (w : World) :
  (forall w0, sameEnv w0 (snd (op w0))) ->
  sameEnv w (snd (prismaCall c op w)).
Proof.
  intro Hop; unfold prismaCall.
  destruct (dbFaults w) as [| [e |] rest]; simpl.
  - eapply sameEnv_trans; [| apply Hop]. unfold sameEnv; simpl; tauto.
  - unfold sameEnv; simpl; tauto.
  - eapply sameEnv_trans; [| apply Hop]. unfold sameEnv; simpl; tauto.
Qed.

Lemma createRssArticle_sameEnv (data : ArticleCreateData.t) (w : World) :
  sameEnv w (snd (run (createRssArticle data) w)).
Proof.
  unfold createRssArticle, wrapDatabaseOperation.
  rewrite run_tryCatch, run_await. unfold rssArticle_upsert.
  match goal with |- context [prismaCall ?c ?op w] =>
    assert (H : sameEnv w (snd (prismaCall c op w)))
      by (apply prismaCall_sameEnv; intro w0; cbv beta zeta;
          destruct (find _ (rssArticle w0)); unfold sameEnv; simpl; tauto);
    destruct (prismaCall c op w) as [[row | e] w1]
  end; [exact H |].
  destruct (handleDatabaseError_plain (A:=RssArticle.t) e
              "create RSS article" w1) as (msg & ->).
  exact H.
Qed.

Lemma bulkLoop_sameEnv (articles : list ArticleCreateData.t) :
  forall (acc : BulkOperationResult.t) (w : World),
    sameEnv w (snd (run (bulkLoop articles acc) w)).
Proof.
  induction articles as [| a rest IH]; intros [c s e] w.
  - apply sameEnv_refl.
  - cbn [bulkLoop]. rewrite run_bind, bulkTurn_run.
    assert (H := createRssArticle_sameEnv a w).
    destruct (run (createRssArticle a) w) as [[row | err] w1]; simpl in H;
      (eapply sameEnv_trans; [exact H | apply IH]).
Qed.

Lemma rssFeed_findUnique_run (feedId : string) (w : World) :
  exists w1,
    (rssFeed_findUnique feedId w
     = (Return (find (hasId feedId) (rssFeed w)), w1)
     \/ exists e, hd None (dbFaults w) = Some e
                  /\ rssFeed_findUnique feedId w = (Throw e, w1))
    /\ rssFeed w1 = rssFeed w /\ rssArticle w1 = rssArticle w
    /\ sameEnv w w1
    /\ dbFaults w1 = tl (dbFaults w)
    /\ dbTrace w1 = dbTrace w ++ [FeedFindUnique feedId].
Proof.
  unfold rssFeed_findUnique, prismaCall.
  destruct (dbFaults w) as [| [e |] rest] eqn:E.
  - exists (record (FeedFindUnique feedId) w).
    unfold sameEnv; simpl; repeat split; auto.
  - exists (record (FeedFindUnique feedId) (setFaults rest w)).
    unfold sameEnv; simpl; repeat split; eauto.
  - exists (record (FeedFindUnique feedId) (setFaults rest w)).
    unfold sameEnv; simpl; repeat split; auto.
Qed.

Lemma updateFeedLastFetched_run (feedId : string) (w : World) :
  exists w',
    sameEnv w w' /\ rssArticle w' = rssArticle w
    /\ dbFaults w' = tl (dbFaults w)
    /\ dbTrace w' = dbTrace w ++ [FeedUpdate feedId]
    /\ ((exists f,
           find (hasId feedId) (rssFeed w) = Some f
           /\ hd None (dbFaults w) = None
           /\ run (updateFeedLastFetched feedId) w
              = (Return (RssFeed.withLastFetched (clock w) f), w')
           /\ rssFeed w'
              = updateUnique (hasId feedId)
                  (RssFeed.withLastFetched (clock w)) (rssFeed w))
        \/ ((find (hasId feedId) (rssFeed w) = None
             \/ hd None (dbFaults w) <> None)
            /\ run (updateFeedLastFetched feedId) w
               = (Throw (Error "Failed to update feed timestamp in database"),
                  w')
            /\ rssFeed w' = rssFeed w)).
Proof.
  unfold updateFeedLastFetched.
  rewrite run_tryCatch, run_bind.
  unfold perform at 1; cbn [run newDate]. rewrite run_await.
  unfold rssFeed_update, prismaCall. simpl.
  destruct (dbFaults w) as [| [e |] rest] eqn:EF; simpl.
  - destruct (find (hasId feedId) (rssFeed w)) as [f |] eqn:E.
    + exists (setFeeds
                (updateUnique (hasId feedId)
                   (RssFeed.withLastFetched (clock w)) (rssFeed w))
                (record (FeedUpdate feedId) w)).
      unfold sameEnv; simpl; repeat split; trivial.
      left; exists f; auto.
    + exists (record (FeedUpdate feedId) w).
      unfold sameEnv; simpl; repeat split; trivial.
      right; auto.
  - exists (record (FeedUpdate feedId) (setFaults rest w)).
    unfold sameEnv; simpl; repeat split; trivial.
    right; repeat split; trivial. right; discriminate.
  - destruct (find (hasId feedId) (rssFeed w)) as [f |] eqn:E.
    + exists (setFeeds
                (updateUnique (hasId feedId)
                   (RssFeed.withLastFetched (clock w)) (rssFeed w))
                (record (FeedUpdate feedId) (setFaults rest w))).
      unfold sameEnv; simpl; repeat split; trivial.
      left; exists f; auto.
    + exists (record (FeedUpdate feedId) (setFaults rest w)).
      unfold sameEnv; simpl; repeat split; trivial.
      right; auto.
Qed.

Lemma fetchAndStoreFeed_run (feedId : string) (w : World) :
  run (fetchAndStoreFeed feedId) w =
  match rssFeed_findUnique feedId w with
  | (Throw e, w1) =>
      (Throw (Error ("Failed to fetch feed: "
                     ++ messageOr "Unknown error" e)), w1)
  | (Return None, w1) =>
      (Throw (Error ("Failed to fetch feed: Feed with ID " ++ feedId
                     ++ " not found")), w1)
  | (Return (Some feed), w1) =>
      if negb (RssFeed.isActive feed) then
        (Throw (Error ("Failed to fetch feed: Feed " ++ feedId
                       ++ " is not active")), w1)
      else
        match network w1 (RssFeed.url feed) with
        | Throw cause =>
            (Throw (Error ("Failed to fetch feed: "
                           ++ "Failed to fetch or parse RSS feed: "
                           ++ messageOr "Unknown error" cause)), w1)
        | Return doc =>
            match run (bulkCreateRssArticles
                         (batchOf (clock w1) feed feedId doc)) w1 with
            | (Throw e, w2) =>
                (Throw (Error ("Failed to fetch feed: "
                               ++ messageOr "Unknown error" e)), w2)
            | (Return result, w2) =>
                match run (updateFeedLastFetched feedId) w2 with
                | (Return _, w3) =>
                    (Return (FetchResult.mk (extractFeedMetadata doc)
                               (BulkOperationResult.created result)
                               (BulkOperationResult.skipped result)
                               (BulkOperationResult.errors result)), w3)
                | (Throw e, w3) =>
                    (Throw (Error ("Failed to fetch feed: "
                                   ++ messageOr "Unknown error" e)), w3)
                end
            end
        end
  end.
Proof.
  unfold fetchAndStoreFeed.
  rewrite run_tryCatch, run_bind, run_await.
  destruct (rssFeed_findUnique feedId w) as [[[feed |] | e] w1];
    [| reflexivity | reflexivity].
  destruct (RssFeed.isActive feed); cbn [negb]; [| reflexivity].
  rewrite run_bind, fetchAndParseFeed_run.
  destruct (network w1 (RssFeed.url feed)) as [doc | cause];
    [| reflexivity].
  rewrite run_bind. cbn [ParsedFeed.articles ParsedFeed.metadata].
  fold (batchOf (clock w1) feed feedId doc).
  destruct (run (bulkCreateRssArticles (batchOf (clock w1) feed feedId doc))
                w1) as [[result | e] w2]; [| reflexivity].
  rewrite run_bind.
  destruct (run (updateFeedLastFetched feedId) w2) as [[fd | e] w3];
    reflexivity.
Qed.

(** X6.  With a database that answers, the refresh of a feed id that has no
    record, or whose record is inactive, is rejected with the error "Failed
    to fetch feed: Feed with ID ... not found" or "Failed to fetch feed:
    Feed ... is not active" after the one lookup of the record: nothing is
    fetched, no article is stored and no timestamp is written. *)
Theorem fetchAndStoreFeed_rejects_missing_or_inactive :
  forall (feedId : string) (w : World),
    dbFaults w = [] ->
    match find (hasId feedId) (rssFeed w) with
    | None =>
        run (fetchAndStoreFeed feedId) w
        = (Throw (Error ("Failed to fetch feed: Feed with ID " ++ feedId
                         ++ " not found")),
           record (FeedFindUnique feedId) w)
    | Some f =>
        RssFeed.isActive f = false ->
        run (fetchAndStoreFeed feedId) w
        = (Throw (Error ("Failed to fetch feed: Feed " ++ feedId
                         ++ " is not active")),
           record (FeedFindUnique feedId) w)
    end.
Proof.
  intros feedId w NF. rewrite fetchAndStoreFeed_run.
  unfold rssFeed_findUnique, prismaCall; rewrite NF.
  cbn [record rssFeed].
  destruct (find (hasId feedId) (rssFeed w)) as [f |]; [| reflexivity].
  intros ->; reflexivity.
Qed.

Lemma fetchAndStoreFeed_outcome (feedId : string) (w : World) :
  sameEnv w (snd (run (fetchAndStoreFeed feedId) w))
  /\ match run (fetchAndStoreFeed feedId) w with
     | (Return r, w') =>
         (exists f doc,
            find (hasId feedId) (rssFeed w) = Some f
            /\ RssFeed.isActive f = true
            /\ network w (RssFeed.url f) = Return doc
            /\ FetchResult.metadata r = extractFeedMetadata doc
            /\ (FetchResult.created r + FetchResult.skipped r
                + FetchResult.errors r)%nat
               = List.length (ParserOutput.items doc))
         /\ rssFeed w'
            = updateUnique (hasId feedId)
                (RssFeed.withLastFetched (clock w)) (rssFeed w)
     | (Throw e, w') =>
         rssFeed w' = rssFeed w
         /\ exists m, e = Error ("Failed to fetch feed: " ++ m)
     end.
Proof.
  rewrite fetchAndStoreFeed_run.
  destruct (rssFeed_findUnique_run feedId w)
    as (w1 & Hrun & HF1 & _ & HE1 & _).
  assert (HN1 : network w1 = network w) by apply HE1.
  assert (HC1 : clock w1 = clock w) by apply HE1.
  destruct Hrun as [-> | (e & _ & ->)];
    [| split; [exact HE1 | split; [exact HF1 | eexists; reflexivity]]].
  destruct (find (hasId feedId) (rssFeed w)) as [f |] eqn:Ef;
    [| split; [exact HE1 | split; [exact HF1 | eexists; reflexivity]]].
  destruct (RssFeed.isActive f) eqn:Ea; cbn [negb];
    [| split; [exact HE1 | split; [exact HF1 | eexists; reflexivity]]].
  rewrite HN1.
  destruct (network w (RssFeed.url f)) as [doc | cause] eqn:En;
    [| split; [exact HE1 | split; [exact HF1 | eexists; reflexivity]]].
  unfold bulkCreateRssArticles.
  destruct (bulkLoop_run (batchOf (clock w1) f feedId doc)
              (BulkOperationResult.mk 0 0 0) w1)
    as (res & w2 & Hb & Hsum & Hsk & _ & HF2 & _).
  assert (HE2 := bulkLoop_sameEnv (batchOf (clock w1) f feedId doc)
                   (BulkOperationResult.mk 0 0 0) w1).
  rewrite Hb in HE2 |- *; cbn [snd] in HE2.
  assert (HC2 : clock w2 = clock w1) by apply HE2.
  destruct (updateFeedLastFetched_run feedId w2)
    as (w3 & HE3 & _ & _ & _ & [(f' & Hf' & _ & -> & HF3) | (_ & -> & HF3)]);
    (split;
     [cbn [snd];
      eapply sameEnv_trans; [exact HE1 |];
      eapply sameEnv_trans; [exact HE2 | exact HE3] |]).
  - split.
    + exists f, doc; cbn [FetchResult.metadata FetchResult.created
        FetchResult.skipped FetchResult.errors].
      repeat split; trivial.
      cbn [BulkOperationResult.created BulkOperationResult.skipped
           BulkOperationResult.errors] in Hsum, Hsk.
      unfold batchOf, extractArticles in Hsum.
      rewrite !length_map in Hsum. lia.
    + rewrite HF3, HF2, HF1, HC2, HC1; reflexivity.
  - split; [congruence | eexists; reflexivity].
Qed.

(** X7.  The timestamp of a feed is written last.  A refresh that returns
    found an active record whose document could be fetched; it reports as
    many outcomes (created, skipped, errors) as the document has items, and
    the feed collection is the one it started from with the [lastFetched]
    of that record set to the current time.  A refresh that throws, at
    whatever step and for whatever reason, throws an [Error] "Failed to
    fetch feed: ..." and leaves the feed collection as it was. *)
Theorem fetchAndStoreFeed_timestamp_discipline :
  forall (feedId : string) (w : World),
    match run (fetchAndStoreFeed feedId) w with
    | (Return r, w') =>
        (exists f doc,
           find (hasId feedId) (rssFeed w) = Some f
           /\ RssFeed.isActive f = true
           /\ network w (RssFeed.url f) = Return doc
           /\ FetchResult.metadata r = extractFeedMetadata doc
           /\ (FetchResult.created r + FetchResult.skipped r
               + FetchResult.errors r)%nat
              = List.length (ParserOutput.items doc))
        /\ rssFeed w'
           = updateUnique (hasId feedId)
               (RssFeed.withLastFetched (clock w)) (rssFeed w)
    | (Throw e, w') =>
        rssFeed w' = rssFeed w
        /\ exists m, e = Error ("Failed to fetch feed: " ++ m)
    end.
Proof.
  intros feedId w. exact (proj2 (fetchAndStoreFeed_outcome feedId w)).
Qed.

Lemma map_id_update (fid : string) (g : RssFeed.t -> RssFeed.t)
  (l : list RssFeed.t) :
  (forall f, RssFeed.id (g f) = RssFeed.id f) ->
  map RssFeed.id (updateUnique (hasId fid) g l) = map RssFeed.id l.
Proof.
  intro Hg; induction l as [| f l IH]; simpl; trivial.
  destruct (hasId fid f); simpl; [now rewrite Hg | now rewrite IH].
Qed.

Lemma NoDup_id_inj (l : list RssFeed.t) (a b : RssFeed.t) :
  NoDup (map RssFeed.id l) -> In a l -> In b l ->
  RssFeed.id a = RssFeed.id b -> a = b.
Proof.
  induction l as [| x l IH]; simpl; [tauto |].
  intros ND Ha Hb E; inversion ND as [| ? ? NI ND']; subst.
  destruct Ha as [-> | Ha], Hb as [-> | Hb]; trivial.
  - exfalso; apply NI; rewrite E; now apply in_map.
  - exfalso; apply NI; rewrite <- E; now apply in_map.
  - auto.
Qed.

Lemma fresh_after_update (now : Z) (feeds : list RssFeed.t)
  (f g : RssFeed.t) :
  In (RssFeed.withLastFetched now f) feeds ->
  In g feeds ->
  RssFeed.url g = RssFeed.url f ->
  isStale CACHE_WINDOW now feeds g = false.
Proof.
  intros Hf Hg Hu.
  destruct (isStale CACHE_WINDOW now feeds g) eqn:E; trivial.
  apply isStale_staleUrl in E; trivial.
  destruct E as [Hn | (t & [_ Hle] & Hgt)].
  - specialize (Hn _ Hf). simpl in Hn. rewrite Hu in Hn.
    discriminate (Hn eq_refl).
  - specialize (Hle _ now Hf). simpl in Hle. rewrite Hu in Hle.
    specialize (Hle eq_refl eq_refl).
    unfold CACHE_WINDOW in Hgt; lia.
Qed.

(** X8.  A refresh that returns makes the URL fresh for every subscriber:
    right after it, every feed record of the URL of the refreshed feed, the
    refreshed one and those of other owners, passes the freshness test, and
    the classifier, when the database answers and the ids of the feed
    records are distinct, returns none of them whatever the request. *)
Theorem refresh_makes_url_fresh_for_all :
  forall (feedId : string) (w w' : World) (r : FetchResult.t)
         (f : RssFeed.t),
    run (fetchAndStoreFeed feedId) w = (Return r, w') ->
    find (hasId feedId) (rssFeed w) = Some f ->
    (forall g, In g (rssFeed w') -> RssFeed.url g = RssFeed.url f ->
               isStale CACHE_WINDOW (clock w') (rssFeed w') g = false)
    /\ (NoDup (map RssFeed.id (rssFeed w)) ->
        dbFaults w' = [] ->
        forall feedIds g,
          In g (rssFeed w') -> RssFeed.url g = RssFeed.url f ->
          exists stale w'',
            run (getFeedsToRefresh feedIds) w' = (Return stale, w'')
            /\ ~ In (RssFeed.id g) stale).
Proof.
  intros feedId w w' r f Hrun Hf.
  destruct (fetchAndStoreFeed_outcome feedId w) as [HE Hout].
  rewrite Hrun in HE, Hout; cbn [snd] in HE.
  destruct Hout as [_ Hfeeds].
  assert (HC : clock w' = clock w) by apply HE.
  assert (Hupd : In (RssFeed.withLastFetched (clock w') f) (rssFeed w')).
  { rewrite Hfeeds, HC. now apply find_updateUnique_In. }
  assert (Hfresh : forall g, In g (rssFeed w') ->
            RssFeed.url g = RssFeed.url f ->
            isStale CACHE_WINDOW (clock w') (rssFeed w') g = false).
  { intros g Hg Hu. now apply (fresh_after_update _ _ f). }
  split; [exact Hfresh |].
  intros ND NF feedIds g Hg Hu.
  unfold getFeedsToRefresh.
  destruct (getFeedsToRefreshWithin_noFault CACHE_WINDOW feedIds w' NF)
    as (w'' & -> & _).
  eexists; exists w''; split; [reflexivity |].
  intro Hin. apply staleIds_In in Hin as (_ & g' & Hg' & Hid & Hst).
  assert (ND' : NoDup (map RssFeed.id (rssFeed w')))
    by (rewrite Hfeeds, map_id_update; trivial).
  assert (g' = g) as -> by (now apply (NoDup_id_inj (rssFeed w'))).
  apply isStale_staleUrl in Hst; trivial.
  rewrite (Hfresh g Hg Hu) in Hst; discriminate.
Qed.

(** Feed [G1] is refreshed; [G2], of the same URL and another owner, is
    then fresh. *)
Lemma refresh_makes_url_fresh_for_all_witness :
  (run (fetchAndStoreFeed "G1") Inputs.online
   = (Return (FetchResult.mk (extractFeedMetadata Sample.document) 2 0 0),
      snd (run (fetchAndStoreFeed "G1") Inputs.online))
   /\ find (hasId "G1") (rssFeed Inputs.online) = Some Inputs.G1)
  /\ exists stale w'',
       run (getFeedsToRefresh ["G1"; "G2"])
           (snd (run (fetchAndStoreFeed "G1") Inputs.online))
       = (Return stale, w'')
       /\ ~ In "G2" stale.
Proof.
  assert (Hrun : run (fetchAndStoreFeed "G1") Inputs.online
                 = (Return (FetchResult.mk
                              (extractFeedMetadata Sample.document) 2 0 0),
                    snd (run (fetchAndStoreFeed "G1") Inputs.online)))
    by reflexivity.
  split; [split; [exact Hrun | reflexivity] |].
  refine (proj2 (refresh_makes_url_fresh_for_all "G1" Inputs.online _ _
                   Inputs.G1 Hrun eq_refl) _ eq_refl
                ["G1"; "G2"] Inputs.G2 _ eq_refl).
  - repeat constructor; simpl; intuition discriminate.
  - right; left; reflexivity.
Defined.

(** The refreshes of an inactive feed and of a feed id without a record. *)
Lemma fetchAndStoreFeed_rejects_missing_or_inactive_witness :
  dbFaults Sample.world = []
  /\ run (fetchAndStoreFeed "B") Sample.world
     = (Throw (Error "Failed to fetch feed: Feed B is not active"),
        record (FeedFindUnique "B") Sample.world)
  /\ run (fetchAndStoreFeed "Z") Sample.world
     = (Throw (Error "Failed to fetch feed: Feed with ID Z not found"),
        record (FeedFindUnique "Z") Sample.world).
Proof.
  split; [reflexivity |]. split.
  - exact (fetchAndStoreFeed_rejects_missing_or_inactive "B" Sample.world
             eq_refl eq_refl).
  - exact (fetchAndStoreFeed_rejects_missing_or_inactive "Z" Sample.world
             eq_refl).
Defined.

(** ** Sightings *)

Lemma totalSources_app (l1 l2 : list RssArticle.t) :
  totalSources (l1 ++ l2) = (totalSources l1 + totalSources l2)%nat.
Proof. unfold totalSources; now rewrite map_app, list_sum_app. Qed.

Lemma totalSources_update (g fid : string) (rows : list RssArticle.t) :
  find (hasGuid g) rows <> None ->
  totalSources (updateUnique (hasGuid g) (RssArticle.push fid) rows)
  = S (totalSources rows).
Proof.
  induction rows as [| r rows IH]; simpl; [congruence |].
  destruct (hasGuid g r); intro H.
  - unfold totalSources; simpl. rewrite length_app; simpl; lia.
  - unfold totalSources in *; simpl. rewrite (IH H); lia.
Qed.

Lemma totalSources_upserted (data : ArticleCreateData.t)
  (rows : list RssArticle.t) :
  totalSources (upserted data rows) = S (totalSources rows).
Proof.
  unfold upserted.
  destruct (find (hasGuid (ArticleCreateData.guid data)) rows) eqn:E.
  - apply totalSources_update; congruence.
  - rewrite totalSources_app; unfold totalSources; simpl; lia.
Qed.

Lemma sightings_upserted (data : ArticleCreateData.t) (g : string)
  (rows : list RssArticle.t) :
  sightings g (upserted data rows)
  = (sightings g rows
     + if (ArticleCreateData.guid data =? g)%string then 1 else 0)%nat.
Proof.
  unfold sightings.
  destruct (ArticleCreateData.guid data =? g) eqn:E.
  - apply String.eqb_eq in E; subst g.
    rewrite upserted_find_same. unfold upsertedRow.
    destruct (find (hasGuid (ArticleCreateData.guid data)) rows); simpl.
    + rewrite length_app; simpl; lia.
    + reflexivity.
  - apply String.eqb_neq in E.
    rewrite upserted_find_other by congruence. lia.
Qed.

Lemma sightings_upsertedAll (batch : list ArticleCreateData.t) (g : string) :
  forall rows,
    sightings g (upsertedAll batch rows)
    = (sightings g rows + sightedIn g batch)%nat.
Proof.
  unfold upsertedAll, sightedIn.
  induction batch as [| d batch IH]; intro rows; simpl; [lia |].
  rewrite IH, sightings_upserted.
  destruct (ArticleCreateData.guid d =? g); simpl; lia.
Qed.

Lemma bulkLoop_sources (articles : list ArticleCreateData.t) :
  forall (acc : BulkOperationResult.t) (w : World),
  exists r w',
    run (bulkLoop articles acc) w = (Return r, w')
    /\ (totalSources (rssArticle w') + BulkOperationResult.created acc
        = totalSources (rssArticle w) + BulkOperationResult.created r)%nat
    /\ (List.length (rssArticle w) <= List.length (rssArticle w'))%nat.
Proof.
  induction articles as [| a rest IH]; intros [c s e] w.
  - exists (BulkOperationResult.mk c s e), w; simpl; auto.
  - cbn [bulkLoop]. rewrite run_bind, bulkTurn_run.
    destruct (run (createRssArticle a) w) as [[row | err] w1] eqn:R.
    + apply createRssArticle_Return in R as (_ & HA & _).
      destruct (IH (BulkOperationResult.mk (S c) s e) w1)
        as (r & w' & -> & Hsum & Hlen).
      exists r, w'; split; [reflexivity |].
      cbn [BulkOperationResult.created] in *.
      rewrite HA, totalSources_upserted in Hsum.
      rewrite HA in Hlen.
      split; [lia |].
      assert (List.length (rssArticle w)
              <= List.length (upserted a (rssArticle w)))%nat; [| lia].
      unfold upserted.
      destruct (find _ (rssArticle w));
        [rewrite length_updateUnique | rewrite length_app; simpl]; lia.
    + apply createRssArticle_Throw in R as (HA & _).
      destruct (IH (BulkOperationResult.mk c s (S e)) w1)
        as (r & w' & -> & Hsum & Hlen).
      exists r, w'; split; [reflexivity |].
      cbn [BulkOperationResult.created] in *.
      rewrite HA in Hsum, Hlen. auto.
Qed.

(** X9.  The bulk upsert counts as created exactly the source entries it
    adds: whatever upserts the engine fails, the number of source entries
    of the collection grows by the number of records reported as created,
    and no row is lost.  When no upsert fails, the source set of the row of
    every guid grows by the number of records of the batch that carry that
    guid, so that a guid that the batch repeats, or that was sighted
    before, is counted once per sighting. *)
Theorem bulkCreateRssArticles_counts_sightings :
  (forall (articles : list ArticleCreateData.t) (w : World),
      exists r w',
        run (bulkCreateRssArticles articles) w = (Return r, w')
        /\ totalSources (rssArticle w')
           = (totalSources (rssArticle w)
              + BulkOperationResult.created r)%nat
        /\ (List.length (rssArticle w) <= List.length (rssArticle w'))%nat)
  /\
  (forall (articles : list ArticleCreateData.t) (w : World),
      dbFaults w = [] ->
      forall g,
        sightings g
          (rssArticle (snd (run (bulkCreateRssArticles articles) w)))
        = (sightings g (rssArticle w) + sightedIn g articles)%nat).
Proof.
  split.
  - intros articles w.
    destruct (bulkLoop_sources articles (BulkOperationResult.mk 0 0 0) w)
      as (r & w' & Hr & Hsum & Hlen).
    exists r, w'; cbn [BulkOperationResult.created] in Hsum.
    split; [exact Hr |]. split; [lia | exact Hlen].
  - intros articles w NF g.
    destruct (bulkLoop_run articles (BulkOperationResult.mk 0 0 0) w)
      as (r & w' & Hr & _ & _ & _ & _ & Hnf).
    unfold bulkCreateRssArticles; rewrite Hr; cbn [snd].
    destruct (Hnf NF) as (_ & -> & _).
    apply sightings_upsertedAll.
Qed.

(** A batch that sights guid [g] twice, on the collection in which feed
    [A] has sighted it once: three sightings. *)
Lemma bulkCreateRssArticles_counts_sightings_witness :
  dbFaults Sample.sighted = []
  /\ sightings "g"
       (rssArticle
          (snd (run (bulkCreateRssArticles
                       [Sample.article "B" "g" 6000%Z;
                        Sample.article "A" "h" 6000%Z;
                        Sample.article "A" "g" 7000%Z])
                    Sample.sighted)))
     = 3%nat.
Proof.
  split; [reflexivity |].
  exact (proj2 bulkCreateRssArticles_counts_sightings
           [Sample.article "B" "g" 6000%Z; Sample.article "A" "h" 6000%Z;
            Sample.article "A" "g" 7000%Z]
           Sample.sighted eq_refl "g").
Defined.

(** ** The classifier as a query *)

Lemma sameStore_refl (w : World) : sameStore w w.
Proof. unfold sameStore, sameEnv; tauto. Qed.

Lemma sameStore_trans (w1 w2 w3 : World) :
  sameStore w1 w2 -> sameStore w2 w3 -> sameStore w1 w3.
Proof. unfold sameStore, sameEnv; intuition congruence. Qed.

Lemma prismaCall_readOnly {A} (c : DbCall) (op : World -> Outcome A * World)
  (w : World) :
  (forall w0, snd (op w0) = w0) ->
  sameStore w (snd (prismaCall c op w)).
Proof.
  intro Hop; unfold prismaCall.
  destruct (dbFaults w) as [| [e |] rest]; simpl; rewrite ?Hop;
    unfold sameStore, sameEnv; simpl; tauto.
Qed.

Lemma rssFeed_findFirst_readOnly (url : string) (w : World) :
  sameStore w (snd (rssFeed_findFirst url w)).
Proof. unfold rssFeed_findFirst; now apply prismaCall_readOnly. Qed.

Lemma refreshLoop_readOnly (cacheWindow now : Z) (feeds : list RssFeed.t) :
  forall (acc : list string) (w : World),
    sameStore w (snd (run (refreshLoop cacheWindow now feeds acc) w)).
Proof.
  induction feeds as [| f feeds IH]; intros acc w.
  - apply sameStore_refl.
  - cbn [refreshLoop]. rewrite run_bind, run_await.
    assert (H := rssFeed_findFirst_readOnly (RssFeed.url f) w).
    destruct (rssFeed_findFirst (RssFeed.url f) w) as [[[[t |] |] | e] w1];
      cbn [snd] in H |- *; trivial;
      try destruct (now - t >? cacheWindow)%Z;
      (eapply sameStore_trans; [exact H | apply IH]).
Qed.

Lemma getFeedsToRefreshWithin_readOnly (cacheWindow : Z)
  (feedIds : list string) (w : World) :
  sameStore w (snd (run (getFeedsToRefreshWithin cacheWindow feedIds) w)).
Proof.
  unfold getFeedsToRefreshWithin.
  rewrite run_bind. unfold perform at 1; cbn [run newDate].
  rewrite run_bind, run_await.
  assert (H : sameStore w (snd (rssFeed_findMany feedIds w)))
    by (unfold rssFeed_findMany; now apply prismaCall_readOnly).
  destruct (rssFeed_findMany feedIds w) as [[feeds | e] w1];
    cbn [snd] in H |- *; trivial.
  eapply sameStore_trans; [exact H | apply refreshLoop_readOnly].
Qed.

Lemma refreshLoop_trace (cacheWindow now : Z) (feeds : list RssFeed.t) :
  forall (acc : list string) (w : World),
    dbFaults w = [] ->
    dbTrace (snd (run (refreshLoop cacheWindow now feeds acc) w))
    = dbTrace w ++ map (fun f => FeedFindFirst (RssFeed.url f)) feeds.
Proof.
  induction feeds as [| f feeds IH]; intros acc w NF.
  - simpl; now rewrite app_nil_r.
  - cbn [refreshLoop]. rewrite run_bind, run_await.
    rewrite (rssFeed_findFirst_noFault _ _ NF).
    assert (NF1 : dbFaults (record (FeedFindFirst (RssFeed.url f)) w) = [])
      by exact NF.
    destruct (mostRecentFetchOf (rssFeed w) (RssFeed.url f)) as [[t |] |];
      try destruct (now - t >? cacheWindow)%Z;
      rewrite (IH _ _ NF1); cbn [map record dbTrace];
      rewrite <- app_assoc; reflexivity.
Qed.

Lemma getFeedsToRefreshWithin_trace (cacheWindow : Z)
  (feedIds : list string) (w : World) :
  dbFaults w = [] ->
  dbTrace (snd (run (getFeedsToRefreshWithin cacheWindow feedIds) w))
  = dbTrace w ++ classifierCalls (rssFeed w) feedIds.
Proof.
  intro NF. unfold getFeedsToRefreshWithin.
  rewrite run_bind. unfold perform at 1; cbn [run newDate].
  rewrite run_bind, run_await, (rssFeed_findMany_noFault _ _ NF).
  rewrite refreshLoop_trace by exact NF.
  unfold classifierCalls; cbn [record dbTrace].
  rewrite <- app_assoc; reflexivity.
Qed.

(** X10.  The classifier only reads: whatever the database does, the feed
    and article collections, the clock and the console are after a
    classification what they were before.  When the database answers it
    issues one query for the requested records and then one query per record
    found, in the order of the collection. *)
Theorem getFeedsToRefresh_only_reads :
  (forall (feedIds : list string) (w : World),
      sameStore w (snd (run (getFeedsToRefresh feedIds) w)))
  /\
  (forall (feedIds : list string) (w : World),
      dbFaults w = [] ->
      dbTrace (snd (run (getFeedsToRefresh feedIds) w))
      = dbTrace w ++ classifierCalls (rssFeed w) feedIds).
Proof.
  split.
  - intros; apply getFeedsToRefreshWithin_readOnly.
  - intros feedIds w NF. now apply getFeedsToRefreshWithin_trace.
Qed.

(** The classification of the two subscribers of the shared URL. *)
Lemma getFeedsToRefresh_only_reads_witness :
  dbFaults Sample.shared = []
  /\ dbTrace (snd (run (getFeedsToRefresh ["F2"; "F1"; "F9"]) Sample.shared))
     = [FeedFindMany; FeedFindFirst "https://u.example/rss";
        FeedFindFirst "https://u.example/rss"].
Proof.
  split; [reflexivity |].
  exact (proj2 getFeedsToRefresh_only_reads ["F2"; "F1"; "F9"]
           Sample.shared eq_refl).
Defined.

Lemma filter_filter_and {A} (p q : A -> bool) (l : list A) :
  filter q (filter p l) = filter (fun x => p x && q x) l.
Proof.
  induction l as [| a l IH]; simpl; trivial.
  destruct (p a); simpl; [| exact IH].
  destruct (q a); simpl; [now rewrite IH | exact IH].
Qed.

Lemma distinct_ids_filter (keep : RssFeed.t -> bool)
  (feeds : list RssFeed.t) :
  NoDup (map RssFeed.id feeds) ->
  NoDup (map RssFeed.id (filter keep feeds)).
Proof.
  intro ND. induction feeds as [| f feeds IH]; cbn [filter map] in *;
    [constructor |].
  apply NoDup_cons_iff in ND as [NI ND].
  destruct (keep f); cbn [map]; [| now apply IH].
  apply NoDup_cons_iff; split; [| now apply IH].
  rewrite in_map_iff in *. intros (g & E & Hg).
  apply NI. exists g. apply filter_In in Hg. tauto.
Qed.

(** X11.  The answer of the classifier depends on the set of requested
    ids only, not on their order nor on repetitions, and it follows the
    order of the feed collection; when the ids of the feed records are
    distinct no id is returned twice, so that no feed is refreshed twice in
    one pass. *)
Theorem getFeedsToRefresh_request_as_set :
  forall (feedIds feedIds' : list string) (w : World),
    dbFaults w = [] ->
    (forall x, In x feedIds <-> In x feedIds') ->
    fst (run (getFeedsToRefresh feedIds) w)
    = fst (run (getFeedsToRefresh feedIds') w)
    /\ exists stale,
         fst (run (getFeedsToRefresh feedIds) w) = Return stale
         /\ (exists keep, stale = map RssFeed.id (filter keep (rssFeed w)))
         /\ (NoDup (map RssFeed.id (rssFeed w)) -> NoDup stale).
Proof.
  intros feedIds feedIds' w NF Hset. unfold getFeedsToRefresh.
  destruct (getFeedsToRefreshWithin_noFault CACHE_WINDOW feedIds w NF)
    as (w1 & -> & _).
  destruct (getFeedsToRefreshWithin_noFault CACHE_WINDOW feedIds' w NF)
    as (w2 & -> & _).
  cbn [fst]. unfold staleIds.
  assert (Hext : filter (fun f => inList (RssFeed.id f) feedIds) (rssFeed w)
                 = filter (fun f => inList (RssFeed.id f) feedIds')
                          (rssFeed w)).
  { apply filter_ext; intro f.
    destruct (inList (RssFeed.id f) feedIds) eqn:E1,
             (inList (RssFeed.id f) feedIds') eqn:E2; trivial.
    - apply inList_In, Hset, inList_In in E1; congruence.
    - apply inList_In, Hset, inList_In in E2; congruence. }
  split; [now rewrite Hext |].
  eexists; split; [reflexivity |]. split.
  - exists (fun f => inList (RssFeed.id f) feedIds
                     && isStale CACHE_WINDOW (clock w) (rssFeed w) f).
    now rewrite filter_filter_and.
  - intro ND; now do 2 apply distinct_ids_filter.
Qed.

(** The same two feeds requested in another order and twice. *)
Lemma getFeedsToRefresh_request_as_set_witness :
  (dbFaults Inputs.online = []
   /\ forall x, In x ["G2"; "G1"; "G2"] <-> In x ["G1"; "G2"])
  /\ fst (run (getFeedsToRefresh ["G2"; "G1"; "G2"]) Inputs.online)
     = fst (run (getFeedsToRefresh ["G1"; "G2"]) Inputs.online).
Proof.
  assert (Hset : forall x, In x ["G2"; "G1"; "G2"] <-> In x ["G1"; "G2"])
    by (intro x; simpl; tauto).
  split; [split; [reflexivity | exact Hset] |].
  exact (proj1 (getFeedsToRefresh_request_as_set ["G2"; "G1"; "G2"]
                  ["G1"; "G2"] Inputs.online eq_refl Hset)).
Defined.

(** ** The retrieval as a query *)

Lemma getArticles_outcome (feedIds : list string) (startDate endDate : Z)
  (limit : option nat) (w : World) :
  sameStore w (snd (run (getArticlesByFeedsAndDateRange feedIds startDate
                           endDate limit) w))
  /\ dbTrace (snd (run (getArticlesByFeedsAndDateRange feedIds startDate
                          endDate limit) w))
     = dbTrace w ++ [ArticleFindMany]
  /\ dbFaults (snd (run (getArticlesByFeedsAndDateRange feedIds startDate
                           endDate limit) w))
     = tl (dbFaults w)
  /\ match hd None (dbFaults w) with
     | None =>
         exists result,
           fst (run (getArticlesByFeedsAndDateRange feedIds startDate
                       endDate limit) w) = Return result
     | Some cause =>
         exists detail,
           fst (run (getArticlesByFeedsAndDateRange feedIds startDate
                       endDate limit) w)
           = Throw (Error ("Failed to fetch articles by feeds and date "
                           ++ "range: " ++ detail))
     end.
Proof.
  unfold getArticlesByFeedsAndDateRange, wrapDatabaseOperation.
  rewrite run_tryCatch, run_bind, run_await.
  unfold rssArticle_findMany, prismaCall.
  destruct (dbFaults w) as [| [e |] rest] eqn:EF; simpl.
  - unfold sameStore, sameEnv; simpl; repeat split; eauto.
  - unfold handleDatabaseError, handlePrismaError.
    destruct e as [code m | m | v]; cbn [isPrismaError errorCode messageOr];
      repeat match goal with
             | |- context [if ?c then _ else _] => destruct c
             end;
      unfold sameStore, sameEnv; simpl; repeat split; trivial;
      eexists; reflexivity.
  - unfold sameStore, sameEnv; simpl; repeat split; eauto.
Qed.

(** X12.  The retrieval only reads: whatever the database does, it leaves
    the collections, the clock and the console as they were and issues one
    query.  When the database answers, a retrieval for no feed, for a
    window whose end is before its start, or with a cap of zero returns the
    empty list and not an error.  When the database fails, the retrieval
    throws an [Error] "Failed to fetch articles by feeds and date range:
    ..." and never a Prisma error. *)
Theorem getArticlesByFeedsAndDateRange_edges :
  forall (feedIds : list string) (startDate endDate : Z)
         (limit : option nat) (w : World),
    sameStore w (snd (run (getArticlesByFeedsAndDateRange feedIds startDate
                             endDate limit) w))
    /\ dbTrace (snd (run (getArticlesByFeedsAndDateRange feedIds startDate
                            endDate limit) w))
       = dbTrace w ++ [ArticleFindMany]
    /\ match hd None (dbFaults w) with
       | None =>
           (feedIds = [] \/ (endDate < startDate)%Z \/ limit = Some 0%nat) ->
           fst (run (getArticlesByFeedsAndDateRange feedIds startDate
                       endDate limit) w) = Return []
       | Some cause =>
           exists detail,
             fst (run (getArticlesByFeedsAndDateRange feedIds startDate
                         endDate limit) w)
             = Throw (Error ("Failed to fetch articles by feeds and date "
                             ++ "range: " ++ detail))
       end.
Proof.
  intros feedIds startDate endDate limit w.
  destruct (getArticles_outcome feedIds startDate endDate limit w)
    as (HS & HT & _ & Hout).
  split; [exact HS |]. split; [exact HT |].
  destruct (hd None (dbFaults w)) as [cause |] eqn:EH; [exact Hout |].
  intro Hedge. destruct Hout as (result & Hres).
  destruct (run (getArticlesByFeedsAndDateRange feedIds startDate endDate
                   limit) w) as [o w'] eqn:R.
  cbn [fst] in Hres |- *; subst o.
  apply getArticles_run in R as (-> & _).
  assert (Hsel : forall l,
            (forall a, In a l ->
               matchesFeeds feedIds a && inWindow startDate endDate a
               = false) ->
            filter (fun a => matchesFeeds feedIds a
                             && inWindow startDate endDate a) l = []).
  { induction l as [| a l IH]; intro H; simpl; trivial.
    rewrite (H a (or_introl eq_refl)). apply IH; intros; apply H; now right. }
  assert (Hnil : forall cap,
            map (fun a =>
                   ScoredArticle.mk a
                     (ARTICLE_WITH_FEED_INCLUDE (rssFeed w) a)
                     (List.length (RssArticle.sourceFeedIds a)))
                (firstn cap (ARTICLE_ORDER_BY_DATE_DESC [])) = [])
    by (intro cap; unfold ARTICLE_ORDER_BY_DATE_DESC; simpl;
        now rewrite firstn_nil).
  destruct Hedge as [-> | [Hw | ->]].
  - rewrite Hsel; [now rewrite Hnil |].
    intros a _. unfold matchesFeeds, inList; simpl.
    assert (existsb (fun _ : string => false) (RssArticle.sourceFeedIds a)
            = false) as ->; trivial.
    induction (RssArticle.sourceFeedIds a); simpl; trivial.
  - rewrite Hsel; [now rewrite Hnil |].
    intros a _. apply andb_false_iff; right.
    destruct (inWindow startDate endDate a) eqn:E; trivial.
    apply inWindow_bounds in E; lia.
  - reflexivity.
Qed.

(** A retrieval for no feed on the stocked collection, and a retrieval
    that the database fails. *)
Lemma getArticlesByFeedsAndDateRange_edges_witness :
  fst (run (getArticlesByFeedsAndDateRange [] 0%Z 10000%Z None)
           Sample.stocked) = Return []
  /\ fst (run (getArticlesByFeedsAndDateRange ["A"] 10000%Z 0%Z None)
              Sample.stocked) = Return []
  /\ exists detail,
       fst (run (getArticlesByFeedsAndDateRange ["A"] 0%Z 10000%Z None)
                (setFaults [Some Sample.duplicateKey] Sample.stocked))
       = Throw (Error ("Failed to fetch articles by feeds and date range: "
                       ++ detail)).
Proof.
  split; [| split].
  - apply (proj2 (proj2 (getArticlesByFeedsAndDateRange_edges [] 0%Z
                           10000%Z None Sample.stocked))).
    left; reflexivity.
  - apply (proj2 (proj2 (getArticlesByFeedsAndDateRange_edges ["A"]
                           10000%Z 0%Z None Sample.stocked))).
    right; left; reflexivity.
  - exact (proj2 (proj2 (getArticlesByFeedsAndDateRange_edges ["A"] 0%Z
                           10000%Z None
                           (setFaults [Some Sample.duplicateKey]
                                      Sample.stocked)))).
Defined.

(** ** The coordinator, end to end *)

Lemma retrieveOrFail_world (params : PrepareFeedsParams.t) (w : World) :
  snd (run (retrieveOrFail params) w)
  = snd (run (getArticlesByFeedsAndDateRange
                (PrepareFeedsParams.feedIds params)
                (PrepareFeedsParams.startDate params)
                (PrepareFeedsParams.endDate params)
                (Some ARTICLE_LIMIT)) w).
Proof.
  rewrite retrieveOrFail_run.
  destruct (run (getArticlesByFeedsAndDateRange _ _ _ _) w)
    as [[[| a rest] | e] w']; reflexivity.
Qed.

(** X13.  When the database answers and the classifier finds every
    requested feed fresh, the coordinator refreshes nothing: it writes the
    line "All n feeds are fresh (< 3 hours old), skipping refresh" on the
    console, leaves the feed and article collections as they were, and the
    only database calls are those of the classifier and the one retrieval. *)
Theorem prepareFeedsAndArticles_all_fresh :
  forall (params : PrepareFeedsParams.t) (w : World),
    dbFaults w = [] ->
    fst (run (getFeedsToRefresh (PrepareFeedsParams.feedIds params)) w)
    = Return [] ->
    rssFeed (snd (run (prepareFeedsAndArticles params) w)) = rssFeed w
    /\ rssArticle (snd (run (prepareFeedsAndArticles params) w))
       = rssArticle w
    /\ console (snd (run (prepareFeedsAndArticles params) w))
       = console w
         ++ [("All "
              ++ Js.ofNat (List.length (PrepareFeedsParams.feedIds params))
              ++ " feeds are fresh (< 3 hours old), skipping refresh")%string]
    /\ dbTrace (snd (run (prepareFeedsAndArticles params) w))
       = dbTrace w
         ++ classifierCalls (rssFeed w) (PrepareFeedsParams.feedIds params)
         ++ [ArticleFindMany].
Proof.
  intros params w NF Hfresh.
  rewrite prepareFeedsAndArticles_run.
  assert (Htr := getFeedsToRefreshWithin_trace CACHE_WINDOW
                   (PrepareFeedsParams.feedIds params) w NF).
  unfold getFeedsToRefresh in *.
  destruct (getFeedsToRefreshWithin_noFault CACHE_WINDOW
              (PrepareFeedsParams.feedIds params) w NF) as (w1 & R & HS).
  rewrite R in Hfresh, Htr |- *; cbn [fst snd] in Hfresh, Htr.
  injection Hfresh as ->.
  cbn [refreshStale List.length Nat.ltb Nat.leb].
  unfold perform, consoleLog; cbn [run].
  rewrite retrieveOrFail_world.
  match goal with |- context [run ?q ?w2] =>
    destruct (getArticles_outcome (PrepareFeedsParams.feedIds params)
                (PrepareFeedsParams.startDate params)
                (PrepareFeedsParams.endDate params)
                (Some ARTICLE_LIMIT) w2)
      as ((HF & HA & (_ & _ & HC & _)) & HT & _)
  end.
  destruct HS as (HF1 & HA1 & _ & _ & _ & HC1 & _).
  rewrite HF, HA, HC, HT; cbn [print rssFeed rssArticle console dbTrace].
  rewrite HF1, HA1, HC1, Htr, <- app_assoc. auto.
Qed.

(** The two subscribers of the shared URL under a clock at which the last
    fetch is one hour old. *)
Lemma prepareFeedsAndArticles_all_fresh_witness :
  (dbFaults Sample.shared = []
   /\ fst (run (getFeedsToRefresh ["F1"; "F2"]) Sample.shared) = Return [])
  /\ console (snd (run (prepareFeedsAndArticles
                          (PrepareFeedsParams.mk ["F1"; "F2"] 0%Z 10000%Z))
                       Sample.shared))
     = ["All 2 feeds are fresh (< 3 hours old), skipping refresh"].
Proof.
  split; [split; reflexivity |].
  exact (proj1 (proj2 (proj2 (prepareFeedsAndArticles_all_fresh
                                (PrepareFeedsParams.mk ["F1"; "F2"] 0%Z
                                   10000%Z)
                                Sample.shared eq_refl eq_refl)))).
Defined.

Lemma getArticles_sound (feedIds : list string) (startDate endDate : Z)
  (limit : option nat) (w w' : World) (result : list ScoredArticle.t) :
  run (getArticlesByFeedsAndDateRange feedIds startDate endDate limit) w
  = (Return result, w') ->
  (List.length result <= capOf limit)%nat
  /\ StronglySorted notOlder (map ScoredArticle.article result)
  /\ forall r, In r result ->
       In (ScoredArticle.article r) (rssArticle w')
       /\ requested feedIds (ScoredArticle.article r)
       /\ (startDate <= RssArticle.pubDate (ScoredArticle.article r)
           <= endDate)%Z
       /\ ScoredArticle.sourceCount r
          = List.length (RssArticle.sourceFeedIds (ScoredArticle.article r)).
Proof.
  intro Hrun. apply getArticles_run in Hrun as (-> & HA & _).
  rewrite HA, length_map, map_map; cbn [ScoredArticle.article].
  rewrite map_id.
  split; [apply firstn_le_length |].
  split; [apply firstn_sorted, orderBy_sorted |].
  intros r Hr. apply in_map_iff in Hr as (a & <- & Ha); simpl.
  apply firstn_In, orderBy_In, filter_In in Ha as [Ha Hm].
  apply andb_true_iff in Hm as [Hm Hw].
  apply matchesFeeds_requested in Hm. apply inWindow_bounds in Hw. auto.
Qed.

(** X14.  What the coordinator returns is never empty and has at most 100
    articles, newest first; each of them is a row of the article collection
    as the refresh left it, is matched by the requested feeds through its
    primary feed or its source set, has a publish date within the requested
    window, and carries the length of its source set as its source count. *)
Theorem prepareFeedsAndArticles_result :
  forall (params : PrepareFeedsParams.t) (w w' : World)
         (articles : list ScoredArticle.t),
    run (prepareFeedsAndArticles params) w = (Return articles, w') ->
    articles <> []
    /\ (List.length articles <= 100)%nat
    /\ StronglySorted notOlder (map ScoredArticle.article articles)
    /\ forall r, In r articles ->
         In (ScoredArticle.article r) (rssArticle w')
         /\ requested (PrepareFeedsParams.feedIds params)
                      (ScoredArticle.article r)
         /\ (PrepareFeedsParams.startDate params
             <= RssArticle.pubDate (ScoredArticle.article r)
             <= PrepareFeedsParams.endDate params)%Z
         /\ ScoredArticle.sourceCount r
            = List.length
                (RssArticle.sourceFeedIds (ScoredArticle.article r)).
Proof.
  intros params w w' articles.
  rewrite prepareFeedsAndArticles_run.
  destruct (run (getFeedsToRefresh _) w) as [[stale | e] w1];
    [| discriminate].
  destruct (run (refreshStale _ stale) w1) as [[u | e] w2];
    [| discriminate].
  rewrite retrieveOrFail_run.
  destruct (run (getArticlesByFeedsAndDateRange _ _ _ _) w2)
    as [[[| a rest] | e] w3] eqn:R; try discriminate.
  intro H; injection H as <- <-.
  split; [discriminate |].
  exact (getArticles_sound _ _ _ _ _ _ _ R).
Qed.

(** Feeds [A] and [B] on the empty collection: the refresh of [A] stores
    its two items, of which one is in the window. *)
Lemma prepareFeedsAndArticles_result_witness :
  run (prepareFeedsAndArticles (PrepareFeedsParams.mk ["A"; "B"] 0%Z 10000%Z))
      Sample.world
  = (Return
       [ScoredArticle.mk
          (RssArticle.mk "A" "urn:post:1" ["A"] "First"
             "https://a.example/1" (Some "<p>body</p>") (Some "body")
             7000%Z (Some "ann") ["news"] None)
          (Some (FeedRef.mk "A" (Some "Feed A") "https://a.example/rss"))
          1%nat],
     snd (run (prepareFeedsAndArticles
                 (PrepareFeedsParams.mk ["A"; "B"] 0%Z 10000%Z))
              Sample.world))
  /\ forall r,
       In r [ScoredArticle.mk
               (RssArticle.mk "A" "urn:post:1" ["A"] "First"
                  "https://a.example/1" (Some "<p>body</p>") (Some "body")
                  7000%Z (Some "ann") ["news"] None)
               (Some (FeedRef.mk "A" (Some "Feed A")
                        "https://a.example/rss"))
               1%nat] ->
       requested ["A"; "B"] (ScoredArticle.article r).
Proof.
  assert (Hrun :
    run (prepareFeedsAndArticles
           (PrepareFeedsParams.mk ["A"; "B"] 0%Z 10000%Z)) Sample.world
    = (Return
         [ScoredArticle.mk
            (RssArticle.mk "A" "urn:post:1" ["A"] "First"
               "https://a.example/1" (Some "<p>body</p>") (Some "body")
               7000%Z (Some "ann") ["news"] None)
            (Some (FeedRef.mk "A" (Some "Feed A") "https://a.example/rss"))
            1%nat],
       snd (run (prepareFeedsAndArticles
                   (PrepareFeedsParams.mk ["A"; "B"] 0%Z 10000%Z))
                Sample.world))) by (vm_compute; reflexivity).
  split; [exact Hrun |].
  intros r Hr.
  exact (proj1 (proj2 (proj2 (proj2 (proj2
           (prepareFeedsAndArticles_result _ _ _ _ Hrun))) r Hr))).
Defined.

(** X15.  The classifier has no error handling of its own: when its first
    query fails, it throws the failure of the database as it is, a Prisma
    error included, and whatever the classifier throws the coordinator
    throws, from the same world: nothing is refreshed and nothing is
    retrieved. *)
Theorem prepareFeedsAndArticles_classifier_failure :
  (forall (feedIds : list string) (w : World) (cause : JsError),
      hd None (dbFaults w) = Some cause ->
      run (getFeedsToRefresh feedIds) w
      = (Throw cause, record FeedFindMany (setFaults (tl (dbFaults w)) w)))
  /\
  (forall (params : PrepareFeedsParams.t) (w w1 : World) (e : JsError),
      run (getFeedsToRefresh (PrepareFeedsParams.feedIds params)) w
      = (Throw e, w1) ->
      run (prepareFeedsAndArticles params) w = (Throw e, w1)).
Proof.
  split.
  - intros feedIds w cause HF.
    unfold getFeedsToRefresh, getFeedsToRefreshWithin.
    rewrite run_bind. unfold perform at 1; cbn [run newDate].
    rewrite run_bind, run_await.
    unfold rssFeed_findMany, prismaCall.
    destruct (dbFaults w) as [| [e |] rest]; simpl in HF; try discriminate.
    injection HF as ->; reflexivity.
  - intros params w w1 e H.
    now rewrite prepareFeedsAndArticles_run, H.
Qed.

(** The coordinator on a database whose first query fails on a duplicate
    key. *)
Lemma prepareFeedsAndArticles_classifier_failure_witness :
  hd None (dbFaults (setFaults [Some Sample.duplicateKey] Sample.world))
  = Some Sample.duplicateKey
  /\ fst (run (prepareFeedsAndArticles
                 (PrepareFeedsParams.mk ["A"] 0%Z 10000%Z))
              (setFaults [Some Sample.duplicateKey] Sample.world))
     = Throw Sample.duplicateKey.
Proof.
  split; [reflexivity |].
  rewrite (proj2 prepareFeedsAndArticles_classifier_failure
             (PrepareFeedsParams.mk ["A"] 0%Z 10000%Z)
             (setFaults [Some Sample.duplicateKey] Sample.world) _ _
             (proj1 prepareFeedsAndArticles_classifier_failure ["A"]
                (setFaults [Some Sample.duplicateKey] Sample.world)
                Sample.duplicateKey eq_refl)).
  reflexivity.
Defined.

(** ** What every run of the pipeline keeps *)

Section ArticleInvariant.

(** A property of the article collection that every upsert keeps. *)
Variable P : list RssArticle.t -> Prop.
Hypothesis P_upserted :
  forall data rows, P rows -> P (upserted data rows).

Let Inv (w : World) : Prop := P (rssArticle w).
Let Any {A} (_ : Outcome A) : Prop := True.

Lemma Safe_bind_any {A B} (Q : Outcome B -> Prop) (p : Proc A)
  (f : A -> Proc B) :
  Safe Inv Any p ->
  (forall a, Safe Inv Q (f a)) ->
  (forall e, Q (Throw e)) ->
  Safe Inv Q (bind p f).
Proof.
  intros Hp Hf Hq. apply Safe_bind.
  eapply Safe_mono; [| exact Hp]. intros [a | e] _; auto.
Qed.

Lemma Safe_tryCatch_inv {A} (Q : Outcome A -> Prop) (p : Proc A)
  (h : JsError -> Proc A) :
  Safe Inv Any p ->
  (forall a, Q (Return a)) ->
  (forall e, Safe Inv Q (h e)) ->
  Safe Inv Q (tryCatch p h).
Proof.
  intros Hp Hq Hh. apply Safe_tryCatch.
  eapply Safe_mono; [| exact Hp]. intros [a | e] _; auto.
Qed.

Lemma Safe_action {A} (m : M A) :
  (forall w, Inv w -> Inv (snd (m w))) -> Safe Inv Any (await m).
Proof. intro H; apply Safe_await; intros w Hw; split; [auto | exact I]. Qed.

Lemma Inv_prismaCall {A} (c : DbCall) (op : World -> Outcome A * World) :
  (forall w, Inv w -> Inv (snd (op w))) ->
  forall w, Inv w -> Inv (snd (prismaCall c op w)).
Proof.
  intros Hop w Hw; unfold prismaCall.
  destruct (dbFaults w) as [| [e |] rest]; simpl;
    try apply Hop; exact Hw.
Qed.

Lemma Inv_createRssArticle (data : ArticleCreateData.t) :
  Safe Inv Any (createRssArticle data).
Proof.
  unfold createRssArticle, wrapDatabaseOperation.
  apply Safe_tryCatch_inv; [| exact (fun _ => I) |].
  - apply Safe_action. unfold rssArticle_upsert.
    apply Inv_prismaCall. intros w Hw; unfold Inv in *.
    assert (H := P_upserted data _ Hw). unfold upserted in H.
    cbv zeta. destruct (find _ (rssArticle w)); exact H.
  - intro e; unfold handleDatabaseError.
    destruct (isPrismaError e); exact I.
Qed.

Lemma Inv_bulkLoop (articles : list ArticleCreateData.t) :
  forall r, Safe Inv Any (bulkLoop articles r).
Proof.
  induction articles as [| a rest IH]; intro r; cbn [bulkLoop];
    [exact I |].
  apply Safe_bind_any; [| exact IH | exact (fun _ => I)].
  destruct r as [c s e]; unfold bulkTurn.
  apply Safe_tryCatch_inv; [| exact (fun _ => I) |].
  - apply Safe_bind_any;
      [apply Inv_createRssArticle | intro; exact I | exact (fun _ => I)].
  - intro err; destruct (isPrismaError err && _); exact I.
Qed.

Lemma Inv_updateFeedLastFetched (feedId : string) :
  Safe Inv Any (updateFeedLastFetched feedId).
Proof.
  unfold updateFeedLastFetched.
  apply Safe_tryCatch_inv;
    [| exact (fun _ => I) | intro; exact I].
  apply Safe_bind_any; [| | exact (fun _ => I)].
  - apply Safe_action; auto.
  - intro now. apply Safe_action. unfold rssFeed_update.
    apply Inv_prismaCall. intros w Hw.
    destruct (find _ (rssFeed w)); exact Hw.
Qed.

Lemma Inv_fetchAndParseFeed (url feedId : string) :
  Safe Inv Any (fetchAndParseFeed url feedId).
Proof.
  unfold fetchAndParseFeed, parseFeedUrl.
  apply Safe_tryCatch_inv; [| exact (fun _ => I) | intro; exact I].
  apply Safe_bind_any; [| | exact (fun _ => I)].
  - apply Safe_tryCatch_inv; [| exact (fun _ => I) | intro; exact I].
    apply Safe_action; auto.
  - intro feed. apply Safe_bind_any;
      [apply Safe_action; auto | intro; exact I | exact (fun _ => I)].
Qed.

Lemma Inv_fetchAndStoreFeed (feedId : string) :
  Safe Inv Any (fetchAndStoreFeed feedId).
Proof.
  unfold fetchAndStoreFeed.
  apply Safe_tryCatch_inv; [| exact (fun _ => I) | intro; exact I].
  apply Safe_bind_any; [| | exact (fun _ => I)].
  - apply Safe_action. unfold rssFeed_findUnique.
    apply Inv_prismaCall; auto.
  - intros [feed |]; [| exact I].
    destruct (negb (RssFeed.isActive feed)); [exact I |].
    apply Safe_bind_any;
      [apply Inv_fetchAndParseFeed | | exact (fun _ => I)].
    intro parsed. apply Safe_bind_any;
      [apply Inv_bulkLoop | | exact (fun _ => I)].
    intro result. apply Safe_bind_any;
      [apply Inv_updateFeedLastFetched | intro; exact I
       | exact (fun _ => I)].
Qed.

Lemma Inv_allSettled (feedIds : list string) (w : World) :
  Inv w -> Inv (snd (allSettled (map fetchAndStoreFeed feedIds) w)).
Proof.
  intro Hw.
  destruct (Safe_allSettled Inv
              (map (fun _ => @Any FetchResult.t) feedIds)
              (map fetchAndStoreFeed feedIds) w) as (os & w' & -> & _ & H);
    trivial.
  induction feedIds; simpl; constructor;
    [apply Inv_fetchAndStoreFeed | assumption].
Qed.

Lemma Inv_refreshStale (total : nat) (stale : list string) :
  Safe Inv Any (refreshStale total stale).
Proof.
  unfold refreshStale.
  destruct (0 <? List.length stale)%nat.
  - apply Safe_bind_any; [apply Safe_action; auto | | exact (fun _ => I)].
    intros _. apply Safe_bind_any; [| | exact (fun _ => I)].
    + apply Safe_action. intros w Hw; now apply Inv_allSettled.
    + intro results. apply Safe_action; auto.
  - apply Safe_action; auto.
Qed.

Lemma Inv_getFeedsToRefresh (feedIds : list string) :
  Safe Inv Any (getFeedsToRefresh feedIds).
Proof.
  unfold getFeedsToRefresh, getFeedsToRefreshWithin.
  apply Safe_bind_any; [apply Safe_action; auto | | exact (fun _ => I)].
  intro now. apply Safe_bind_any; [| | exact (fun _ => I)].
  - apply Safe_action. unfold rssFeed_findMany.
    apply Inv_prismaCall; auto.
  - intro feeds. generalize (@nil string).
    induction feeds as [| f feeds IH]; intro acc; cbn [refreshLoop];
      [exact I |].
    apply Safe_bind_any; [| | exact (fun _ => I)].
    + apply Safe_action. unfold rssFeed_findFirst.
      apply Inv_prismaCall; auto.
    + intros [[t |] |]; try apply IH.
      destruct (now - t >? CACHE_WINDOW)%Z; apply IH.
Qed.

Lemma Inv_retrieveOrFail (params : PrepareFeedsParams.t) :
  Safe Inv Any (retrieveOrFail params).
Proof.
  unfold retrieveOrFail, getArticlesByFeedsAndDateRange,
    wrapDatabaseOperation.
  apply Safe_bind_any; [| | exact (fun _ => I)].
  - apply Safe_tryCatch_inv; [| exact (fun _ => I) |].
    + apply Safe_bind_any; [| intro; exact I | exact (fun _ => I)].
      apply Safe_action. unfold rssArticle_findMany.
      apply Inv_prismaCall; auto.
    + intro e; unfold handleDatabaseError.
      destruct (isPrismaError e); exact I.
  - intro articles. destruct (List.length articles =? 0)%nat; exact I.
Qed.

Lemma Inv_prepareFeedsAndArticles (params : PrepareFeedsParams.t)
  (w : World) :
  P (rssArticle w) ->
  P (rssArticle (snd (run (prepareFeedsAndArticles params) w))).
Proof.
  intro Hw.
  apply (Safe_run Inv Any (prepareFeedsAndArticles params) w); [| exact Hw].
  unfold prepareFeedsAndArticles.
  apply Safe_bind_any; [apply Inv_getFeedsToRefresh | | exact (fun _ => I)].
  intro stale. apply Safe_bind_any;
    [apply Inv_refreshStale | | exact (fun _ => I)].
  intros _. apply Inv_retrieveOrFail.
Qed.

End ArticleInvariant.

Lemma In_upserted (data : ArticleCreateData.t) (rows : list RssArticle.t)
  (a : RssArticle.t) :
  In a rows ->
  In a (upserted data rows)
  \/ In (RssArticle.push (ArticleCreateData.feedId data) a)
        (upserted data rows).
Proof.
  intro H; unfold upserted.
  destruct (find _ rows); [now apply In_updateUnique |].
  left; apply in_or_app; now left.
Qed.

Lemma upserted_primaryFirst (data : ArticleCreateData.t)
  (rows : list RssArticle.t) :
  Forall primaryFirst rows -> Forall primaryFirst (upserted data rows).
Proof.
  intro H; unfold upserted.
  destruct (find _ rows).
  - induction H as [| r rows Hr Hrows IH]; simpl; [constructor |].
    destruct (hasGuid _ r); constructor; trivial.
    unfold primaryFirst in *; simpl.
    destruct (RssArticle.sourceFeedIds r); [discriminate | exact Hr].
  - apply Forall_app; split; [exact H |].
    constructor; [reflexivity | constructor].
Qed.

Lemma extends_refl (a : RssArticle.t) : extends a a.
Proof.
  split; [unfold sameContent; tauto |].
  exists []; now rewrite app_nil_r.
Qed.

Lemma extends_push (fid : string) (old new : RssArticle.t) :
  extends old new -> extends old (RssArticle.push fid new).
Proof.
  intros [Hs (extra & He)]; split.
  - unfold sameContent in *; simpl; tauto.
  - exists (extra ++ [fid]); simpl. now rewrite He, app_assoc.
Qed.

Lemma upserted_keeps (rows0 : list RssArticle.t)
  (data : ArticleCreateData.t) (rows : list RssArticle.t) :
  keeps rows0 rows -> keeps rows0 (upserted data rows).
Proof.
  intros H old Hold. destruct (H old Hold) as (new & Hnew & Hext).
  destruct (In_upserted data rows new Hnew) as [Hin | Hin].
  - exists new; auto.
  - eexists; split; [exact Hin | now apply extends_push].
Qed.

(** X16.  Whatever the schedule of the concurrent refreshes and whatever
    calls the database fails, a run of the coordinator keeps what the
    single upsert keeps: a collection with one row per guid still has one
    row per guid; when the primary feed of every row is the first entry of
    its source set, it still is; and every row of the collection before the
    run is in the collection after it with the same content and the same
    primary feed, its source set being the old one with, at most, entries
    appended. *)
Theorem prepareFeedsAndArticles_keeps_collection :
  forall (params : PrepareFeedsParams.t) (w : World),
    (NoDup (map RssArticle.guid (rssArticle w)) ->
     NoDup (map RssArticle.guid
              (rssArticle (snd (run (prepareFeedsAndArticles params) w)))))
    /\ (Forall primaryFirst (rssArticle w) ->
        Forall primaryFirst
          (rssArticle (snd (run (prepareFeedsAndArticles params) w))))
    /\ keeps (rssArticle w)
         (rssArticle (snd (run (prepareFeedsAndArticles params) w))).
Proof.
  intros params w. split; [| split].
  - apply (Inv_prepareFeedsAndArticles
             (fun rows => NoDup (map RssArticle.guid rows))).
    intros data rows; apply upserted_NoDup.
  - apply (Inv_prepareFeedsAndArticles (Forall primaryFirst)).
    intros data rows; apply upserted_primaryFirst.
  - apply (Inv_prepareFeedsAndArticles (keeps (rssArticle w))).
    + intros data rows; apply upserted_keeps.
    + intros old Hold; exists old; split; [exact Hold | apply extends_refl].
Qed.

(** A run on the collection of three articles, with the refresh of feed
    [A] interleaved with the failing one of feed [B]. *)
Lemma prepareFeedsAndArticles_keeps_collection_witness :
  NoDup (map RssArticle.guid (rssArticle Sample.stocked))
  /\ NoDup (map RssArticle.guid
              (rssArticle
                 (snd (run (prepareFeedsAndArticles
                              (PrepareFeedsParams.mk ["A"; "B"] 0%Z 10000%Z))
                           Sample.stocked)))).
Proof.
  assert (H : NoDup (map RssArticle.guid (rssArticle Sample.stocked))).
  { repeat constructor; simpl; intuition discriminate. }
  split; [exact H |].
  exact (proj1 (prepareFeedsAndArticles_keeps_collection
                  (PrepareFeedsParams.mk ["A"; "B"] 0%Z 10000%Z)
                  Sample.stocked) H).
Defined.

(** ** Retrieval by provenance *)

(** X17.  For a row whose primary feed is the first entry of its source
    set, as the upsert creates and keeps it, the test on the primary feed
    in the filter of the retrieval adds nothing: the row is matched exactly
    when its source set meets the requested feeds. *)
Theorem matchesFeeds_by_source_set :
  forall (feedIds : list string) (a : RssArticle.t),
    primaryFirst a ->
    matchesFeeds feedIds a
    = existsb (fun s => inList s feedIds) (RssArticle.sourceFeedIds a).
Proof.
  intros feedIds a H. unfold matchesFeeds, primaryFirst in *.
  destruct (RssArticle.sourceFeedIds a) as [| s l]; [discriminate |].
  injection H as ->. simpl.
  destruct (inList (RssArticle.feedId a) feedIds); reflexivity.
Qed.

(** The article of feed [B] that feed [A] sighted too. *)
Lemma matchesFeeds_by_source_set_witness :
  primaryFirst
    (RssArticle.push "A" (articleOfData (Sample.article "B" "g2" 9000%Z)))
  /\ matchesFeeds ["A"]
       (RssArticle.push "A" (articleOfData (Sample.article "B" "g2" 9000%Z)))
     = true.
Proof.
  split; [reflexivity |].
  rewrite (matchesFeeds_by_source_set ["A"]
             (RssArticle.push "A"
                (articleOfData (Sample.article "B" "g2" 9000%Z)))
             eq_refl).
  reflexivity.
Defined.

Lemma upsertedRow_sighted (data : ArticleCreateData.t)
  (rows : list RssArticle.t) :
  In (ArticleCreateData.feedId data)
     (RssArticle.sourceFeedIds (upsertedRow data rows)).
Proof.
  unfold upsertedRow. destruct (find _ rows); simpl; [| now left].
  apply in_or_app; right; now left.
Qed.

Lemma getArticles_complete (feedIds : list string) (startDate endDate : Z)
  (limit : option nat) (w w' : World) (result : list ScoredArticle.t)
  (a : RssArticle.t) :
  run (getArticlesByFeedsAndDateRange feedIds startDate endDate limit) w
  = (Return result, w') ->
  In a (rssArticle w) ->
  requested feedIds a ->
  (startDate <= RssArticle.pubDate a <= endDate)%Z ->
  In a (map ScoredArticle.article result)
  \/ (List.length result = capOf limit
      /\ forall r, In r result -> notOlder (ScoredArticle.article r) a).
Proof.
  intros Hrun Ha Hreq Hwin. apply getArticles_run in Hrun as (-> & _).
  rewrite length_map, map_map; cbn [ScoredArticle.article]. rewrite map_id.
  set (sel := filter _ (rssArticle w)).
  assert (Hin : In a (ARTICLE_ORDER_BY_DATE_DESC sel)).
  { apply orderBy_In, filter_In; split; [exact Ha |].
    apply andb_true_iff; split;
      [now apply matchesFeeds_requested | now apply inWindow_bounds]. }
  destruct (firstn_top notOlder (capOf limit) _ a (orderBy_sorted sel) Hin)
    as [H | [Hlen Htop]]; [now left | right].
  split; [exact Hlen |].
  intros r Hr; apply in_map_iff in Hr as (b & <- & Hb); simpl.
  now apply Htop.
Qed.

(** X18.  What is upserted can be retrieved through the feed that sighted
    it: after an upsert that returns a row, a retrieval that the database
    answers, for feeds that include the feed of the upserted record and a
    window that contains the publish date of the row, returns that row,
    unless it returns as many rows as its cap allows, none of them older. *)
Theorem createRssArticle_then_retrieve :
  forall (data : ArticleCreateData.t) (w w1 w2 : World) (row : RssArticle.t)
         (feedIds : list string) (startDate endDate : Z)
         (limit : option nat) (result : list ScoredArticle.t),
    run (createRssArticle data) w = (Return row, w1) ->
    In (ArticleCreateData.feedId data) feedIds ->
    (startDate <= RssArticle.pubDate row <= endDate)%Z ->
    run (getArticlesByFeedsAndDateRange feedIds startDate endDate limit) w1
    = (Return result, w2) ->
    In row (map ScoredArticle.article result)
    \/ (List.length result = capOf limit
        /\ forall r, In r result -> notOlder (ScoredArticle.article r) row).
Proof.
  intros data w w1 w2 row feedIds startDate endDate limit result
         Hup Hfeed Hwin Hget.
  apply createRssArticle_Return in Hup as (-> & Hrows & _).
  apply (getArticles_complete _ _ _ _ _ _ _ _ Hget); trivial.
  - rewrite Hrows.
    exact (proj1 (find_hasGuid_Some _ _ _
                    (upserted_find_same data (rssArticle w)))).
  - right; exists (ArticleCreateData.feedId data); split; trivial.
    apply upsertedRow_sighted.
Qed.

(** Feed [B] sights the guid that feed [A] sighted first; a retrieval for
    feed [B] alone finds the row of feed [A]. *)
Lemma createRssArticle_then_retrieve_witness :
  (run (createRssArticle (Sample.article "B" "g" 6000%Z)) Sample.sighted
   = (Return (RssArticle.push "B"
                (articleOfData (Sample.article "A" "g" 5000%Z))),
      snd (run (createRssArticle (Sample.article "B" "g" 6000%Z))
               Sample.sighted))
   /\ In "B" ["B"]
   /\ (0 <= 5000 <= 10000)%Z)
  /\ In (RssArticle.push "B"
           (articleOfData (Sample.article "A" "g" 5000%Z)))
        (map ScoredArticle.article
           [ScoredArticle.mk
              (RssArticle.push "B"
                 (articleOfData (Sample.article "A" "g" 5000%Z)))
              (Some (FeedRef.mk "A" (Some "Feed A")
                       "https://a.example/rss"))
              2%nat]).
Proof.
  assert (Hup : run (createRssArticle (Sample.article "B" "g" 6000%Z))
                    Sample.sighted
                = (Return (RssArticle.push "B"
                             (articleOfData (Sample.article "A" "g" 5000%Z))),
                   snd (run (createRssArticle (Sample.article "B" "g" 6000%Z))
                            Sample.sighted))) by reflexivity.
  assert (Hfeed : In "B" ["B"]) by (left; reflexivity).
  assert (Hwin : (0 <= 5000 <= 10000)%Z) by (split; discriminate).
  split; [auto |].
  destruct (createRssArticle_then_retrieve
              (Sample.article "B" "g" 6000%Z) Sample.sighted _
              (snd (run (getArticlesByFeedsAndDateRange ["B"] 0%Z 10000%Z
                           None)
                        (snd (run (createRssArticle
                                     (Sample.article "B" "g" 6000%Z))
                                  Sample.sighted))))
              _ ["B"] 0%Z 10000%Z None
              [ScoredArticle.mk
                 (RssArticle.push "B"
                    (articleOfData (Sample.article "A" "g" 5000%Z)))
                 (Some (FeedRef.mk "A" (Some "Feed A")
                          "https://a.example/rss"))
                 2%nat]
              Hup Hfeed Hwin eq_refl) as [H | [Hlen _]].
  - exact H.
  - discriminate Hlen.
Defined.

(** ** Switching a feed off and on *)

Lemma toggleFeedActive_noFault (feedId : string) (w : World) :
  dbFaults w = [] ->
  run (toggleFeedActive feedId) w =
  match find (hasId feedId) (rssFeed w) with
  | Some f =>
      (Return (withIsActive (negb (RssFeed.isActive f)) f),
       setFeeds
         (updateUnique (hasId feedId)
            (withIsActive (negb (RssFeed.isActive f))) (rssFeed w))
         (record (FeedUpdate feedId) (record (FeedFindUnique feedId) w)))
  | None =>
      (Throw (Error "Failed to toggle feed status in database"),
       record (FeedFindUnique feedId) w)
  end.
Proof.
  intro NF. unfold toggleFeedActive.
  rewrite run_tryCatch, run_bind, run_await.
  unfold rssFeed_findUnique, prismaCall; rewrite NF.
  cbn [record rssFeed].
  destruct (find (hasId feedId) (rssFeed w)) as [f |] eqn:E;
    [| reflexivity].
  rewrite run_await. unfold rssFeed_updateActive, prismaCall.
  cbn [record dbFaults rssFeed]. rewrite NF, E. reflexivity.
Qed.

Lemma updateUnique_undo {A} (p : A -> bool) (g1 g2 : A -> A) (l : list A)
  (a : A) :
  find p l = Some a -> p (g1 a) = true -> g2 (g1 a) = a ->
  updateUnique p g2 (updateUnique p g1 l) = l.
Proof.
  induction l as [| x l IH]; simpl; [discriminate |].
  destruct (p x) eqn:E; intros H H1 H2.
  - injection H as ->. simpl. now rewrite H1, H2.
  - simpl. rewrite E. f_equal; auto.
Qed.

(** X19.  Toggling a feed flips its active flag and nothing else: with a
    database that answers, the feed record keeps its id, URL, title and
    last fetch, the other records and the articles are untouched, and a
    second toggle gives back the feed collection one started from.  Every
    failure, the missing record included, reaches the caller as the one
    error "Failed to toggle feed status in database". *)
Theorem toggleFeedActive_flips_and_undoes :
  forall (feedId : string) (w : World),
    (forall e, fst (run (toggleFeedActive feedId) w) = Throw e ->
               e = Error "Failed to toggle feed status in database")
    /\ (dbFaults w = [] ->
        rssArticle (snd (run (toggleFeedActive feedId) w)) = rssArticle w
        /\ rssFeed (snd (run (toggleFeedActive feedId)
                           (snd (run (toggleFeedActive feedId) w))))
           = rssFeed w
        /\ forall f,
             find (hasId feedId) (rssFeed w) = Some f ->
             fst (run (toggleFeedActive feedId) w)
             = Return (withIsActive (negb (RssFeed.isActive f)) f)
             /\ rssFeed (snd (run (toggleFeedActive feedId) w))
                = updateUnique (hasId feedId)
                    (withIsActive (negb (RssFeed.isActive f))) (rssFeed w)).
Proof.
  intros feedId w. split.
  - intro e. unfold toggleFeedActive. rewrite run_tryCatch.
    match goal with |- context [run ?p w] =>
      destruct (run p w) as [[a | e0] w']
    end; cbn [fst run throw]; [discriminate | congruence].
  - intro NF. rewrite (toggleFeedActive_noFault feedId w NF).
    destruct (find (hasId feedId) (rssFeed w)) as [f |] eqn:E.
    + cbn [snd fst]. split; [reflexivity |]. split.
      * rewrite toggleFeedActive_noFault by exact NF.
        cbn [setFeeds rssFeed].
        assert (Hp : hasId feedId
                       (withIsActive (negb (RssFeed.isActive f)) f) = true).
        { apply find_some in E as [_ E]. exact E. }
        rewrite (find_updateUnique_hit _ _ _ _ E Hp). cbn [snd rssFeed].
        apply (updateUnique_undo _ _ _ _ f E Hp).
        destruct f as [i u t l a]; unfold withIsActive; simpl.
        now rewrite negb_involutive.
      * intros f' H; injection H as <-. auto.
    + cbn [snd fst]. split; [reflexivity |]. split.
      * rewrite toggleFeedActive_noFault by exact NF.
        cbn [record rssFeed]. rewrite E. reflexivity.
      * intros f' H; discriminate.
Qed.

(** Feed [A] switched off, and on again. *)
Lemma toggleFeedActive_flips_and_undoes_witness :
  (dbFaults Sample.world = []
   /\ find (hasId "A") (rssFeed Sample.world) = Some Sample.feedA)
  /\ fst (run (toggleFeedActive "A") Sample.world)
     = Return (withIsActive false Sample.feedA)
  /\ rssFeed (snd (run (toggleFeedActive "A")
                     (snd (run (toggleFeedActive "A") Sample.world))))
     = rssFeed Sample.world.
Proof.
  split; [split; reflexivity |].
  destruct (proj2 (toggleFeedActive_flips_and_undoes "A" Sample.world)
              eq_refl) as (_ & Hundo & Hflip).
  split; [exact (proj1 (Hflip Sample.feedA eq_refl)) | exact Hundo].
Defined.


(** ** What the classifier reads *)

Lemma timing_filter (p : RssFeed.t -> bool) (l l' : list RssFeed.t) :
  (forall f g, timingPart f = timingPart g -> p f = p g) ->
  map timingPart l = map timingPart l' ->
  map timingPart (filter p l) = map timingPart (filter p l').
Proof.
  intro Hp. revert l'.
  induction l as [| f l IH]; intros [| g l'] E; simpl in *;
    try discriminate; trivial.
  pose proof (f_equal (hd (timingPart f)) E) as E1.
  pose proof (f_equal (@tl _) E) as E2. cbn [hd tl] in E1, E2.
  rewrite (Hp f g E1).
  destruct (p g); simpl; [rewrite E1; f_equal |]; auto.
Qed.

Lemma timing_first (l l' : list RssFeed.t) :
  map timingPart l = map timingPart l' ->
  option_map RssFeed.lastFetched (firstByLastFetchedDesc l)
  = option_map RssFeed.lastFetched (firstByLastFetchedDesc l').
Proof.
  revert l'.
  induction l as [| f l IH]; intros [| g l'] E; simpl in *;
    try discriminate; trivial.
  pose proof (f_equal (hd (timingPart f)) E) as E1.
  pose proof (f_equal (@tl _) E) as E2. cbn [hd tl] in E1, E2.
  specialize (IH l' E2).
  assert (Hl : RssFeed.lastFetched f = RssFeed.lastFetched g)
    by (unfold timingPart in E1; congruence).
  destruct (firstByLastFetchedDesc l) as [a |],
           (firstByLastFetchedDesc l') as [b |];
    simpl in IH; try discriminate; simpl; [| congruence].
  injection IH as IH. rewrite IH, Hl.
  destruct (fetchedAfter _ _); simpl; congruence.
Qed.

Lemma timing_isStale (cacheWindow now : Z) (l l' : list RssFeed.t)
  (f g : RssFeed.t) :
  map timingPart l = map timingPart l' ->
  timingPart f = timingPart g ->
  isStale cacheWindow now l f = isStale cacheWindow now l' g.
Proof.
  intros E Efg. unfold isStale, mostRecentFetchOf.
  assert (Hu : RssFeed.url f = RssFeed.url g)
    by (unfold timingPart in Efg; congruence).
  rewrite Hu.
  rewrite (timing_first
             (filter (fun f0 => RssFeed.url f0 =? RssFeed.url g) l)
             (filter (fun f0 => RssFeed.url f0 =? RssFeed.url g) l')).
  - reflexivity.
  - apply timing_filter; trivial.
    intros a b Eab; unfold timingPart in Eab.
    now replace (RssFeed.url a) with (RssFeed.url b) by congruence.
Qed.

Lemma timing_staleIds (cacheWindow now : Z) (l l' : list RssFeed.t)
  (feedIds : list string) :
  map timingPart l = map timingPart l' ->
  staleIds cacheWindow now l feedIds = staleIds cacheWindow now l' feedIds.
Proof.
  intro E. unfold staleIds.
  assert (H : map timingPart
                (filter (isStale cacheWindow now l)
                   (filter (fun f => inList (RssFeed.id f) feedIds) l))
              = map timingPart
                  (filter (isStale cacheWindow now l')
                     (filter (fun f => inList (RssFeed.id f) feedIds) l'))).
  { transitivity
      (map timingPart
         (filter (isStale cacheWindow now l)
            (filter (fun f => inList (RssFeed.id f) feedIds) l'))).
    - apply timing_filter.
      + intros a b Eab. now apply timing_isStale.
      + apply timing_filter; trivial.
        intros a b Eab; unfold timingPart in Eab.
        now replace (RssFeed.id a) with (RssFeed.id b) by congruence.
    - f_equal. apply filter_ext. intro a. now apply timing_isStale. }
  apply (f_equal (map (fun t : string * string * option Z =>
                         fst (fst t)))) in H.
  rewrite !map_map in H. exact H.
Qed.

Lemma timing_updateActive (fid : string) (b : bool) (l : list RssFeed.t) :
  map timingPart (updateUnique (hasId fid) (withIsActive b) l)
  = map timingPart l.
Proof.
  induction l as [| f l IH]; simpl; trivial.
  destruct (hasId fid f); simpl; [reflexivity | now rewrite IH].
Qed.

(** X20.  The classifier reads the id, the URL and the last fetch of the
    feed records and nothing else: on two collections that agree on these,
    at the same time, it gives the same answer, whatever the titles and the
    active flags.  In particular switching a feed off or on does not change
    what is classified stale, so an inactive feed is handed to the
    refresh like any other. *)
Theorem getFeedsToRefresh_ignores_active_flag :
  forall (feedIds : list string) (w w' : World),
    dbFaults w = [] -> dbFaults w' = [] ->
    clock w' = clock w ->
    map timingPart (rssFeed w') = map timingPart (rssFeed w) ->
    fst (run (getFeedsToRefresh feedIds) w')
    = fst (run (getFeedsToRefresh feedIds) w)
    /\ forall feedId,
         fst (run (getFeedsToRefresh feedIds)
                (snd (run (toggleFeedActive feedId) w)))
         = fst (run (getFeedsToRefresh feedIds) w).
Proof.
  intros feedIds w w' NF NF' Hc Ht.
  assert (Hgen : forall v v' : World,
            dbFaults v = [] -> dbFaults v' = [] -> clock v' = clock v ->
            map timingPart (rssFeed v') = map timingPart (rssFeed v) ->
            fst (run (getFeedsToRefresh feedIds) v')
            = fst (run (getFeedsToRefresh feedIds) v)).
  { intros v v' Hv Hv' Hcv Htv. unfold getFeedsToRefresh.
    destruct (getFeedsToRefreshWithin_noFault CACHE_WINDOW feedIds v Hv)
      as (v1 & -> & _).
    destruct (getFeedsToRefreshWithin_noFault CACHE_WINDOW feedIds v' Hv')
      as (v2 & -> & _).
    cbn [fst]. rewrite Hcv. f_equal. now apply timing_staleIds. }
  split; [now apply Hgen |].
  intro feedId. rewrite (toggleFeedActive_noFault feedId w NF).
  destruct (find (hasId feedId) (rssFeed w)) as [f |]; cbn [snd];
    apply Hgen; trivial; simpl; trivial.
  apply timing_updateActive.
Qed.

(** Feed [A] of the sample switched off: the classification of [A] and
    [B] is what it was. *)
Lemma getFeedsToRefresh_ignores_active_flag_witness :
  (dbFaults Sample.world = []
   /\ map timingPart (rssFeed Sample.world)
      = map timingPart (rssFeed Sample.world))
  /\ fst (run (getFeedsToRefresh ["A"; "B"])
            (snd (run (toggleFeedActive "A") Sample.world)))
     = fst (run (getFeedsToRefresh ["A"; "B"]) Sample.world).
Proof.
  split; [split; reflexivity |].
  exact (proj2 (getFeedsToRefresh_ignores_active_flag ["A"; "B"]
                  Sample.world Sample.world eq_refl eq_refl eq_refl eq_refl)
           "A").
Defined.

(** ** Stamping a feed *)

(** X21.  Stamping a feed either fails with the one error "Failed to
    update feed timestamp in database", the feed collection left as it
    was, or returns the record of that id with the current time as its last
    fetch: the record found under that id afterwards is the one returned,
    its id, URL, title and active flag are the old ones, and what is found
    under any other id is what was found before.  The articles are never
    touched. *)
Theorem updateFeedLastFetched_stamps_one_record :
  forall (feedId : string) (w : World),
    let w' := snd (run (updateFeedLastFetched feedId) w) in
    rssArticle w' = rssArticle w
    /\ (forall e,
          fst (run (updateFeedLastFetched feedId) w) = Throw e ->
          e = Error "Failed to update feed timestamp in database"
          /\ rssFeed w' = rssFeed w)
    /\ (forall f',
          fst (run (updateFeedLastFetched feedId) w) = Return f' ->
          find (hasId feedId) (rssFeed w') = Some f'
          /\ RssFeed.lastFetched f' = Some (clock w)
          /\ option_map staticPart (find (hasId feedId) (rssFeed w))
             = Some (staticPart f')
          /\ option_map RssFeed.title (find (hasId feedId) (rssFeed w))
             = Some (RssFeed.title f')
          /\ List.length (rssFeed w') = List.length (rssFeed w)
          /\ forall other,
               other <> feedId ->
               find (hasId other) (rssFeed w')
               = find (hasId other) (rssFeed w)).
Proof.
  intros feedId w.
  destruct (updateFeedLastFetched_run feedId w)
    as (w1 & _ & HA & _ & _ & [(f & Hf & _ & Hrun & HF)
                              | (_ & Hrun & HF)]);
    rewrite Hrun; cbn [snd fst]; (split; [exact HA |]); split.
  - intros e H; discriminate.
  - intros f' H; injection H as <-. rewrite HF, Hf.
    assert (Hp : hasId feedId (RssFeed.withLastFetched (clock w) f) = true).
    { apply find_some in Hf as [_ Hf]. exact Hf. }
    split; [apply (find_updateUnique_hit _ _ _ _ Hf Hp) |].
    repeat split; trivial.
    + apply length_updateUnique.
    + intros other Hne. apply find_updateUnique_miss.
      * intros a Ha. unfold hasId in *.
        apply String.eqb_eq in Ha. apply String.eqb_neq. congruence.
      * intro a. reflexivity.
  - intros e H; injection H as <-. auto.
  - intros f' H; discriminate.
Qed.

(** Feed [A] of the sample is stamped; feed [B] is found as before. *)
Lemma updateFeedLastFetched_stamps_one_record_witness :
  fst (run (updateFeedLastFetched "A") Sample.world)
  = Return (RssFeed.withLastFetched (clock Sample.world) Sample.feedA)
  /\ "B" <> "A"
  /\ find (hasId "B")
       (rssFeed (snd (run (updateFeedLastFetched "A") Sample.world)))
     = find (hasId "B") (rssFeed Sample.world).
Proof.
  split; [reflexivity |]. split; [discriminate |].
  destruct (updateFeedLastFetched_stamps_one_record "A" Sample.world)
    as (_ & _ & H).
  destruct (H (RssFeed.withLastFetched (clock Sample.world) Sample.feedA)
              eq_refl) as (_ & _ & _ & _ & _ & Hother).
  apply Hother. discriminate.
Defined.


(** ** A collection of inactive feeds *)

Definition anyOutcome {A} (_ : Outcome A) : Prop := True.

Section AnyOutcome.

Variable Inv : World -> Prop.

Lemma Safe_bind_top {A B} (p : Proc A) (f : A -> Proc B) :
  Safe Inv anyOutcome p ->
  (forall a, Safe Inv anyOutcome (f a)) ->
  Safe Inv anyOutcome (bind p f).
Proof.
  intros Hp Hf. apply Safe_bind.
  eapply Safe_mono; [| exact Hp]. intros [a | e] _; [apply Hf | exact I].
Qed.

Lemma Safe_tryCatch_top {A} (p : Proc A) (h : JsError -> Proc A) :
  Safe Inv anyOutcome p ->
  (forall e, Safe Inv anyOutcome (h e)) ->
  Safe Inv anyOutcome (tryCatch p h).
Proof.
  intros Hp Hh. apply Safe_tryCatch.
  eapply Safe_mono; [| exact Hp]. intros [a | e] _; [exact I | apply Hh].
Qed.

Lemma Safe_action_top {A} (m : M A) :
  (forall w, Inv w -> Inv (snd (m w))) -> Safe Inv anyOutcome (await m).
Proof. intro H; apply Safe_await; intros w Hw; split; [auto | exact I]. Qed.

End AnyOutcome.

Section Dormant.

Variable w0 : World.
Hypothesis dormant :
  forall f, In f (rssFeed w0) -> RssFeed.isActive f = false.

Let Inv (w : World) : Prop :=
  rssFeed w = rssFeed w0 /\ rssArticle w = rssArticle w0
  /\ filter isWrite (dbTrace w) = filter isWrite (dbTrace w0).

Lemma Dormant_read {A} (c : DbCall) (op : World -> Outcome A * World) :
  isWrite c = false ->
  (forall w, Inv w -> Inv (snd (op w))) ->
  forall w, Inv w -> Inv (snd (prismaCall c op w)).
Proof.
  intros Hc Hop w Hw.
  assert (Hrec : forall l, Inv (record c (setFaults l w))).
  { intro l. destruct Hw as (H1 & H2 & H3). unfold Inv; simpl.
    rewrite filter_app; simpl. rewrite Hc, app_nil_r. auto. }
  assert (Hrec' : Inv (record c w)).
  { destruct Hw as (H1 & H2 & H3). unfold Inv; simpl.
    rewrite filter_app; simpl. rewrite Hc, app_nil_r. auto. }
  unfold prismaCall.
  destruct (dbFaults w) as [| [e |] rest]; simpl; auto.
Qed.

Lemma Dormant_print (line : string) (w : World) : Inv w -> Inv (print line w).
Proof. exact (fun H => H). Qed.

Lemma Dormant_getFeedsToRefresh (feedIds : list string) :
  Safe Inv anyOutcome (getFeedsToRefresh feedIds).
Proof.
  unfold getFeedsToRefresh, getFeedsToRefreshWithin.
  apply Safe_bind_top; [apply Safe_action_top; auto |].
  intro now. apply Safe_bind_top.
  - apply Safe_action_top. unfold rssFeed_findMany.
    apply Dormant_read; auto.
  - intro feeds. generalize (@nil string).
    induction feeds as [| f feeds IH]; intro acc; cbn [refreshLoop];
      [exact I |].
    apply Safe_bind_top.
    + apply Safe_action_top. unfold rssFeed_findFirst.
      apply Dormant_read; auto.
    + intros [[t |] |]; try apply IH.
      destruct (now - t >? CACHE_WINDOW)%Z; apply IH.
Qed.

Lemma Dormant_fetchAndStoreFeed (feedId : string) :
  Safe Inv anyOutcome (fetchAndStoreFeed feedId).
Proof.
  unfold fetchAndStoreFeed.
  apply Safe_tryCatch_top; [| intro; exact I].
  apply Safe_bind, Safe_await. intros w Hw; split.
  - unfold rssFeed_findUnique. apply Dormant_read; auto.
  - unfold rssFeed_findUnique, prismaCall.
    destruct Hw as (HF & _).
    destruct (dbFaults w) as [| [e |] rest]; cbn [fst record rssFeed setFaults];
      try exact I; rewrite HF;
      (destruct (find (hasId feedId) (rssFeed w0)) as [f |] eqn:E;
       [| exact I]);
      apply find_some in E as [E _]; rewrite (dormant f E); exact I.
Qed.

Lemma Dormant_allSettled (feedIds : list string) (w : World) :
  Inv w -> Inv (snd (allSettled (map fetchAndStoreFeed feedIds) w)).
Proof.
  intro Hw.
  destruct (Safe_allSettled Inv
              (map (fun _ => @anyOutcome FetchResult.t) feedIds)
              (map fetchAndStoreFeed feedIds) w) as (os & w' & -> & _ & H);
    trivial.
  induction feedIds; simpl; constructor;
    [apply Dormant_fetchAndStoreFeed | assumption].
Qed.

Lemma Dormant_refreshStale (total : nat) (stale : list string) :
  Safe Inv anyOutcome (refreshStale total stale).
Proof.
  unfold refreshStale.
  destruct (0 <? List.length stale)%nat.
  - apply Safe_bind_top; [apply Safe_action_top; auto |].
    intros _. apply Safe_bind_top.
    + apply Safe_action_top. intros w Hw; now apply Dormant_allSettled.
    + intro results. apply Safe_action_top; auto.
  - apply Safe_action_top; auto.
Qed.

Lemma Dormant_retrieveOrFail (params : PrepareFeedsParams.t) :
  Safe Inv anyOutcome (retrieveOrFail params).
Proof.
  unfold retrieveOrFail, getArticlesByFeedsAndDateRange,
    wrapDatabaseOperation.
  apply Safe_bind_top.
  - apply Safe_tryCatch_top.
    + apply Safe_bind_top; [| intro; exact I].
      apply Safe_action_top. unfold rssArticle_findMany.
      apply Dormant_read; auto.
    + intro e; unfold handleDatabaseError.
      destruct (isPrismaError e); exact I.
  - intro articles. destruct (List.length articles =? 0)%nat; exact I.
Qed.

Lemma Dormant_prepareFeedsAndArticles (params : PrepareFeedsParams.t) :
  Inv (snd (run (prepareFeedsAndArticles params) w0)).
Proof.
  apply (Safe_run Inv anyOutcome (prepareFeedsAndArticles params) w0);
    [| unfold Inv; auto].
  unfold prepareFeedsAndArticles.
  apply Safe_bind_top; [apply Dormant_getFeedsToRefresh |].
  intro stale. apply Safe_bind_top; [apply Dormant_refreshStale |].
  intros _. apply Dormant_retrieveOrFail.
Qed.

End Dormant.

(** X22.  The classifier hands inactive feeds to the refresh, which rejects
    them before it fetches anything.  So on a collection whose feeds are
    all inactive a run of the coordinator writes nothing, whatever the
    schedule of the refreshes and whatever calls the database fails: the
    feed and article collections are what they were, no timestamp moves,
    and no upsert and no update reaches the database. *)
Theorem prepareFeedsAndArticles_inactive_feeds_write_nothing :
  forall (params : PrepareFeedsParams.t) (w : World),
    (forall f, In f (rssFeed w) -> RssFeed.isActive f = false) ->
    rssFeed (snd (run (prepareFeedsAndArticles params) w)) = rssFeed w
    /\ rssArticle (snd (run (prepareFeedsAndArticles params) w))
       = rssArticle w
    /\ filter isWrite (dbTrace (snd (run (prepareFeedsAndArticles params) w)))
       = filter isWrite (dbTrace w).
Proof.
  intros params w H. exact (Dormant_prepareFeedsAndArticles w H params).
Qed.

(** The stocked sample with both feeds switched off. *)
Lemma prepareFeedsAndArticles_inactive_feeds_write_nothing_witness :
  (forall f,
     In f (rssFeed (setFeeds [withIsActive false Sample.feedA;
                              withIsActive false Sample.feedB]
                      Sample.stocked)) ->
     RssFeed.isActive f = false)
  /\ rssFeed (snd (run (prepareFeedsAndArticles
                          (PrepareFeedsParams.mk ["A"; "B"] 0%Z 10000%Z))
                       (setFeeds [withIsActive false Sample.feedA;
                                  withIsActive false Sample.feedB]
                          Sample.stocked)))
     = [withIsActive false Sample.feedA; withIsActive false Sample.feedB].
Proof.
  assert (H : forall f,
            In f (rssFeed (setFeeds [withIsActive false Sample.feedA;
                                     withIsActive false Sample.feedB]
                             Sample.stocked)) ->
            RssFeed.isActive f = false).
  { intros f [<- | [<- | []]]; reflexivity. }
  split; [exact H |].
  exact (proj1 (prepareFeedsAndArticles_inactive_feeds_write_nothing
                  (PrepareFeedsParams.mk ["A"; "B"] 0%Z 10000%Z)
                  (setFeeds [withIsActive false Sample.feedA;
                             withIsActive false Sample.feedB]
                     Sample.stocked) H)).
Defined.
